(** * Kubetools Twitter bot: scheduling engine and state store

    A shallow embedding of [src/scheduler.py] (class [TweetScheduler]) and
    [src/database.py] (class [Database]), and the properties of the posting
    pipeline proved over it.

    Conventions of the embedding:
    - a naive [datetime] is the number of microseconds since
      0001-01-01T00:00:00 ([datetime.min]); arithmetic that leaves the
      representable range raises, as [OverflowError] does in Python;
    - ISO-8601 text of a [datetime] ([isoformat] / [fromisoformat], which are
      inverse to each other, and whose text order is the time order) is
      represented by the [datetime] itself;
    - a Python exception is the outcome [Raised]; mutations made before the
      exception are kept, as in Python;
    - every [datetime.utcnow()] is one reading of an injected clock;
    - storage I/O is assumed to work; what SQLite rejects is modelled: a
      constraint that fails, and an integer outside 64 bits, which the
      [sqlite3] module refuses to bind ([OverflowError]); a column of TEXT
      affinity stores a number as its text. *)

From Stdlib Require Import ZArith List Bool Lia Sorted Permutation.
From Stdlib Require Import Ascii String DecimalString.
From stdpp Require Import base gmap strings.
Import ListNotations.
Local Open Scope Z_scope.

(** ** Naive datetimes *)

Module DT.

Definition datetime := Z.

Definition US_PER_SECOND : Z := 1000000.
Definition US_PER_MINUTE : Z := 60 * US_PER_SECOND.
Definition US_PER_HOUR : Z := 3600 * US_PER_SECOND.
Definition US_PER_DAY : Z := 86400 * US_PER_SECOND.

(** [date.max.toordinal()]: the days 0001-01-01 .. 9999-12-31. *)
Definition MAX_ORDINAL : Z := 3652059.

(** [datetime.max] = 9999-12-31T23:59:59.999999 *)
Definition datetime_max : datetime := MAX_ORDINAL * US_PER_DAY - 1.

Definition in_range (t : Z) : bool := (0 <=? t) && (t <=? datetime_max).

(** [t.date()], as the number of days since 0001-01-01. *)
Definition date (t : datetime) : Z := t / US_PER_DAY.

Definition date_in_range (d : Z) : bool := (0 <=? d) && (d <? MAX_ORDINAL).

(** [t + timedelta(microseconds=delta)]; [None] is [OverflowError]. *)
Definition add (t : datetime) (delta : Z) : option datetime :=
  if in_range (t + delta) then Some (t + delta) else None.

Definition hours (h : Z) : Z := h * US_PER_HOUR.
Definition days (d : Z) : Z := d * US_PER_DAY.

(** [d + timedelta(days=n)] on a [date]; [None] is [OverflowError]. *)
Definition date_add (d : Z) (n : Z) : option Z :=
  if date_in_range (d + n) then Some (d + n) else None.

(** [datetime.min.time().replace(hour=h)]: the time of day h:00:00, as
    microseconds after midnight; [None] is the [ValueError] for an hour
    outside 0..23. *)
Definition time_at_hour (h : Z) : option Z :=
  if (0 <=? h) && (h <=? 23) then Some (hours h) else None.

(** [datetime.combine(d, tm)] *)
Definition combine (d : Z) (tm : Z) : datetime := d * US_PER_DAY + tm.

(** [t.replace(hour=h, minute=0, second=0, microsecond=0)] *)
Definition replace_hour (t : datetime) (h : Z) : option datetime :=
  match time_at_hour h with
  | Some tm => Some (combine (date t) tm)
  | None => None
  end.

(** Civil date of a day number (proleptic Gregorian calendar). *)
Definition civil_of_days (d : Z) : Z * Z * Z :=
  let z := d + 306 in
  let era := z / 146097 in
  let doe := z - era * 146097 in
  let yoe := (doe - doe / 1460 + doe / 36524 - doe / 146096) / 365 in
  let doy := doe - (365 * yoe + yoe / 4 - yoe / 100) in
  let mp := (5 * doy + 2) / 153 in
  let dd := doy - (153 * mp + 2) / 5 + 1 in
  let mm := if mp <? 10 then mp + 3 else mp - 9 in
  let yy := yoe + era * 400 + (if mm <=? 2 then 1 else 0) in
  (yy, mm, dd).

Definition digit (n : Z) : ascii := ascii_of_nat (48 + Z.to_nat (n mod 10)).

(** [n] in decimal, zero-padded to [width] digits. *)
Fixpoint zero_padded (width : nat) (n : Z) (acc : string) : string :=
  match width with
  | O => acc
  | S w => zero_padded w (n / 10) (String (digit n) acc)
  end.

(** [t.strftime('%Y%m%d_%H%M%S')]. The C library formats [%Y]: the year
    in decimal, which glibc does not pad (year 999 gives [999]); the other
    fields have two digits. *)
Definition strftime_Ymd_HMS (t : datetime) : string :=
  let '(yy, mm, dd) := civil_of_days (date t) in
  let tod := t mod US_PER_DAY in
  let hh := tod / US_PER_HOUR in
  let mi := (tod mod US_PER_HOUR) / US_PER_MINUTE in
  let ss := (tod mod US_PER_MINUTE) / US_PER_SECOND in
  String.append (NilZero.string_of_int (Z.to_int yy))
    (zero_padded 2 mm (zero_padded 2 dd
       (String "_" (zero_padded 2 hh (zero_padded 2 mi (zero_padded 2 ss "")))))).

End DT.

Abbreviation datetime := DT.datetime.

(** ** Outcomes and the state monad of the bot

    [Raised] stands for a propagating Python exception. A computation of the
    bot runs on a [world]; what it changed before raising stays changed. *)

Inductive outcome (A : Type) : Type :=
  | Ok (a : A)
  | Raised.
Arguments Ok {A} a.
Arguments Raised {A}.

(** Python's stable [list.sort(key=...)], by the order [leb] of the keys. *)
Fixpoint insert_by {A : Type} (leb : A -> A -> bool) (x : A) (l : list A) : list A :=
  match l with
  | [] => [x]
  | y :: l' => if leb x y then x :: y :: l' else y :: insert_by leb x l'
  end.

Definition sort_by {A : Type} (leb : A -> A -> bool) (l : list A) : list A :=
  fold_right (insert_by leb) [] l.

(** Python's [max(l, key=...)]: the first item whose key is maximal. *)
Fixpoint max_by {A : Type} (key : A -> Z) (l : list A) : option A :=
  match l with
  | [] => None
  | x :: l' =>
      match max_by key l' with
      | Some y => if key x <? key y then Some y else Some x
      | None => Some x
      end
  end.

(** JSON-serialisable values held in the dictionaries of the bot. *)
Inductive json : Type :=
  | JNull
  | JBool (b : bool)
  | JInt (z : Z)
  | JStr (s : string).

#[global] Instance json_eq_dec : EqDecision json.
Proof. solve_decision. Defined.

(** [str(v)], as an f-string formats a value. *)
Definition py_str (v : json) : string :=
  match v with
  | JNull => "None"
  | JBool true => "True"
  | JBool false => "False"
  | JInt z => NilZero.string_of_int (Z.to_int z)
  | JStr s => s
  end.

(** [d.get(k, default)] *)
Definition dict_get (d : gmap string json) (k : string) (default : json) : json :=
  match d !! k with
  | Some v => v
  | None => default
  end.

(** What the [sqlite3] module can bind: a Python [int] must fit in 64
    bits, or [OverflowError] is raised; [None], [bool] and [str] always
    bind. *)
Definition in_int64 (z : Z) : bool := (- 2 ^ 63 <=? z) && (z <? 2 ^ 63).

Definition sqlite_binds (v : json) : bool :=
  match v with
  | JInt z => in_int64 z
  | JNull | JBool _ | JStr _ => true
  end.

(** The value as a column of TEXT affinity stores it: a number (a [bool]
    is bound as 0 or 1) becomes its decimal text. *)
Definition sqlite_text (v : json) : json :=
  match v with
  | JNull => JNull
  | JBool b => JStr (if b then "1" else "0")
  | JInt z => JStr (NilZero.string_of_int (Z.to_int z))
  | JStr s => JStr s
  end.

(** ** The state store ([src/database.py]) *)

(** The [tool] handed to [add_tool] ([ToolRecord] / [KubeTool]). *)
Record ToolRecord : Type := {
  name : string;
  url : string;
  github_url : option string;
  description : string;
  category : string;
  stars : Z;
  added_date : datetime;
  commit_sha : option string
}.

(** A row of table [tools] (an item of [tools.json]). *)
Record tool_row : Type := {
  t_name : string;
  t_url : string;
  t_github_url : option string;
  t_description : string;
  t_category : string;
  t_stars : Z;
  t_added_date : datetime;
  t_commit_sha : option string;
  t_first_seen : datetime
}.

(** A row of table [posted_tweets] (an item of [posted_tweets.json]). *)
Record posted_row : Type := {
  p_tweet_id : string;
  p_twitter_id : json;
  p_tool_name : json;
  p_content : json;
  p_posted_at : datetime;
  p_engagement_data : string
}.

(** A row of table [queued_tweets] (an item of [queued_tweets.json]). *)
Record queued_row : Type := {
  q_tweet_id : string;
  q_tool_data : gmap string json;
  q_content : string;
  q_created_at : datetime;
  q_scheduled_for : option datetime;
  q_priority : Z;
  q_attempts : Z
}.

(** An item of [bot_state.json]. *)
Record state_item : Type := {
  s_key : string;
  s_value : datetime;
  s_updated_at : datetime
}.

(** The SQLite file: rows in rowid order; [bot_state] has [key] as its
    primary key and maps it to [(value, updated_at)]. *)
Record sqlite_db : Type := {
  sql_tools : list tool_row;
  sql_posted_tweets : list posted_row;
  sql_queued_tweets : list queued_row;
  sql_bot_state : gmap string (datetime * datetime)
}.

(** The four JSON files of the fallback storage. *)
Record json_files : Type := {
  json_tools : list tool_row;
  json_posted_tweets : list posted_row;
  json_queued_tweets : list queued_row;
  json_bot_state : list state_item
}.

(** [Database]: [use_json_fallback] selects the storage. *)
Inductive Database : Type :=
  | SQLite (s : sqlite_db)
  | JSONFallback (j : json_files).

Definition use_json_fallback (d : Database) : bool :=
  match d with
  | SQLite _ => false
  | JSONFallback _ => true
  end.

(** A tweet of the queue ([QueuedTweet]). *)
Record QueuedTweet : Type := {
  id : string;
  tool_data : gmap string json;
  tweet_content : string;
  created_at : datetime;
  scheduled_for : option datetime;
  priority : Z;
  attempts : Z;
  max_attempts : Z
}.

(** An item of [data/tweet_queue.json]; the keys that [from_dict] reads
    with [data.get] may be missing. *)
Record queue_item : Type := {
  qi_id : string;
  qi_tool_data : gmap string json;
  qi_tweet_content : string;
  qi_created_at : datetime;
  qi_scheduled_for : option datetime;
  qi_priority : option Z;
  qi_attempts : option Z;
  qi_max_attempts : option Z
}.

(** [TweetScheduler]: configuration, the in-memory queue and the queue
    file ([None] while the file does not exist). *)
Record TweetScheduler : Type := {
  tweets_per_day : Z;
  optimal_hours : list Z;
  min_interval_hours : Z;
  tweet_queue : list QueuedTweet;
  queue_file : option (list queue_item)
}.

(** The world the bot runs in: the clock read by [datetime.utcnow()]
    ([ticks] readings were taken so far), the store and the scheduler. *)
Record world : Type := {
  clock : nat -> datetime;
  ticks : nat;
  database : Database;
  scheduler : TweetScheduler
}.

Definition M (A : Type) : Type := world -> outcome A * world.

Definition ret {A : Type} (a : A) : M A := fun w => (Ok a, w).

Definition raise {A : Type} : M A := fun w => (Raised, w).

Definition bind {A B : Type} (m : M A) (f : A -> M B) : M B :=
  fun w =>
    match m w with
    | (Ok a, w') => f a w'
    | (Raised, w') => (Raised, w')
    end.

(** [try: m except Exception: handler] *)
Definition try_except {A : Type} (m : M A) (handler : M A) : M A :=
  fun w =>
    match m w with
    | (Ok a, w') => (Ok a, w')
    | (Raised, w') => handler w'
    end.

(** A partial pure computation: [None] raises. *)
Definition lift {A : Type} (o : option A) : M A :=
  match o with
  | Some a => ret a
  | None => raise
  end.

Declare Scope bot_scope.
Delimit Scope bot_scope with bot.
Notation "'let!' x ':=' m 'in' k" := (bind m (fun x => k))
  (at level 10, x name, m at level 100, k at level 200) : bot_scope.
Notation "'run!' m 'in' k" := (bind m (fun _ => k))
  (at level 10, m at level 100, k at level 200) : bot_scope.
Local Open Scope bot_scope.

Definition utcnow : M datetime :=
  fun w => (Ok (clock w (ticks w)),
            {| clock := clock w; ticks := S (ticks w);
               database := database w; scheduler := scheduler w |}).

Definition get_database : M Database := fun w => (Ok (database w), w).

Definition put_database (d : Database) : M unit :=
  fun w => (Ok tt, {| clock := clock w; ticks := ticks w;
                      database := d; scheduler := scheduler w |}).

Definition get_scheduler : M TweetScheduler := fun w => (Ok (scheduler w), w).

Definition put_scheduler (s : TweetScheduler) : M unit :=
  fun w => (Ok tt, {| clock := clock w; ticks := ticks w;
                      database := database w; scheduler := s |}).

(** *** Operations of [Database] *)

Definition tool_matches (nm u : string) (r : tool_row) : bool :=
  bool_decide (t_name r = nm) && bool_decide (t_url r = u).

Definition row_of_tool (tool : ToolRecord) (first_seen : datetime) : tool_row :=
  {| t_name := name tool; t_url := url tool; t_github_url := github_url tool;
     t_description := description tool; t_category := category tool;
     t_stars := stars tool; t_added_date := added_date tool;
     t_commit_sha := commit_sha tool; t_first_seen := first_seen |}.

Definition sql_set_tools (s : sqlite_db) (l : list tool_row) : sqlite_db :=
  {| sql_tools := l; sql_posted_tweets := sql_posted_tweets s;
     sql_queued_tweets := sql_queued_tweets s; sql_bot_state := sql_bot_state s |}.

Definition sql_set_posted_tweets (s : sqlite_db) (l : list posted_row) : sqlite_db :=
  {| sql_tools := sql_tools s; sql_posted_tweets := l;
     sql_queued_tweets := sql_queued_tweets s; sql_bot_state := sql_bot_state s |}.

Definition sql_set_queued_tweets (s : sqlite_db) (l : list queued_row) : sqlite_db :=
  {| sql_tools := sql_tools s; sql_posted_tweets := sql_posted_tweets s;
     sql_queued_tweets := l; sql_bot_state := sql_bot_state s |}.

Definition sql_set_bot_state (s : sqlite_db) (m : gmap string (datetime * datetime)) : sqlite_db :=
  {| sql_tools := sql_tools s; sql_posted_tweets := sql_posted_tweets s;
     sql_queued_tweets := sql_queued_tweets s; sql_bot_state := m |}.

Definition json_set_tools (j : json_files) (l : list tool_row) : json_files :=
  {| json_tools := l; json_posted_tweets := json_posted_tweets j;
     json_queued_tweets := json_queued_tweets j; json_bot_state := json_bot_state j |}.

Definition json_set_posted_tweets (j : json_files) (l : list posted_row) : json_files :=
  {| json_tools := json_tools j; json_posted_tweets := l;
     json_queued_tweets := json_queued_tweets j; json_bot_state := json_bot_state j |}.

Definition json_set_queued_tweets (j : json_files) (l : list queued_row) : json_files :=
  {| json_tools := json_tools j; json_posted_tweets := json_posted_tweets j;
     json_queued_tweets := l; json_bot_state := json_bot_state j |}.

Definition json_set_bot_state (j : json_files) (l : list state_item) : json_files :=
  {| json_tools := json_tools j; json_posted_tweets := json_posted_tweets j;
     json_queued_tweets := json_queued_tweets j; json_bot_state := l |}.

(** [Database.tool_exists] *)
Definition tool_exists (nm u : string) : M bool :=
  try_except
    (let! d := get_database in
     match d with
     | JSONFallback j => ret (existsb (tool_matches nm u) (json_tools j))
     | SQLite s =>
         (* SELECT COUNT( * ) FROM tools WHERE name = ? AND url = ? *)
         ret (0 <? Z.of_nat (length (List.filter (tool_matches nm u) (sql_tools s))))
     end)
    (ret false).

(** [Database.add_tool]. The dictionary [tool_data] is built first, with a
    clock reading of its own; the SQLite branch reads the clock again, and
    raises when [stars] cannot be bound as an INTEGER. *)
Definition add_tool (tool : ToolRecord) : M bool :=
  try_except
    (let! first_seen := utcnow in
     let! d := get_database in
     match d with
     | JSONFallback j =>
         (* tools.append(tool_data) *)
         run! put_database
                (JSONFallback (json_set_tools j (json_tools j ++ [row_of_tool tool first_seen]))) in
         ret true
     | SQLite s =>
         let! first_seen_sql := utcnow in
         if in_int64 (stars tool) then
           (* INSERT OR IGNORE INTO tools, under UNIQUE(name, url) *)
           run! put_database
                  (SQLite (if existsb (tool_matches (name tool) (url tool)) (sql_tools s)
                           then s
                           else sql_set_tools s
                                  (sql_tools s ++ [row_of_tool tool first_seen_sql]))) in
           ret true
         else raise
     end)
    (ret false).

(** [Database.get_total_tools_count] *)
Definition get_total_tools_count : M Z :=
  try_except
    (let! d := get_database in
     match d with
     | JSONFallback j => ret (Z.of_nat (length (json_tools j)))
     | SQLite s => ret (Z.of_nat (length (sql_tools s)))
     end)
    (ret 0).

Definition queued_row_of (t : QueuedTweet) : queued_row :=
  {| q_tweet_id := id t; q_tool_data := tool_data t; q_content := tweet_content t;
     q_created_at := created_at t; q_scheduled_for := scheduled_for t;
     q_priority := priority t; q_attempts := attempts t |}.

Definition queued_id_differs (tweet_id : string) (r : queued_row) : bool :=
  negb (bool_decide (q_tweet_id r = tweet_id)).

(** [Database.add_queued_tweet]. The SQLite branch raises when [priority]
    or [attempts] cannot be bound as an INTEGER. *)
Definition add_queued_tweet (t : QueuedTweet) : M bool :=
  try_except
    (let! d := get_database in
     match d with
     | JSONFallback j =>
         run! put_database
                (JSONFallback (json_set_queued_tweets j (json_queued_tweets j ++ [queued_row_of t]))) in
         ret true
     | SQLite s =>
         if in_int64 (priority t) && in_int64 (attempts t) then
           (* INSERT OR REPLACE INTO queued_tweets, under UNIQUE(tweet_id) *)
           run! put_database
                  (SQLite (sql_set_queued_tweets s
                             (List.filter (queued_id_differs (id t)) (sql_queued_tweets s)
                                ++ [queued_row_of t]))) in
           ret true
         else raise
     end)
    (ret false).

(** [Database.get_queued_tweets_count] *)
Definition get_queued_tweets_count : M Z :=
  try_except
    (let! d := get_database in
     match d with
     | JSONFallback j => ret (Z.of_nat (length (json_queued_tweets j)))
     | SQLite s => ret (Z.of_nat (length (sql_queued_tweets s)))
     end)
    (ret 0).

Definition posted_row_of (tweet_id : string) (twitter_result : gmap string json)
    (posted_at : datetime) : posted_row :=
  {| p_tweet_id := tweet_id;
     p_twitter_id := dict_get twitter_result "id" JNull;
     p_tool_name := dict_get twitter_result "tool_name" (JStr "Unknown");
     p_content := dict_get twitter_result "text" (JStr "");
     p_posted_at := posted_at;
     p_engagement_data := "{}" |}.

(** The row of [posted_tweets] as SQLite stores it: [twitter_id],
    [tool_name] and [content] are columns of TEXT affinity. *)
Definition sqlite_posted_row_of (tweet_id : string) (twitter_result : gmap string json)
    (posted_at : datetime) : posted_row :=
  {| p_tweet_id := tweet_id;
     p_twitter_id := sqlite_text (dict_get twitter_result "id" JNull);
     p_tool_name := sqlite_text (dict_get twitter_result "tool_name" (JStr "Unknown"));
     p_content := sqlite_text (dict_get twitter_result "text" (JStr ""));
     p_posted_at := posted_at;
     p_engagement_data := "{}" |}.

(** [Database.mark_tweet_posted]. In SQLite the INSERT fails (and nothing
    is written) when one of the three values of Twitter's answer is an
    integer that cannot be bound, when [tweet_id] is already in
    [posted_tweets] (UNIQUE) or when the content is NULL (NOT NULL). *)
Definition mark_tweet_posted (tweet_id : string) (twitter_result : gmap string json) : M bool :=
  try_except
    (let! posted_at := utcnow in
     let! d := get_database in
     match d with
     | JSONFallback j =>
         let j1 := json_set_posted_tweets j
                     (json_posted_tweets j ++ [posted_row_of tweet_id twitter_result posted_at]) in
         let j2 := json_set_queued_tweets j1
                     (List.filter (queued_id_differs tweet_id) (json_queued_tweets j1)) in
         run! put_database (JSONFallback j2) in
         ret true
     | SQLite s =>
         let! posted_at_sql := utcnow in
         let row := sqlite_posted_row_of tweet_id twitter_result posted_at_sql in
         if negb (sqlite_binds (dict_get twitter_result "id" JNull)
                  && sqlite_binds (dict_get twitter_result "tool_name" (JStr "Unknown"))
                  && sqlite_binds (dict_get twitter_result "text" (JStr "")))
            || existsb (fun r => bool_decide (p_tweet_id r = tweet_id)) (sql_posted_tweets s)
            || bool_decide (p_content row = JNull)
         then raise
         else
           let s1 := sql_set_posted_tweets s (sql_posted_tweets s ++ [row]) in
           let s2 := sql_set_queued_tweets s1
                       (List.filter (queued_id_differs tweet_id) (sql_queued_tweets s1)) in
           run! put_database (SQLite s2) in
           ret true
     end)
    (ret false).

(** [Database.mark_tweet_failed] *)
Definition mark_tweet_failed (tweet_id : string) : M bool :=
  try_except
    (let! d := get_database in
     match d with
     | JSONFallback j =>
         run! put_database
                (JSONFallback (json_set_queued_tweets j
                                 (List.filter (queued_id_differs tweet_id) (json_queued_tweets j)))) in
         ret true
     | SQLite s =>
         run! put_database
                (SQLite (sql_set_queued_tweets s
                           (List.filter (queued_id_differs tweet_id) (sql_queued_tweets s)))) in
         ret true
     end)
    (ret false).

(** [Database.get_posted_tweets_count] *)
Definition get_posted_tweets_count : M Z :=
  try_except
    (let! d := get_database in
     match d with
     | JSONFallback j => ret (Z.of_nat (length (json_posted_tweets j)))
     | SQLite s => ret (Z.of_nat (length (sql_posted_tweets s)))
     end)
    (ret 0).

(** The first item of [bot_state.json] under [key]. *)
Fixpoint json_state_find (key : string) (l : list state_item) : option datetime :=
  match l with
  | [] => None
  | item :: l' =>
      if bool_decide (s_key item = key) then Some (s_value item)
      else json_state_find key l'
  end.

(** The loop of [_set_state_value] over [bot_state.json]: the first item
    under [key] is overwritten; [None] when there is none ([found] stays
    false). *)
Fixpoint json_state_update (key : string) (value now : datetime) (l : list state_item)
    : option (list state_item) :=
  match l with
  | [] => None
  | item :: l' =>
      if bool_decide (s_key item = key)
      then Some ({| s_key := s_key item; s_value := value; s_updated_at := now |} :: l')
      else match json_state_update key value now l' with
           | Some l'' => Some (item :: l'')
           | None => None
           end
  end.

(** [Database._get_state_value] *)
Definition _get_state_value (key : string) : M (option datetime) :=
  try_except
    (let! d := get_database in
     match d with
     | JSONFallback j => ret (json_state_find key (json_bot_state j))
     | SQLite s =>
         ret (match sql_bot_state s !! key with
              | Some (value, _) => Some value
              | None => None
              end)
     end)
    (ret None).

(** [Database._set_state_value] *)
Definition _set_state_value (key : string) (value : datetime) : M bool :=
  try_except
    (let! d := get_database in
     let! now := utcnow in
     match d with
     | JSONFallback j =>
         let state_data :=
           match json_state_update key value now (json_bot_state j) with
           | Some l => l
           | None => json_bot_state j
                       ++ [{| s_key := key; s_value := value; s_updated_at := now |}]
           end in
         run! put_database (JSONFallback (json_set_bot_state j state_data)) in
         ret true
     | SQLite s =>
         (* INSERT OR REPLACE INTO bot_state *)
         run! put_database
                (SQLite (sql_set_bot_state s (<[key := (value, now)]> (sql_bot_state s)))) in
         ret true
     end)
    (ret false).

(** [Database.get_last_check_timestamp] *)
Definition get_last_check_timestamp : M (option datetime) :=
  try_except (_get_state_value "last_check_timestamp") (ret None).

(** [Database.update_last_check_timestamp] *)
Definition update_last_check_timestamp : M bool :=
  try_except
    (let! now := utcnow in _set_state_value "last_check_timestamp" now)
    (ret false).

(** [Database.get_last_tweet_time] *)
Definition get_last_tweet_time : M (option datetime) :=
  try_except
    (let! d := get_database in
     match d with
     | JSONFallback j =>
         (* max(posted_tweets, key=lambda t: t['posted_at']) *)
         match max_by p_posted_at (json_posted_tweets j) with
         | Some latest => ret (Some (p_posted_at latest))
         | None => ret None
         end
     | SQLite s =>
         (* SELECT posted_at FROM posted_tweets ORDER BY posted_at DESC LIMIT 1 *)
         match max_by p_posted_at (sql_posted_tweets s) with
         | Some result => ret (Some (p_posted_at result))
         | None => ret None
         end
     end)
    (ret None).

(** [Database.update_last_tweet_time] *)
Definition update_last_tweet_time : M bool :=
  try_except
    (let! now := utcnow in _set_state_value "last_tweet_time" now)
    (ret false).

(** [Database.get_recent_tweet_times] *)
Definition get_recent_tweet_times (days : Z) : M (list datetime) :=
  try_except
    (let! now := utcnow in
     let! cutoff := lift (DT.add now (- DT.days days)) in
     let! d := get_database in
     match d with
     | JSONFallback j =>
         ret (List.filter (fun posted_at => cutoff <=? posted_at)
                (map p_posted_at (json_posted_tweets j)))
     | SQLite s =>
         (* ... WHERE posted_at >= ? ORDER BY posted_at *)
         ret (sort_by Z.leb
                (List.filter (fun posted_at => cutoff <=? posted_at)
                   (map p_posted_at (sql_posted_tweets s))))
     end)
    (ret []).

(** [Database.get_posted_tweets_since] *)
Definition get_posted_tweets_since (cutoff_date : datetime) : M (list posted_row) :=
  try_except
    (let! d := get_database in
     match d with
     | JSONFallback j =>
         ret (List.filter (fun r => cutoff_date <=? p_posted_at r) (json_posted_tweets j))
     | SQLite s =>
         ret (sort_by (fun a b => p_posted_at a <=? p_posted_at b)
                (List.filter (fun r => cutoff_date <=? p_posted_at r) (sql_posted_tweets s)))
     end)
    (ret []).

(** [Database.health_check]; the storage is reachable in this model. *)
Definition health_check : M bool :=
  try_except
    (let! d := get_database in
     match d with
     | JSONFallback _ => ret true
     | SQLite _ => ret true
     end)
    (ret false).

(** The dictionary returned by [Database.get_statistics]. *)
Record statistics : Type := {
  storage_type : string;
  total_tools : Z;
  stat_queued_tweets : Z;
  stat_posted_tweets : Z;
  last_check : option datetime;
  last_tweet : option datetime
}.

(** [Database.get_statistics]; [None] is the empty dictionary of the
    handler. *)
Definition get_statistics : M (option statistics) :=
  try_except
    (let! d := get_database in
     let! n_tools := get_total_tools_count in
     let! n_queued := get_queued_tweets_count in
     let! n_posted := get_posted_tweets_count in
     let! checked := get_last_check_timestamp in
     let! tweeted := get_last_tweet_time in
     ret (Some {| storage_type := if use_json_fallback d then "JSON" else "SQLite";
                  total_tools := n_tools; stat_queued_tweets := n_queued;
                  stat_posted_tweets := n_posted;
                  last_check := checked; last_tweet := tweeted |}))
    (ret None).

(** ** The scheduler ([src/scheduler.py]) *)

(** [QueuedTweet.to_dict] *)
Definition to_dict (t : QueuedTweet) : queue_item :=
  {| qi_id := id t; qi_tool_data := tool_data t; qi_tweet_content := tweet_content t;
     qi_created_at := created_at t;
     qi_scheduled_for := match scheduled_for t with Some s => Some s | None => None end;
     qi_priority := Some (priority t); qi_attempts := Some (attempts t);
     qi_max_attempts := Some (max_attempts t) |}.

(** [QueuedTweet.from_dict] *)
Definition from_dict (data : queue_item) : QueuedTweet :=
  {| id := qi_id data; tool_data := qi_tool_data data;
     tweet_content := qi_tweet_content data; created_at := qi_created_at data;
     scheduled_for := match qi_scheduled_for data with Some s => Some s | None => None end;
     priority := match qi_priority data with Some p => p | None => 1 end;
     attempts := match qi_attempts data with Some a => a | None => 0 end;
     max_attempts := match qi_max_attempts data with Some m => m | None => 3 end |}.

(** [TweetScheduler._load_queue], from the content of the queue file. *)
Definition _load_queue (file : option (list queue_item)) : list QueuedTweet :=
  match file with
  | Some queue_data => map from_dict queue_data
  | None => []
  end.

(** [max(24 // tweets_per_day - 1, 2)]; [None] is [ZeroDivisionError]. *)
Definition interval_for (tweets_per_day : Z) : option Z :=
  if tweets_per_day =? 0 then None else Some (Z.max (24 / tweets_per_day - 1) 2).

(** [TweetScheduler.__init__] *)
Definition init_scheduler (tweets_per_day : Z) (file : option (list queue_item))
    : option TweetScheduler :=
  match interval_for tweets_per_day with
  | Some interval =>
      Some {| tweets_per_day := tweets_per_day;
              optimal_hours := [9; 13; 17; 21];
              min_interval_hours := interval;
              tweet_queue := _load_queue file;
              queue_file := file |}
  | None => None
  end.

Definition set_tweet_queue (s : TweetScheduler) (q : list QueuedTweet) : TweetScheduler :=
  {| tweets_per_day := tweets_per_day s; optimal_hours := optimal_hours s;
     min_interval_hours := min_interval_hours s; tweet_queue := q;
     queue_file := queue_file s |}.

Definition set_queue_file (s : TweetScheduler) (f : option (list queue_item)) : TweetScheduler :=
  {| tweets_per_day := tweets_per_day s; optimal_hours := optimal_hours s;
     min_interval_hours := min_interval_hours s; tweet_queue := tweet_queue s;
     queue_file := f |}.

Definition set_scheduled_for (t : QueuedTweet) (s : option datetime) : QueuedTweet :=
  {| id := id t; tool_data := tool_data t; tweet_content := tweet_content t;
     created_at := created_at t; scheduled_for := s; priority := priority t;
     attempts := attempts t; max_attempts := max_attempts t |}.

Definition set_attempts (t : QueuedTweet) (a : Z) : QueuedTweet :=
  {| id := id t; tool_data := tool_data t; tweet_content := tweet_content t;
     created_at := created_at t; scheduled_for := scheduled_for t;
     priority := priority t; attempts := a; max_attempts := max_attempts t |}.

(** The key of [_sort_queue]:
    [(-t.priority, t.scheduled_for or datetime.max, t.created_at)]. *)
Definition sort_key (t : QueuedTweet) : Z * Z * Z :=
  (- priority t,
   match scheduled_for t with Some s => s | None => DT.datetime_max end,
   created_at t).

(** Python's order of tuples: [a <= b], lexicographic. *)
Definition key_leb (a b : Z * Z * Z) : bool :=
  let '(a1, a2, a3) := a in
  let '(b1, b2, b3) := b in
  (a1 <? b1) || ((a1 =? b1) && ((a2 <? b2) || ((a2 =? b2) && (a3 <=? b3)))).

Definition tweet_leb (a b : QueuedTweet) : bool := key_leb (sort_key a) (sort_key b).

(** [TweetScheduler._sort_queue] *)
Definition _sort_queue : M unit :=
  let! s := get_scheduler in
  put_scheduler (set_tweet_queue s (sort_by tweet_leb (tweet_queue s))).

(** [TweetScheduler._save_queue] *)
Definition _save_queue : M unit :=
  try_except
    (let! s := get_scheduler in
     put_scheduler (set_queue_file s (Some (map to_dict (tweet_queue s)))))
    (ret tt).

(** The loop of [_find_next_optimal_hour]: [Some (Some c)] returns [c]
    from inside the loop, [Some None] falls through, [None] raises. *)
Fixpoint first_optimal_after (target_date : Z) (from_time : datetime) (hours : list Z)
    : option (option datetime) :=
  match hours with
  | [] => Some None
  | hour :: rest =>
      match DT.time_at_hour hour with
      | Some tm =>
          let candidate_time := DT.combine target_date tm in
          if from_time <? candidate_time then Some (Some candidate_time)
          else first_optimal_after target_date from_time rest
      | None => None
      end
  end.

(** [TweetScheduler._find_next_optimal_hour]; [None] raises. *)
Definition _find_next_optimal_hour (hours : list Z) (from_time : datetime) : option datetime :=
  let target_date := DT.date from_time in
  match first_optimal_after target_date from_time hours with
  | Some (Some candidate_time) => Some candidate_time
  | Some None =>
      match DT.date_add target_date 1 with
      | Some tomorrow =>
          match hours with
          | first_hour :: _ =>
              match DT.time_at_hour first_hour with
              | Some tm => Some (DT.combine tomorrow tm)
              | None => None
              end
          | [] => None
          end
      | None => None
      end
  | None => None
  end.

(** [max(l)] of a non-empty list of datetimes. *)
Definition list_max (x : datetime) (l : list datetime) : datetime := fold_left Z.max l x.

(** The [try] block of [_calculate_next_slot], from the clock reading
    [now] and the answer [recent_tweets] of the store; [None] raises. *)
Definition next_slot (s : TweetScheduler) (now : datetime) (recent_tweets : list datetime)
    : option datetime :=
  let today_tweets := List.filter (fun t => DT.date t =? DT.date now) recent_tweets in
  if Z.of_nat (length today_tweets) <? tweets_per_day s then
    match _find_next_optimal_hour (optimal_hours s) now with
    | Some slot =>
        match recent_tweets with
        | first :: others =>
            let last_tweet := list_max first others in
            match DT.add last_tweet (DT.hours (min_interval_hours s)) with
            | Some min_next_time => Some (Z.max slot min_next_time)
            | None => None
            end
        | [] => Some slot
        end
    | None => None
    end
  else
    match optimal_hours s with
    | first_hour :: _ =>
        match DT.replace_hour now first_hour with
        | Some t => DT.add t (DT.days 1)
        | None => None
        end
    | [] => None
    end.

(** [TweetScheduler._calculate_next_slot] *)
Definition _calculate_next_slot : M datetime :=
  try_except
    (let! now := utcnow in
     let! recent_tweets := get_recent_tweet_times 1 in
     let! s := get_scheduler in
     lift (next_slot s now recent_tweets))
    (let! now := utcnow in lift (DT.add now (DT.hours 2))).

(** The id built by [add_to_queue]:
    [f"{tool_data.get('name', 'tool')}_{now.strftime('%Y%m%d_%H%M%S')}"]. *)
Definition make_tweet_id (tool_data : gmap string json) (now : datetime) : string :=
  String.append (py_str (dict_get tool_data "name" (JStr "tool")))
    (String "_" (DT.strftime_Ymd_HMS now)).

(** [TweetScheduler.add_to_queue]; the handler logs and re-raises. *)
Definition add_to_queue (tool_data : gmap string json) (tweet_content : string)
    (priority : Z) : M string :=
  try_except
    (let! now_id := utcnow in
     let tweet_id := make_tweet_id tool_data now_id in
     let! now_created := utcnow in
     let! scheduled_time := _calculate_next_slot in
     let queued_tweet :=
       {| id := tweet_id; tool_data := tool_data; tweet_content := tweet_content;
          created_at := now_created; scheduled_for := Some scheduled_time;
          priority := priority; attempts := 0; max_attempts := 3 |} in
     let! s := get_scheduler in
     run! put_scheduler (set_tweet_queue s (tweet_queue s ++ [queued_tweet])) in
     run! _sort_queue in
     run! _save_queue in
     run! add_queued_tweet queued_tweet in
     ret tweet_id)
    raise.

(** [TweetScheduler.should_post_tweet]. The test
    [time_since_last.total_seconds() > min_interval_hours * 3600] is made
    on microseconds. *)
Definition should_post_tweet : M bool :=
  try_except
    (let! s := get_scheduler in
     match tweet_queue s with
     | [] => ret false
     | next_tweet :: _ =>
         let! now := utcnow in
         if match scheduled_for next_tweet with
            | Some t => t <=? now
            | None => false
            end
         then ret true
         else
           let! last := get_last_tweet_time in
           match last with
           | Some last_tweet_time =>
               let time_since_last := now - last_tweet_time in
               if min_interval_hours s * 3600 * DT.US_PER_SECOND <? time_since_last
               then ret true
               else ret false
           | None => ret false
           end
     end)
    (ret false).

(** Truth value of what [twitter_client.post_tweet] returned: [None] and
    the empty dictionary are false. *)
Definition truthy (result : option (gmap string json)) : bool :=
  match result with
  | Some r => negb (bool_decide (r = ∅))
  | None => false
  end.

(** [TweetScheduler.post_next_tweet]; [result] is what
    [twitter_client.post_tweet] returns for the content of the head. *)
Definition post_next_tweet (result : option (gmap string json)) : M bool :=
  try_except
    (let! s := get_scheduler in
     match tweet_queue s with
     | [] => ret false
     | next_tweet :: rest =>
         if truthy result then
           run! put_scheduler (set_tweet_queue s rest) in
           run! _save_queue in
           run! mark_tweet_posted (id next_tweet)
                  (match result with Some r => r | None => ∅ end) in
           run! update_last_tweet_time in
           ret true
         else
           let failed := set_attempts next_tweet (attempts next_tweet + 1) in
           run! put_scheduler (set_tweet_queue s (failed :: rest)) in
           if max_attempts failed <=? attempts failed then
             run! put_scheduler (set_tweet_queue s rest) in
             run! mark_tweet_failed (id failed) in
             run! _save_queue in
             ret false
           else
             let! now := utcnow in
             let! later := lift (DT.add now (DT.hours 1)) in
             run! put_scheduler
                    (set_tweet_queue s (set_scheduled_for failed (Some later) :: rest)) in
             run! _sort_queue in
             run! _save_queue in
             ret false
     end)
    (ret false).

(** [TweetScheduler.clear_queue]; returns the number of removed tweets. *)
Definition clear_queue (keep_high_priority : bool) : M Z :=
  try_except
    (let! s := get_scheduler in
     let original_count := Z.of_nat (length (tweet_queue s)) in
     let kept :=
       if keep_high_priority
       then List.filter (fun t => 1 <? priority t) (tweet_queue s)
       else [] in
     run! put_scheduler (set_tweet_queue s kept) in
     run! _save_queue in
     ret (original_count - Z.of_nat (length kept)))
    (ret 0).

(** The loop of [reschedule_tweet]: the first tweet with this id gets the
    new time; [None] when no tweet has it. *)
Fixpoint reschedule_first (tweet_id : string) (new_time : datetime)
    (q : list QueuedTweet) : option (list QueuedTweet) :=
  match q with
  | [] => None
  | tweet :: q' =>
      if bool_decide (id tweet = tweet_id)
      then Some (set_scheduled_for tweet (Some new_time) :: q')
      else match reschedule_first tweet_id new_time q' with
           | Some q'' => Some (tweet :: q'')
           | None => None
           end
  end.

(** [TweetScheduler.reschedule_tweet] *)
Definition reschedule_tweet (tweet_id : string) (new_time : datetime) : M bool :=
  try_except
    (let! s := get_scheduler in
     match reschedule_first tweet_id new_time (tweet_queue s) with
     | Some q =>
         run! put_scheduler (set_tweet_queue s q) in
         run! _sort_queue in
         run! _save_queue in
         ret true
     | None => ret false
     end)
    (ret false).

(** [TweetScheduler.remove_tweet] *)
Definition remove_tweet (tweet_id : string) : M bool :=
  try_except
    (let! s := get_scheduler in
     let original_count := length (tweet_queue s) in
     let q := List.filter (fun t => negb (bool_decide (id t = tweet_id))) (tweet_queue s) in
     run! put_scheduler (set_tweet_queue s q) in
     if (length q <? original_count)%nat then
       run! _save_queue in
       ret true
     else ret false)
    (ret false).

(** The loop of [update_posting_schedule]: the tweets of [todo], in queue
    order, get a freshly calculated slot when they have one; [done] are the
    tweets already visited. *)
Fixpoint reschedule_all (done todo : list QueuedTweet) : M unit :=
  match todo with
  | [] => ret tt
  | tweet :: rest =>
      match scheduled_for tweet with
      | Some _ =>
          let! new_time := _calculate_next_slot in
          let moved := set_scheduled_for tweet (Some new_time) in
          let! s := get_scheduler in
          run! put_scheduler (set_tweet_queue s (done ++ moved :: rest)) in
          reschedule_all (done ++ [moved]) rest
      | None => reschedule_all (done ++ [tweet]) rest
      end
  end.

(** [TweetScheduler.update_posting_schedule] *)
Definition update_posting_schedule (new_tweets_per_day : Z) (new_optimal_hours : list Z)
    : M unit :=
  try_except
    (let! s := get_scheduler in
     let s1 := {| tweets_per_day := new_tweets_per_day;
                  optimal_hours := new_optimal_hours;
                  min_interval_hours := min_interval_hours s;
                  tweet_queue := tweet_queue s; queue_file := queue_file s |} in
     run! put_scheduler s1 in
     let! interval := lift (interval_for new_tweets_per_day) in
     let s2 := {| tweets_per_day := new_tweets_per_day;
                  optimal_hours := new_optimal_hours;
                  min_interval_hours := interval;
                  tweet_queue := tweet_queue s; queue_file := queue_file s |} in
     run! put_scheduler s2 in
     run! reschedule_all [] (tweet_queue s) in
     run! _sort_queue in
     _save_queue)
    (ret tt).

(** ** Runs of the bot *)

(** The mutators of the delivery queue. *)
Inductive queue_op : Type :=
  | Enqueue (tool_data : gmap string json) (tweet_content : string) (priority : Z)
  | PostNext (result : option (gmap string json))
  | Reschedule (tweet_id : string) (new_time : datetime)
  | Remove (tweet_id : string)
  | Clear (keep_high_priority : bool)
  | UpdateSchedule (tweets_per_day : Z) (optimal_hours : list Z).

(** The world after a computation, whatever its outcome. *)
Definition exec {A : Type} (m : M A) (w : world) : world := snd (m w).

Definition run_op (op : queue_op) (w : world) : world :=
  match op with
  | Enqueue tool_data tweet_content priority =>
      exec (add_to_queue tool_data tweet_content priority) w
  | PostNext result => exec (post_next_tweet result) w
  | Reschedule tweet_id new_time => exec (reschedule_tweet tweet_id new_time) w
  | Remove tweet_id => exec (remove_tweet tweet_id) w
  | Clear keep_high_priority => exec (clear_queue keep_high_priority) w
  | UpdateSchedule tweets_per_day optimal_hours =>
      exec (update_posting_schedule tweets_per_day optimal_hours) w
  end.

Definition run_ops (ops : list queue_op) (w : world) : world :=
  fold_left (fun w' op => run_op op w') ops w.

(** A restart of the process: a new [TweetScheduler] is built over the
    files left behind. *)
Definition restart (tweets_per_day : Z) (w : world) : option world :=
  match init_scheduler tweets_per_day (queue_file (scheduler w)) with
  | Some s => Some {| clock := clock w; ticks := ticks w;
                      database := database w; scheduler := s |}
  | None => None
  end.

(** The pending set as the store holds it: the rows of [queued_tweets]. *)
Definition stored_queue (d : Database) : list queued_row :=
  match d with
  | SQLite s => sql_queued_tweets s
  | JSONFallback j => json_queued_tweets j
  end.

(** ** Sample data *)

(** Day number of a civil date, and the datetime of a civil date and a
    time of day (used to write down concrete runs). *)
Definition days_of_civil (y m d : Z) : Z :=
  let y' := if m <=? 2 then y - 1 else y in
  let era := y' / 400 in
  let yoe := y' - era * 400 in
  let doy := (153 * (if 2 <? m then m - 3 else m + 9) + 2) / 5 + d - 1 in
  let doe := yoe * 365 + yoe / 4 - yoe / 100 + doy in
  era * 146097 + doe - 306.

Definition at_time (y m d hh mi ss : Z) : datetime :=
  DT.combine (days_of_civil y m d)
    (hh * DT.US_PER_HOUR + mi * DT.US_PER_MINUTE + ss * DT.US_PER_SECOND).

Definition empty_sqlite : sqlite_db :=
  {| sql_tools := []; sql_posted_tweets := []; sql_queued_tweets := [];
     sql_bot_state := ∅ |}.

Definition empty_json : json_files :=
  {| json_tools := []; json_posted_tweets := []; json_queued_tweets := [];
     json_bot_state := [] |}.

(** The scheduler as [main.py] builds it by default, with no queue file. *)
Definition default_scheduler : TweetScheduler :=
  {| tweets_per_day := 4; optimal_hours := [9; 13; 17; 21];
     min_interval_hours := 5; tweet_queue := []; queue_file := None |}.

(** A world whose clock stands still at [now]. *)
Definition world_at (now : datetime) (d : Database) (s : TweetScheduler) : world :=
  {| clock := fun _ => now; ticks := O; database := d; scheduler := s |}.

Definition kubectl : ToolRecord :=
  {| name := "kubectl"; url := "https://kubernetes.io/docs/reference/kubectl/";
     github_url := Some "https://github.com/kubernetes/kubectl";
     description := "Kubernetes command line tool"; category := "CLI";
     stars := 2500; added_date := at_time 2024 1 15 8 0 0;
     commit_sha := Some "3f2a9c1e" |}.

Definition kubectl_data : gmap string json :=
  <["name" := JStr "kubectl"]>
    (<["url" := JStr "https://kubernetes.io/docs/reference/kubectl/"]>
       (<["stars" := JInt 2500]> ∅)).

Definition posted_at_time (tweet_id : string) (t : datetime) : posted_row :=
  {| p_tweet_id := tweet_id; p_twitter_id := JStr "1746800000000000000";
     p_tool_name := JStr "Unknown"; p_content := JStr "New tool";
     p_posted_at := t; p_engagement_data := "{}" |}.

Definition sample_tweet (tweet_id : string) (prio : Z) (sched : option datetime)
    (created : datetime) (tries : Z) : QueuedTweet :=
  {| id := tweet_id; tool_data := kubectl_data; tweet_content := "New tool: kubectl";
     created_at := created; scheduled_for := sched; priority := prio;
     attempts := tries; max_attempts := 3 |}.

(** ** Views of the state and proof tactics *)

Ltac run_monad :=
  unfold try_except, bind, ret, raise, lift, exec,
    get_database, put_database, get_scheduler, put_scheduler, utcnow in *;
  cbn [fst snd clock ticks database scheduler] in *.

Ltac zbool :=
  repeat match goal with
    | H : (_ <=? _) = true |- _ => apply Z.leb_le in H
    | H : (_ <=? _) = false |- _ => apply Z.leb_gt in H
    | H : (_ <? _) = true |- _ => apply Z.ltb_lt in H
    | H : (_ <? _) = false |- _ => apply Z.ltb_ge in H
    | H : (_ =? _) = true |- _ => apply Z.eqb_eq in H
    | H : (_ =? _) = false |- _ => apply Z.eqb_neq in H
    end.

Ltac dt_unfold :=
  unfold DT.in_range, DT.date_in_range, DT.hours, DT.days, DT.combine,
    DT.datetime_max, DT.MAX_ORDINAL, DT.US_PER_DAY, DT.US_PER_HOUR,
    DT.US_PER_MINUTE, DT.US_PER_SECOND in *.

Ltac dt_lia := dt_unfold; lia.

Ltac dt_div_lia := dt_unfold; Z.to_euclidean_division_equations; lia.

(** The store answers [get_last_tweet_time] from its posted tweets alone. *)
Definition latest_posted_at (d : Database) : option datetime :=
  match d with
  | JSONFallback j => option_map p_posted_at (max_by p_posted_at (json_posted_tweets j))
  | SQLite s => option_map p_posted_at (max_by p_posted_at (sql_posted_tweets s))
  end.

(** The posted tweets as the store holds them. *)
Definition stored_posted (d : Database) : list posted_row :=
  match d with
  | SQLite s => sql_posted_tweets s
  | JSONFallback j => json_posted_tweets j
  end.

(** The read operations of [Database], and what they answer. *)
Inductive read_op : Type :=
  | ToolExists (nm u : string)
  | TotalToolsCount
  | QueuedTweetsCount
  | PostedTweetsCount
  | LastCheckTimestamp
  | LastTweetTime
  | RecentTweetTimes (days : Z)
  | PostedTweetsSince (cutoff_date : datetime)
  | HealthCheck
  | Statistics.

Inductive answer : Type :=
  | ABool (b : bool)
  | ACount (n : Z)
  | ATime (t : option datetime)
  | ATimes (l : list datetime)
  | ARows (l : list posted_row)
  | AStats (s : option statistics).

Definition read (op : read_op) : M answer :=
  match op with
  | ToolExists nm u => let! b := tool_exists nm u in ret (ABool b)
  | TotalToolsCount => let! n := get_total_tools_count in ret (ACount n)
  | QueuedTweetsCount => let! n := get_queued_tweets_count in ret (ACount n)
  | PostedTweetsCount => let! n := get_posted_tweets_count in ret (ACount n)
  | LastCheckTimestamp => let! t := get_last_check_timestamp in ret (ATime t)
  | LastTweetTime => let! t := get_last_tweet_time in ret (ATime t)
  | RecentTweetTimes days => let! l := get_recent_tweet_times days in ret (ATimes l)
  | PostedTweetsSince cutoff_date =>
      let! l := get_posted_tweets_since cutoff_date in ret (ARows l)
  | HealthCheck => let! b := health_check in ret (ABool b)
  | Statistics => let! s := get_statistics in ret (AStats s)
  end.

(** The same world over another store. *)
Definition with_database (w : world) (d : Database) : world :=
  {| clock := clock w; ticks := ticks w; database := d; scheduler := scheduler w |}.

(** The store after [update_last_tweet_time]: only [bot_state] differs, and
    only under the key ['last_tweet_time']. *)
Definition same_but_last_tweet_time (d d' : Database) : Prop :=
  match d, d' with
  | SQLite s, SQLite s' =>
      sql_tools s' = sql_tools s /\ sql_posted_tweets s' = sql_posted_tweets s /\
      sql_queued_tweets s' = sql_queued_tweets s /\
      forall key, key <> "last_tweet_time" -> sql_bot_state s' !! key = sql_bot_state s !! key
  | JSONFallback j, JSONFallback j' =>
      json_tools j' = json_tools j /\ json_posted_tweets j' = json_posted_tweets j /\
      json_queued_tweets j' = json_queued_tweets j /\
      forall key, key <> "last_tweet_time" ->
        json_state_find key (json_bot_state j') = json_state_find key (json_bot_state j)
  | _, _ => False
  end.

(** The tracked tools as the store holds them, and how many of them carry
    the pair [(nm, u)]. *)
Definition stored_tools (d : Database) : list tool_row :=
  match d with
  | SQLite s => sql_tools s
  | JSONFallback j => json_tools j
  end.

Definition tracked (nm u : string) (d : Database) : nat :=
  length (List.filter (tool_matches nm u) (stored_tools d)).

(** A world whose clock advances by one millisecond per reading. *)
Definition world_from (start : datetime) (d : Database) (s : TweetScheduler) : world :=
  {| clock := fun n => start + Z.of_nat n * 1000; ticks := O;
     database := d; scheduler := s |}.

Definition valid_hour (h : Z) : Prop := 0 <= h <= 23.

(** The preferred hour [h] of day [d] is not after [now]. *)
Definition passed (d : Z) (now : datetime) (h : Z) : Prop :=
  DT.combine d (DT.hours h) <= now.

(** The scheduler for one tweet per day ([TWEETS_PER_DAY=1]). *)
Definition once_a_day_scheduler : TweetScheduler :=
  {| tweets_per_day := 1; optimal_hours := [9; 13; 17; 21];
     min_interval_hours := 23; tweet_queue := []; queue_file := None |}.

(** The fallback storage with posted tweets only. *)
Definition json_with_posted (l : list posted_row) : json_files :=
  {| json_tools := []; json_posted_tweets := l; json_queued_tweets := [];
     json_bot_state := [] |}.

(** The order of the queue: higher priority first, then the earlier
    scheduled time, a tweet with no [scheduled_for] counting as scheduled at
    [datetime.max] (the last instant there is), then the earlier creation
    time. *)
Definition slot_time (t : QueuedTweet) : datetime :=
  match scheduled_for t with
  | Some s => s
  | None => DT.datetime_max
  end.

Definition queue_le (a b : QueuedTweet) : Prop :=
  priority b < priority a \/
  (priority a = priority b /\
   (slot_time a < slot_time b \/
    (slot_time a = slot_time b /\ created_at a <= created_at b))).

(** Every reading of the clock leaves room for the two hours of the
    fallback slot. *)
Definition clock_sane (c : nat -> datetime) : Prop :=
  forall n, 0 <= c n /\ c n + DT.hours 2 <= DT.datetime_max.

(** The queue file holds the in-memory queue. *)
Definition saved (s : TweetScheduler) : Prop :=
  queue_file s = Some (map to_dict (tweet_queue s)).

(** Loading the queue file gives the in-memory queue. *)
Definition in_sync (s : TweetScheduler) : Prop :=
  _load_queue (queue_file s) = tweet_queue s.

(** What a mutator may do to queue and file: leave both; leave a sorted
    queue, saved; or take tweets out of the queue and save it. *)
Inductive queue_step (s s' : TweetScheduler) : Prop :=
  | step_kept :
      tweet_queue s' = tweet_queue s -> queue_file s' = queue_file s ->
      queue_step s s'
  | step_sorted :
      StronglySorted queue_le (tweet_queue s') -> saved s' -> queue_step s s'
  | step_filtered (f : QueuedTweet -> bool) :
      tweet_queue s' = List.filter f (tweet_queue s) -> saved s' ->
      queue_step s s'
  | step_popped :
      tweet_queue s' = tl (tweet_queue s) -> saved s' -> queue_step s s'.

(** A computation keeps the relation [P] between the worlds before and
    after it, whatever its outcome. *)
Definition preserves (P : world -> world -> Prop) {A : Type} (m : M A) : Prop :=
  forall w, P w (snd (m w)).

(** Same scheduler and clock: what the store's operations leave alone. *)
Definition same_scheduler (w w' : world) : Prop :=
  scheduler w' = scheduler w /\ clock w' = clock w.

Definition same_clock (w w' : world) : Prop := clock w' = clock w.

Definition helm_data : gmap string json :=
  <["name" := JStr "helm"]> (<["stars" := JInt 26000]> ∅).

Definition k9s_data : gmap string json :=
  <["name" := JStr "k9s"]> (<["stars" := JInt 24000]> ∅).

(** A scheduler whose queue holds [q], saved in the queue file. *)
Definition scheduler_with_queue (q : list QueuedTweet) : TweetScheduler :=
  {| tweets_per_day := 4; optimal_hours := [9; 13; 17; 21];
     min_interval_hours := 5; tweet_queue := q;
     queue_file := Some (map to_dict q) |}.

(** A run of the queue: three tools are queued with priorities 1, 3, 1,
    the first is rescheduled and the third removed. *)
Definition sample_run : list queue_op :=
  [Enqueue kubectl_data "New tool: kubectl" 1;
   Enqueue helm_data "New tool: helm" 3;
   Enqueue k9s_data "New tool: k9s" 1;
   Reschedule "kubectl_20240115_080000" (at_time 2024 1 20 9 0 0);
   Remove "k9s_20240115_080000"].

Definition morning : datetime := at_time 2024 1 15 8 0 0.

Definition morning_world : world :=
  world_at morning (SQLite empty_sqlite) default_scheduler.

(** ** Further operations of the bot *)

(** [Database.cleanup_old_data]; returns the number of posted tweets it
    deleted. *)
Definition cleanup_old_data (days : Z) : M Z :=
  try_except
    (let! now := utcnow in
     let! cutoff := lift (DT.add now (- DT.days days)) in
     let! d := get_database in
     match d with
     | JSONFallback j =>
         let original_count := Z.of_nat (length (json_posted_tweets j)) in
         let posted_tweets :=
           List.filter (fun t => cutoff <=? p_posted_at t) (json_posted_tweets j) in
         let cleaned_count := original_count - Z.of_nat (length posted_tweets) in
         run! put_database (JSONFallback (json_set_posted_tweets j posted_tweets)) in
         ret cleaned_count
     | SQLite s =>
         (* DELETE FROM posted_tweets WHERE posted_at < ?; rowcount *)
         let deleted := List.filter (fun t => p_posted_at t <? cutoff) (sql_posted_tweets s) in
         run! put_database
                (SQLite (sql_set_posted_tweets s
                           (List.filter (fun t => negb (p_posted_at t <? cutoff))
                              (sql_posted_tweets s)))) in
         ret (Z.of_nat (length deleted))
     end)
    (ret 0).

(** Python's [min(l, key=...)]: the first item whose key is minimal. *)
Fixpoint min_by {A : Type} (key : A -> Z) (l : list A) : option A :=
  match l with
  | [] => None
  | x :: l' =>
      match min_by key l' with
      | Some y => if key y <? key x then Some y else Some x
      | None => Some x
      end
  end.

(** The dictionary returned by [TweetScheduler.get_queue_status]. *)
Record queue_status : Type := {
  total_queued : Z;
  ready_to_post : Z;
  next_tweet_time : option datetime;
  tweets_today : Z;
  tweets_this_week : Z;
  daily_limit : Z;
  status_min_interval_hours : Z
}.

(** [t.scheduled_for and t.scheduled_for <= now] *)
Definition is_ready (now : datetime) (t : QueuedTweet) : bool :=
  match scheduled_for t with
  | Some s => s <=? now
  | None => false
  end.

(** [TweetScheduler.get_queue_status]; [None] is the empty dictionary of
    the handler. *)
Definition get_queue_status : M (option queue_status) :=
  try_except
    (let! now := utcnow in
     let! s := get_scheduler in
     let next_tweet_time :=
       match min_by slot_time (tweet_queue s) with
       | Some next_tweet => scheduled_for next_tweet
       | None => None
       end in
     let! recent_tweets := get_recent_tweet_times 7 in
     let today_tweets := List.filter (fun t => DT.date t =? DT.date now) recent_tweets in
     ret (Some {| total_queued := Z.of_nat (length (tweet_queue s));
                  ready_to_post :=
                    Z.of_nat (length (List.filter (is_ready now) (tweet_queue s)));
                  next_tweet_time := next_tweet_time;
                  tweets_today := Z.of_nat (length today_tweets);
                  tweets_this_week := Z.of_nat (length recent_tweets);
                  daily_limit := tweets_per_day s;
                  status_min_interval_hours := min_interval_hours s |}))
    (ret None).

(** [KubetoolsTwitterBot.process_tweet_queue] ([src/main.py]); [result] is
    what [twitter_client.post_tweet] returns if the head is posted. *)
Definition process_tweet_queue (result : option (gmap string json)) : M unit :=
  try_except
    (let! due := should_post_tweet in
     if due then
       let! tweet_posted := post_next_tweet result in
       ret tt
     else ret tt)
    (ret tt).

(** ** The repository monitor ([src/kubetools_monitor.py]) *)

(** The dictionary built by [KubetoolsMonitor._tool_to_dict]. *)
Record tool_dict : Type := {
  d_name : string;
  d_description : string;
  d_url : string;
  d_github_url : option string;
  d_stars : Z;
  d_category : string;
  d_added_date : datetime;
  d_commit_sha : option string
}.

(** [KubetoolsMonitor._tool_to_dict] *)
Definition _tool_to_dict (tool : ToolRecord) : tool_dict :=
  {| d_name := name tool; d_description := description tool; d_url := url tool;
     d_github_url := github_url tool; d_stars := stars tool;
     d_category := category tool; d_added_date := added_date tool;
     d_commit_sha := commit_sha tool |}.

(** [KubetoolsMonitor._get_recent_commits]. [github since] stands for what
    GitHub lists since [since]: for each commit, in order, the tools that
    [_extract_tools_from_commit] finds in it (none at all when the API
    fails). *)
Definition _get_recent_commits (github : datetime -> list (list ToolRecord))
    (since : option datetime) : M (list (list ToolRecord)) :=
  let! since' :=
    match since with
    | Some t => ret t
    | None => let! now := utcnow in lift (DT.add now (- DT.days 7))
    end in
  ret (github since').

(** The inner loop of [check_for_new_tools], over the tools of a commit. *)
Fixpoint scan_tools (tools : list ToolRecord) (new_tools : list tool_dict)
    : M (list tool_dict) :=
  match tools with
  | [] => ret new_tools
  | tool :: rest =>
      let! known := tool_exists (name tool) (url tool) in
      if known then scan_tools rest new_tools
      else
        let new_tools' := new_tools ++ [_tool_to_dict tool] in
        run! add_tool tool in
        scan_tools rest new_tools'
  end.

(** The outer loop of [check_for_new_tools], over the commits. *)
Fixpoint scan_commits (commits : list (list ToolRecord)) (new_tools : list tool_dict)
    : M (list tool_dict) :=
  match commits with
  | [] => ret new_tools
  | tools_in_commit :: rest =>
      let! new_tools' := scan_tools tools_in_commit new_tools in
      scan_commits rest new_tools'
  end.

(** [KubetoolsMonitor.check_for_new_tools] *)
Definition check_for_new_tools (github : datetime -> list (list ToolRecord))
    : M (list tool_dict) :=
  try_except
    (let! last_check := get_last_check_timestamp in
     let! commits := _get_recent_commits github last_check in
     let! new_tools := scan_commits commits [] in
     run! update_last_check_timestamp in
     ret new_tools)
    (ret []).

(** The pair [(name, url)] that identifies a tool. *)
Definition tool_pair (tool : ToolRecord) : string * string := (name tool, url tool).

Definition row_pair (r : tool_row) : string * string := (t_name r, t_url r).

(** The tools of [tools], in order, whose pair is not known when their
    turn comes: a pair is known when it is in [known] or carried by an
    earlier tool of the list that the store accepted ([storable]). *)
Fixpoint new_among (storable : ToolRecord -> bool) (known : list (string * string))
    (tools : list ToolRecord) : list ToolRecord :=
  match tools with
  | [] => []
  | tool :: rest =>
      if bool_decide (tool_pair tool ∈ known) then new_among storable known rest
      else tool :: new_among storable
                     (if storable tool then tool_pair tool :: known else known) rest
  end.

(** ** Tweet texts ([src/tweet_generator.py])

    A Python [str] is the list of its code points. *)
Definition text : Type := list N.

Definition newline : N := 10%N.

(** ["..."] *)
Definition ellipsis : text := [46; 46; 46]%N.

(** [s.split(sep)] for a separator of one character. *)
Fixpoint split_on (sep : N) (s : text) : list text :=
  match s with
  | [] => [[]]
  | c :: s' =>
      if (c =? sep)%N then [] :: split_on sep s'
      else match split_on sep s' with
           | line :: lines => (c :: line) :: lines
           | [] => [[c]]
           end
  end.

(** [sep.join(lines)] *)
Fixpoint join_with (sep : N) (lines : list text) : text :=
  match lines with
  | [] => []
  | line :: rest =>
      match rest with
      | [] => line
      | _ :: _ => line ++ sep :: join_with sep rest
      end
  end.

(** [s[:stop]]; a negative [stop] counts from the end. *)
Definition slice_to (s : text) (stop : Z) : text :=
  if 0 <=? stop then firstn (Z.to_nat stop) s
  else firstn (Z.to_nat (Z.of_nat (length s) + stop)) s.

(** [sum(len(line) for i, line in enumerate(lines) if i != 2)], counting
    from index [i]. *)
Fixpoint other_lines_length (i : nat) (lines : list text) : Z :=
  match lines with
  | [] => 0
  | line :: rest =>
      (if Nat.eqb i 2 then 0 else Z.of_nat (length line))
      + other_lines_length (S i) rest
  end.

(** [TweetGenerator._ensure_tweet_length] *)
Definition _ensure_tweet_length (tweet : text) (max_length : Z) : text :=
  if Z.of_nat (length tweet) <=? max_length then tweet
  else
    let lines := split_on newline tweet in
    let fallback := slice_to tweet (max_length - 3) ++ ellipsis in
    match lines !! 2%nat with
    | Some description_line =>
        let other_lines_length := other_lines_length 0 lines in
        let newlines_count := Z.of_nat (length lines) - 1 in
        let available_space := max_length - other_lines_length - newlines_count in
        if 20 <? available_space then
          let trimmed_desc := slice_to description_line (available_space - 3) ++ ellipsis in
          join_with newline (<[2%nat := trimmed_desc]> lines)
        else fallback
    | None => fallback
    end.

(** What the monitor leaves alone: everything but the tracked tools, the
    last check time and the number of clock readings. *)
Definition same_but_tools (w w' : world) : Prop :=
  scheduler w' = scheduler w /\ clock w' = clock w /\ (ticks w <= ticks w')%nat /\
  use_json_fallback (database w') = use_json_fallback (database w) /\
  stored_posted (database w') = stored_posted (database w) /\
  stored_queue (database w') = stored_queue (database w).

(** The number of characters of the lines together. *)
Definition lines_length (lines : list text) : Z :=
  fold_right (fun line n => Z.of_nat (length line) + n) 0 lines.

(** When SQLite refuses the INSERT of [mark_tweet_posted]: a value of
    Twitter's answer that cannot be bound, a [tweet_id] already posted, or
    no text. *)
Definition sqlite_refuses_post (s : sqlite_db) (tweet_id : string)
    (r : gmap string json) : bool :=
  negb (sqlite_binds (dict_get r "id" JNull)
        && sqlite_binds (dict_get r "tool_name" (JStr "Unknown"))
        && sqlite_binds (dict_get r "text" (JStr "")))
  || existsb (fun row => bool_decide (p_tweet_id row = tweet_id)) (sql_posted_tweets s)
  || bool_decide (dict_get r "text" (JStr "") = JNull).

(** ** Properties *)

Example strftime_sample :
  DT.strftime_Ymd_HMS (at_time 2024 1 15 9 30 0) = "20240115_093000".
Proof. reflexivity. Qed.

Example strftime_last_instant :
  DT.strftime_Ymd_HMS DT.datetime_max = "99991231_235959".
Proof. reflexivity. Qed.

Example at_time_sample : at_time 2024 1 15 9 30 0 = 63840907800000000.
Proof. reflexivity. Qed.

Example default_scheduler_is_init : init_scheduler 4 None = Some default_scheduler.
Proof. reflexivity. Qed.

(** The scenarios of the slot computation: no history at 08:00; one send at
    09:05, asked at 09:10; four sends today, asked at 15:00. *)
Example slot_scenario_morning :
  next_slot default_scheduler (at_time 2024 1 15 8 0 0) []
  = Some (at_time 2024 1 15 9 0 0).
Proof. reflexivity. Qed.

Example slot_scenario_spacing :
  next_slot default_scheduler (at_time 2024 1 15 9 10 0) [at_time 2024 1 15 9 5 0]
  = Some (at_time 2024 1 15 14 5 0).
Proof. reflexivity. Qed.

Example slot_scenario_quota :
  next_slot default_scheduler (at_time 2024 1 15 15 0 0)
    [at_time 2024 1 15 9 0 0; at_time 2024 1 15 10 0 0;
     at_time 2024 1 15 11 0 0; at_time 2024 1 15 12 0 0]
  = Some (at_time 2024 1 16 9 0 0).
Proof. reflexivity. Qed.

(** *** Running the monad *)

Lemma get_last_tweet_time_run (w : world) :
  get_last_tweet_time w = (Ok (latest_posted_at (database w)), w).
Proof.
  unfold get_last_tweet_time, latest_posted_at. run_monad.
  destruct (database w) as [s | j].
  - destruct (max_by p_posted_at (sql_posted_tweets s)); reflexivity.
  - destruct (max_by p_posted_at (json_posted_tweets j)); reflexivity.
Qed.

(** C9: [post_next_tweet] on an empty queue returns [False] and leaves the
    whole world as it was: the in-memory queue, the queue file, the store
    (posted history, queued rows, the last-tweet scalar) and the clock. *)
Theorem post_next_tweet_empty_queue (result : option (gmap string json)) (w : world) :
  tweet_queue (scheduler w) = [] ->
  post_next_tweet result w = (Ok false, w).
Proof.
  intros Hempty. unfold post_next_tweet. run_monad. rewrite Hempty. reflexivity.
Qed.

Lemma post_next_tweet_empty_queue_witness :
  post_next_tweet None
    (world_at (at_time 2024 1 15 9 30 0) (SQLite empty_sqlite) default_scheduler)
  = (Ok false,
     world_at (at_time 2024 1 15 9 30 0) (SQLite empty_sqlite) default_scheduler).
Proof. apply post_next_tweet_empty_queue. reflexivity. Defined.

(** The answer of [should_post_tweet], with the time of the last tweet as
    [latest_posted_at] finds it in the store. *)
Lemma should_post_tweet_answer (w : world) :
  let now := clock w (ticks w) in
  exists b : bool,
    fst (should_post_tweet w) = Ok b /\
    (tweet_queue (scheduler w) = [] -> b = false) /\
    (b = true <->
     exists next_tweet rest,
       tweet_queue (scheduler w) = next_tweet :: rest /\
       ((exists t, scheduled_for next_tweet = Some t /\ t <= now) \/
        (exists last_tweet_time,
           latest_posted_at (database w) = Some last_tweet_time /\
           min_interval_hours (scheduler w) * 3600 * 1000000
           < now - last_tweet_time))).
Proof.
  intros now. unfold should_post_tweet. run_monad.
  destruct (tweet_queue (scheduler w)) as [| next_tweet rest] eqn:Hq.
  { exists false. cbn. split; [reflexivity |]. split; [reflexivity |].
    split; [discriminate |]. intros (n & r & Hnil & _). discriminate. }
  fold now.
  assert (Hyes : forall P : Prop, P -> (true = true <-> P)) by (intros; tauto).
  assert (Hno : forall P : Prop, (P -> False) -> (false = true <-> P))
    by (intros P HP; split; [discriminate | intros H; destruct (HP H)]).
  destruct (scheduled_for next_tweet) as [t |] eqn:Hs;
    [destruct (t <=? now) eqn:Hdue |];
    cbv beta iota; rewrite ?get_last_tweet_time_run; cbv beta iota;
    cbn [database];
    (destruct (latest_posted_at (database w)) as [last |] eqn:Hlast;
     [destruct (min_interval_hours (scheduler w) * 3600 * DT.US_PER_SECOND
                <? now - last) eqn:Hgap |]);
    cbv beta iota; cbn [fst];
    (eexists; split; [reflexivity |]; split; [discriminate || reflexivity |]);
    zbool;
    first
      [ apply Hyes; exists next_tweet, rest; split; [reflexivity |];
        first [ left; exists t; split; [exact Hs | dt_lia]
              | right; exists last; split; [reflexivity | dt_lia] ]
      | apply Hno;
        intros (n & r & Heq & [(t' & Ht' & Hle) | (l' & Hl' & Hlt)]);
        [ injection Heq as <- <-; rewrite Hs in Ht';
          first [ discriminate | injection Ht' as <-; dt_lia ]
        | first [ discriminate | injection Hl' as <-; dt_lia ] ] ].
Qed.

Lemma max_by_None {A : Type} (key : A -> Z) (l : list A) :
  max_by key l = None -> l = [].
Proof.
  destruct l as [| x l']; [reflexivity |]. cbn.
  destruct (max_by key l') as [y |]; [destruct (key x <? key y) |]; discriminate.
Qed.

Lemma max_by_Some {A : Type} (key : A -> Z) (l : list A) (m : A) :
  max_by key l = Some m ->
  In m l /\ forall x, In x l -> key x <= key m.
Proof.
  revert m. induction l as [| x l' IH]; intros m Hm; [discriminate |].
  cbn in Hm. destruct (max_by key l') as [y |] eqn:Hy.
  - destruct (IH y eq_refl) as [Hin Hle].
    destruct (key x <? key y) eqn:Hlt; injection Hm as <-; zbool.
    + split; [right; exact Hin |]. intros z [<- | Hz]; [lia | auto].
    + split; [left; reflexivity |].
      intros z [<- | Hz]; [lia |]. specialize (Hle z Hz). lia.
  - injection Hm as <-. apply max_by_None in Hy. subst l'.
    split; [left; reflexivity |]. intros z [<- | []]. lia.
Qed.

Lemma json_state_find_update (key other : string) (value now : datetime)
    (l l' : list state_item) :
  other <> key ->
  json_state_update key value now l = Some l' ->
  json_state_find other l' = json_state_find other l.
Proof.
  intros Hne. revert l'. induction l as [| item l0 IH]; intros l' H; [discriminate |].
  cbn in H. destruct (bool_decide (s_key item = key)) eqn:Hk.
  - injection H as <-. cbn. apply bool_decide_eq_true in Hk.
    rewrite !bool_decide_eq_false_2 by congruence. reflexivity.
  - destruct (json_state_update key value now l0) as [l1 |]; [| discriminate].
    injection H as <-. cbn. rewrite (IH l1 eq_refl). reflexivity.
Qed.

Lemma json_state_find_app (other : string) (item : state_item) (l : list state_item) :
  other <> s_key item ->
  json_state_find other (l ++ [item]) = json_state_find other l.
Proof.
  intros Hne. induction l as [| x l IH]; cbn.
  - rewrite bool_decide_eq_false_2 by congruence. reflexivity.
  - rewrite IH. reflexivity.
Qed.

Lemma update_last_tweet_time_store (w : world) :
  same_but_last_tweet_time (database w) (database (exec update_last_tweet_time w)).
Proof.
  unfold update_last_tweet_time, _set_state_value. run_monad.
  destruct (database w) as [s | j]; cbn.
  - repeat split. intros key Hne. rewrite lookup_insert_ne by congruence. reflexivity.
  - repeat split. intros key Hne.
    destruct (json_state_update "last_tweet_time" _ _ (json_bot_state j)) as [l |] eqn:Hu.
    + eapply json_state_find_update; eauto.
    + apply json_state_find_app. cbn. exact Hne.
Qed.

Lemma read_same_but_last_tweet_time (op : read_op) (w : world) (d d' : Database) :
  same_but_last_tweet_time d d' ->
  fst (read op (with_database w d')) = fst (read op (with_database w d)).
Proof.
  intros Hsame.
  destruct d as [s | j], d' as [s' | j']; cbn in Hsame; try contradiction;
    destruct Hsame as (Ht & Hp & Hq & Hs);
    destruct op; unfold read, tool_exists, get_total_tools_count,
      get_queued_tweets_count, get_posted_tweets_count, get_last_check_timestamp,
      get_last_tweet_time, get_recent_tweet_times, get_posted_tweets_since,
      health_check, get_statistics, get_total_tools_count, get_queued_tweets_count,
      get_posted_tweets_count, get_last_check_timestamp, get_last_tweet_time,
      _get_state_value, with_database;
    run_monad; rewrite ?Ht, ?Hp, ?Hq, ?(Hs "last_check_timestamp") by discriminate;
    try reflexivity;
    repeat (match goal with
            | |- context [max_by ?k ?l] => destruct (max_by k l)
            | |- context [DT.add ?a ?b] => destruct (DT.add a b)
            end;
            run_monad; rewrite ?Ht, ?Hp, ?Hq);
    reflexivity.
Qed.

Lemma latest_posted_at_same (d d' : Database) :
  same_but_last_tweet_time d d' -> latest_posted_at d' = latest_posted_at d.
Proof.
  destruct d as [s | j], d' as [s' | j']; cbn; try contradiction;
    intros (_ & -> & _); reflexivity.
Qed.

Lemma should_post_tweet_same (w : world) (d d' : Database) :
  latest_posted_at d' = latest_posted_at d ->
  fst (should_post_tweet (with_database w d'))
  = fst (should_post_tweet (with_database w d)).
Proof.
  intros Hsame. unfold should_post_tweet, with_database. run_monad.
  destruct (tweet_queue (scheduler w)) as [| next_tweet rest]; [reflexivity |].
  run_monad.
  destruct (match scheduled_for next_tweet with
            | Some t => t <=? clock w (ticks w)
            | None => false
            end); [reflexivity |].
  rewrite !get_last_tweet_time_run. cbn [database]. rewrite Hsame.
  destruct (latest_posted_at d) as [last |]; [| reflexivity].
  destruct (_ <? _); reflexivity.
Qed.

(** C10: [get_last_tweet_time] answers the greatest [posted_at] of the
    posted tweets of the store ([None] when there are none) and does not
    depend on [bot_state]; after [update_last_tweet_time] every read
    operation of the store, and [should_post_tweet], answers as before. *)
Theorem last_tweet_time_scalar_unread (w : world) :
  match fst (get_last_tweet_time w) with
  | Ok (Some latest) =>
      (exists r, In r (stored_posted (database w)) /\ p_posted_at r = latest) /\
      (forall r, In r (stored_posted (database w)) -> p_posted_at r <= latest)
  | Ok None => stored_posted (database w) = []
  | Raised => False
  end /\
  (forall (s : sqlite_db) (m : gmap string (datetime * datetime)),
     fst (get_last_tweet_time (with_database w (SQLite (sql_set_bot_state s m))))
     = fst (get_last_tweet_time (with_database w (SQLite s)))) /\
  (forall (j : json_files) (l : list state_item),
     fst (get_last_tweet_time (with_database w (JSONFallback (json_set_bot_state j l))))
     = fst (get_last_tweet_time (with_database w (JSONFallback j)))) /\
  (forall (op : read_op) (v : world),
     fst (read op (with_database v (database (exec update_last_tweet_time w))))
     = fst (read op (with_database v (database w)))) /\
  (forall v : world,
     fst (should_post_tweet (with_database v (database (exec update_last_tweet_time w))))
     = fst (should_post_tweet (with_database v (database w)))).
Proof.
  split; [| split; [| split; [| split]]].
  - rewrite get_last_tweet_time_run. cbn [fst].
    unfold latest_posted_at, stored_posted.
    destruct (database w) as [s | j].
    + destruct (max_by p_posted_at (sql_posted_tweets s)) as [r |] eqn:Hmax; cbn.
      * destruct (max_by_Some _ _ _ Hmax) as [Hin Hle]. eauto.
      * eapply max_by_None; eauto.
    + destruct (max_by p_posted_at (json_posted_tweets j)) as [r |] eqn:Hmax; cbn.
      * destruct (max_by_Some _ _ _ Hmax) as [Hin Hle]. eauto.
      * eapply max_by_None; eauto.
  - intros s m. rewrite !get_last_tweet_time_run. reflexivity.
  - intros j l. rewrite !get_last_tweet_time_run. reflexivity.
  - intros op v. apply read_same_but_last_tweet_time, update_last_tweet_time_store.
  - intros v. apply should_post_tweet_same, latest_posted_at_same,
      update_last_tweet_time_store.
Qed.

Lemma filter_app_length {A : Type} (f : A -> bool) (l l' : list A) :
  length (List.filter f (l ++ l')) = (length (List.filter f l) + length (List.filter f l'))%nat.
Proof. rewrite List.filter_app, length_app. reflexivity. Qed.

Lemma tool_matches_row (tool : ToolRecord) (first_seen : datetime) :
  tool_matches (name tool) (url tool) (row_of_tool tool first_seen) = true.
Proof.
  unfold tool_matches, row_of_tool. cbn.
  rewrite !bool_decide_eq_true_2 by reflexivity. reflexivity.
Qed.

Lemma existsb_filter_length {A : Type} (f : A -> bool) (l : list A) :
  existsb f l = false -> length (List.filter f l) = O.
Proof.
  induction l as [| x l IH]; cbn; [reflexivity |].
  destruct (f x); cbn; [discriminate | exact IH].
Qed.

Lemma filter_length_existsb {A : Type} (f : A -> bool) (l : list A) :
  existsb f l = true -> (0 < length (List.filter f l))%nat.
Proof.
  induction l as [| x l IH]; cbn; [discriminate |].
  destruct (f x); cbn; [lia | exact IH].
Qed.

(** [add_tool] on the SQLite storage, for a tool whose [stars] fit an
    INTEGER: INSERT OR IGNORE keeps one row per pair, and a second insert
    changes nothing in the store. *)
Lemma add_tool_sqlite_idempotent (w : world) (s : sqlite_db) (tool : ToolRecord) :
  database w = SQLite s ->
  in_int64 (stars tool) = true ->
  (tracked (name tool) (url tool) (database w) <= 1)%nat ->
  let w1 := exec (add_tool tool) w in
  let w2 := exec (add_tool tool) w1 in
  tracked (name tool) (url tool) (database w1) = 1%nat /\
  database w2 = database w1.
Proof.
  intros Hdb Hstars Hone w1 w2. subst w1 w2. unfold tracked in *.
  unfold add_tool. run_monad. rewrite Hdb in *. run_monad. rewrite Hstars.
  cbn [stored_tools] in *.
  destruct (existsb (tool_matches (name tool) (url tool)) (sql_tools s)) eqn:Hex.
  - run_monad. rewrite Hex. run_monad. split; [| reflexivity].
    apply filter_length_existsb in Hex. cbn [stored_tools]. lia.
  - run_monad. cbn [sql_set_tools sql_tools].
    rewrite existsb_app. cbn [existsb]. rewrite tool_matches_row, orb_true_r.
    run_monad. split; [| reflexivity]. cbn [stored_tools sql_set_tools sql_tools].
    rewrite filter_app_length. cbn [List.filter]. rewrite tool_matches_row.
    apply existsb_filter_length in Hex. cbn. lia.
Qed.

(** C1: two calls of [add_tool] with the same tool. On the JSON fallback
    storage each call appends a record, so the pair is tracked twice more
    than before (twice on a fresh store); on the SQLite storage the pair is
    tracked once and the second call is a no-op (a tool whose [stars] do
    not fit an INTEGER is refused by both calls and not tracked at all). *)
Theorem add_tool_twice (c : nat -> datetime) (n : nat) (sch : TweetScheduler)
    (tool : ToolRecord) :
  (forall j : json_files,
     let w := {| clock := c; ticks := n; database := JSONFallback j; scheduler := sch |} in
     let w2 := exec (add_tool tool) (exec (add_tool tool) w) in
     tracked (name tool) (url tool) (database w2)
     = (tracked (name tool) (url tool) (database w) + 2)%nat) /\
  tracked (name tool) (url tool)
    (database (exec (add_tool tool) (exec (add_tool tool)
       {| clock := c; ticks := n; database := JSONFallback empty_json; scheduler := sch |})))
  = 2%nat /\
  tracked (name tool) (url tool)
    (database (exec (add_tool tool) (exec (add_tool tool)
       {| clock := c; ticks := n; database := SQLite empty_sqlite; scheduler := sch |})))
  = (if in_int64 (stars tool) then 1 else 0)%nat.
Proof.
  split; [| split].
  - intros j w w2. subst w w2. unfold tracked, add_tool. run_monad.
    cbn [stored_tools json_set_tools json_tools].
    rewrite !filter_app_length. cbn [List.filter]. rewrite !tool_matches_row.
    cbn. lia.
  - unfold tracked, add_tool. run_monad.
    cbn [stored_tools json_set_tools json_tools empty_json app List.filter].
    rewrite !tool_matches_row. reflexivity.
  - unfold tracked, add_tool. run_monad.
    destruct (in_int64 (stars tool)); run_monad; [| reflexivity].
    cbn [stored_tools sql_set_tools sql_tools empty_sqlite app List.filter existsb].
    rewrite !tool_matches_row. cbn [orb]. run_monad.
    cbn [stored_tools sql_set_tools sql_tools empty_sqlite app List.filter existsb].
    rewrite !tool_matches_row. reflexivity.
Qed.

(** The id has the resolution of a second: clock readings within the same
    second give the same id for the same tool name. *)
Lemma same_second_fields (t1 t2 : datetime) :
  t1 / DT.US_PER_SECOND = t2 / DT.US_PER_SECOND ->
  DT.date t1 = DT.date t2 /\
  (t1 mod DT.US_PER_DAY) / DT.US_PER_HOUR = (t2 mod DT.US_PER_DAY) / DT.US_PER_HOUR /\
  ((t1 mod DT.US_PER_DAY) mod DT.US_PER_HOUR) / DT.US_PER_MINUTE
  = ((t2 mod DT.US_PER_DAY) mod DT.US_PER_HOUR) / DT.US_PER_MINUTE /\
  ((t1 mod DT.US_PER_DAY) mod DT.US_PER_MINUTE) / DT.US_PER_SECOND
  = ((t2 mod DT.US_PER_DAY) mod DT.US_PER_MINUTE) / DT.US_PER_SECOND.
Proof.
  intros Hsec. unfold DT.date. dt_unfold.
  repeat split; Z.to_euclidean_division_equations; lia.
Qed.

Lemma make_tweet_id_same_second (tool_data : gmap string json) (t1 t2 : datetime) :
  t1 / DT.US_PER_SECOND = t2 / DT.US_PER_SECOND ->
  make_tweet_id tool_data t1 = make_tweet_id tool_data t2.
Proof.
  intros Hsec. destruct (same_second_fields t1 t2 Hsec) as (Hd & Hh & Hm & Hs).
  unfold make_tweet_id, DT.strftime_Ymd_HMS. rewrite Hd, Hh, Hm, Hs. reflexivity.
Qed.

(** C8: two calls of [add_to_queue] for a tool of the same name, made
    within one second of the clock (here one millisecond per reading, from
    2024-01-15 09:30:00), return the same id, and the queue then holds two
    tweets under this id. *)
Theorem add_to_queue_same_second_same_id :
  let w0 := world_from (at_time 2024 1 15 9 30 0) (SQLite empty_sqlite) default_scheduler in
  let first := add_to_queue kubectl_data "New tool: kubectl" 1 w0 in
  let second := add_to_queue kubectl_data "kubectl is trending" 1 (snd first) in
  fst first = Ok "kubectl_20240115_093000" /\
  fst second = Ok "kubectl_20240115_093000" /\
  map id (tweet_queue (scheduler (snd second)))
  = ["kubectl_20240115_093000"; "kubectl_20240115_093000"] /\
  map tweet_content (tweet_queue (scheduler (snd second)))
  = ["New tool: kubectl"; "kubectl is trending"].
Proof. vm_compute. repeat split. Qed.

(** *** The slot computation *)

Lemma day_bounds (t : datetime) :
  DT.date t * DT.US_PER_DAY <= t < (DT.date t + 1) * DT.US_PER_DAY.
Proof. unfold DT.date. dt_div_lia. Qed.

Lemma date_combine (d h : Z) :
  valid_hour h -> DT.date (DT.combine d (DT.hours h)) = d.
Proof. unfold valid_hour, DT.date. intros Hh. dt_div_lia. Qed.

Lemma time_at_valid_hour (h : Z) :
  valid_hour h -> DT.time_at_hour h = Some (DT.hours h).
Proof.
  unfold valid_hour, DT.time_at_hour. intros Hh.
  replace ((0 <=? h) && (h <=? 23)) with true; [reflexivity |].
  symmetry. apply andb_true_iff. split; [apply Z.leb_le | apply Z.leb_le]; lia.
Qed.

Lemma first_optimal_after_spec (d : Z) (now : datetime) (hours : list Z) :
  Forall valid_hour hours ->
  (exists pre h post,
     hours = pre ++ h :: post /\ Forall (passed d now) pre /\
     now < DT.combine d (DT.hours h) /\
     first_optimal_after d now hours = Some (Some (DT.combine d (DT.hours h)))) \/
  (Forall (passed d now) hours /\ first_optimal_after d now hours = Some None).
Proof.
  induction 1 as [| h hours Hh Hrest IH]; [right; split; [constructor | reflexivity] |].
  cbn. rewrite (time_at_valid_hour h Hh).
  destruct (now <? DT.combine d (DT.hours h)) eqn:Hlt; zbool.
  - left. exists [], h, hours. repeat split; auto.
  - destruct IH as [(pre & h' & post & -> & Hpre & Hnow & Hfound) | [Hall Hnone]].
    + left. exists (h :: pre), h', post.
      split; [reflexivity |]. split; [| split; [exact Hnow | exact Hfound]].
      constructor; [unfold passed; lia | exact Hpre].
    + right. split; [| exact Hnone]. constructor; [unfold passed; lia | exact Hall].
Qed.

Lemma find_next_optimal_hour_spec (hours : list Z) (now : datetime) :
  hours <> [] -> Forall valid_hour hours ->
  0 <= now -> now + DT.days 1 <= DT.datetime_max ->
  exists r,
    _find_next_optimal_hour hours now = Some r /\
    now < r /\ r <= now + DT.days 2 /\
    ((exists pre h post,
        hours = pre ++ h :: post /\ Forall (passed (DT.date now) now) pre /\
        r = DT.combine (DT.date now) (DT.hours h)) \/
     (Forall (passed (DT.date now) now) hours /\
      r = DT.combine (DT.date now + 1) (DT.hours (hd 0 hours)))).
Proof.
  intros Hne Hvalid Hpos Hmax. unfold _find_next_optimal_hour.
  pose proof (day_bounds now) as Hday.
  destruct (first_optimal_after_spec (DT.date now) now hours Hvalid)
    as [(pre & h & post & Heq & Hpre & Hnow & ->) | [Hall ->]].
  - eexists. split; [reflexivity |]. split; [exact Hnow |].
    assert (Hh : valid_hour h).
    { rewrite List.Forall_forall in Hvalid. apply Hvalid. subst hours.
      apply in_or_app. right. left. reflexivity. }
    split; [unfold valid_hour in Hh; dt_lia |].
    left. exists pre, h, post. auto.
  - unfold DT.date_add.
    replace (DT.date_in_range (DT.date now + 1)) with true.
    2:{ symmetry. unfold DT.date_in_range. apply andb_true_iff.
        split; [apply Z.leb_le | apply Z.ltb_lt]; unfold DT.date in *; dt_div_lia. }
    destruct hours as [| h0 hours']; [contradiction |].
    assert (Hh : valid_hour h0) by (inversion Hvalid; assumption).
    rewrite (time_at_valid_hour h0 Hh). eexists. split; [reflexivity |].
    unfold valid_hour in Hh. cbn [hd].
    split; [dt_lia |]. split; [dt_lia |]. right. split; [exact Hall | reflexivity].
Qed.

Lemma list_max_ge (x : datetime) (l : list datetime) :
  x <= list_max x l /\ forall t, In t l -> t <= list_max x l.
Proof.
  unfold list_max. revert x. induction l as [| y l IH]; intros x; cbn.
  - split; [lia | intros t []].
  - destruct (IH (Z.max x y)) as [Hx Hl]. split; [lia |].
    intros t [<- | Ht]; [lia | auto].
Qed.

Lemma get_recent_tweet_times_run (days : Z) (w : world) :
  exists l, get_recent_tweet_times days w = (Ok l, exec utcnow w).
Proof.
  unfold get_recent_tweet_times. run_monad.
  destruct (DT.add (clock w (ticks w)) (- DT.days days)); run_monad.
  - destruct (database w); eexists; reflexivity.
  - eexists; reflexivity.
Qed.

(** When its [try] block does not raise, [_calculate_next_slot] answers
    what [next_slot] computes from the clock reading and the store's recent
    tweet times. *)
Lemma calculate_next_slot_run (w : world) (recent : list datetime) (r : datetime) :
  fst (get_recent_tweet_times 1 (exec utcnow w)) = Ok recent ->
  next_slot (scheduler w) (clock w (ticks w)) recent = Some r ->
  fst (_calculate_next_slot w) = Ok r.
Proof.
  intros Hrecent Hslot. unfold _calculate_next_slot. run_monad.
  destruct (get_recent_tweet_times_run 1 (exec utcnow w)) as [l Hrun].
  unfold exec, utcnow in Hrun, Hrecent. cbn [fst snd] in Hrun, Hrecent.
  rewrite Hrun in Hrecent |- *. cbn [fst] in Hrecent. injection Hrecent as ->.
  run_monad. rewrite Hslot. reflexivity.
Qed.

Example once_a_day_scheduler_is_init :
  init_scheduler 1 None = Some once_a_day_scheduler.
Proof. reflexivity. Qed.

Lemma init_scheduler_interval (n : Z) (file : option (list queue_item)) (s : TweetScheduler) :
  init_scheduler n file = Some s ->
  tweets_per_day s = n /\ min_interval_hours s = Z.max (24 / n - 1) 2.
Proof.
  unfold init_scheduler, interval_for. destruct (n =? 0); [discriminate |].
  intros [= <-]. split; reflexivity.
Qed.

Lemma sorted_hours_later (pre post : list Z) (h h' : Z) :
  Sorted Z.le (pre ++ h :: post) -> In h' post -> h <= h'.
Proof.
  intros Hsorted Hin.
  apply Sorted.Sorted_StronglySorted in Hsorted; [| intros x y z; lia].
  induction pre as [| p pre IH]; cbn in Hsorted.
  - apply StronglySorted_inv in Hsorted as [_ Hall].
    rewrite List.Forall_forall in Hall. auto.
  - apply StronglySorted_inv in Hsorted as [Hrest _]. auto.
Qed.

(** C7: with no recent tweet in the store, [_calculate_next_slot] answers a
    time after now that stands at one of the preferred hours, on the hour:
    the earliest preferred hour of today that is after now, or, when all of
    today's have passed, the first preferred hour of the next day. *)
Theorem next_slot_without_history (w : world) :
  let now := clock w (ticks w) in
  let hours := optimal_hours (scheduler w) in
  0 < tweets_per_day (scheduler w) ->
  hours <> [] -> Forall valid_hour hours -> Sorted Z.le hours ->
  0 <= now -> now + DT.days 1 <= DT.datetime_max ->
  fst (get_recent_tweet_times 1 (exec utcnow w)) = Ok [] ->
  exists r,
    fst (_calculate_next_slot w) = Ok r /\
    now < r /\
    (exists h, In h hours /\ r = DT.combine (DT.date r) (DT.hours h)) /\
    ((DT.date r = DT.date now /\
      forall h', In h' hours ->
                 now < DT.combine (DT.date now) (DT.hours h') ->
                 r <= DT.combine (DT.date now) (DT.hours h')) \/
     ((forall h', In h' hours -> DT.combine (DT.date now) (DT.hours h') <= now) /\
      r = DT.combine (DT.date now + 1) (DT.hours (hd 0 hours)))).
Proof.
  intros now hours Hquota Hne Hvalid Hsorted Hpos Hmax Hrecent.
  destruct (find_next_optimal_hour_spec hours now Hne Hvalid Hpos Hmax)
    as (r & Hfind & Hafter & _ & Hwhich).
  exists r. split.
  { apply (calculate_next_slot_run w [] r Hrecent). unfold next_slot. cbn [List.filter length].
    replace (Z.of_nat 0 <? tweets_per_day (scheduler w)) with true
      by (symmetry; apply Z.ltb_lt; exact Hquota).
    fold hours now. rewrite Hfind. reflexivity. }
  split; [exact Hafter |].
  assert (Hin_valid : forall h, In h hours -> valid_hour h)
    by (apply List.Forall_forall; exact Hvalid).
  destruct Hwhich as [(pre & h & post & Heq & Hpre & ->) | [Hall ->]].
  - assert (Hh : In h hours) by (rewrite Heq; apply in_or_app; right; left; reflexivity).
    split.
    { exists h. split; [exact Hh |]. rewrite date_combine by auto. reflexivity. }
    left. split; [apply date_combine; auto |].
    intros h' Hh' Hlater. rewrite Heq in Hh', Hsorted.
    apply in_app_or in Hh' as [Hbefore | [<- | Hpost]].
    + rewrite List.Forall_forall in Hpre. specialize (Hpre h' Hbefore).
      unfold passed in Hpre. lia.
    + lia.
    + pose proof (sorted_hours_later pre post h h' Hsorted Hpost). dt_lia.
  - destruct hours as [| h0 hours'] eqn:Hhours; [contradiction |]. cbn [hd].
    assert (Hh0 : In h0 (h0 :: hours')) by (left; reflexivity).
    split.
    { exists h0. split; [exact Hh0 |]. rewrite date_combine by auto. reflexivity. }
    right. split; [| reflexivity].
    intros h' Hh'. rewrite List.Forall_forall in Hall. apply (Hall h' Hh').
Qed.

Lemma next_slot_without_history_witness :
  exists r,
    fst (_calculate_next_slot
           (world_at (at_time 2024 1 15 8 0 0) (SQLite empty_sqlite) default_scheduler))
    = Ok r /\
    at_time 2024 1 15 8 0 0 < r.
Proof.
  destruct (next_slot_without_history
              (world_at (at_time 2024 1 15 8 0 0) (SQLite empty_sqlite) default_scheduler))
    as (r & Hrun & Hafter & _).
  - reflexivity.
  - discriminate.
  - repeat constructor; discriminate.
  - repeat constructor; discriminate.
  - discriminate.
  - discriminate.
  - reflexivity.
  - exists r. split; [exact Hrun | exact Hafter].
Defined.

(** C2, as the code has it: with recent tweets in the store, below the
    daily quota [_calculate_next_slot] answers a time that is at least
    [min_interval_hours] after every recent tweet (and after now); once
    today's tweets have reached the quota it answers the first preferred
    hour of the next day, whatever the spacing. *)
Theorem next_slot_spacing_below_quota (w : world) (first : datetime)
    (others : list datetime) :
  let now := clock w (ticks w) in
  let s := scheduler w in
  let recent := first :: others in
  let today := List.filter (fun t => DT.date t =? DT.date now) recent in
  optimal_hours s <> [] -> Forall valid_hour (optimal_hours s) ->
  0 <= now -> now + DT.days 1 <= DT.datetime_max ->
  fst (get_recent_tweet_times 1 (exec utcnow w)) = Ok recent ->
  DT.in_range (list_max first others + DT.hours (min_interval_hours s)) = true ->
  exists r,
    fst (_calculate_next_slot w) = Ok r /\
    if Z.of_nat (length today) <? tweets_per_day s
    then list_max first others + DT.hours (min_interval_hours s) <= r /\
         (forall t, In t recent -> t + DT.hours (min_interval_hours s) <= r) /\
         now < r
    else r = DT.combine (DT.date now + 1) (DT.hours (hd 0 (optimal_hours s))).
Proof.
  intros now s recent today Hne Hvalid Hpos Hmax Hrecent Hrange.
  destruct (find_next_optimal_hour_spec (optimal_hours s) now Hne Hvalid Hpos Hmax)
    as (slot & Hfind & Hafter & _ & _).
  destruct (Z.of_nat (length today) <? tweets_per_day s) eqn:Hquota.
  - exists (Z.max slot (list_max first others + DT.hours (min_interval_hours s))).
    split.
    { apply (calculate_next_slot_run w recent _ Hrecent). unfold next_slot.
      fold now s. subst recent. fold today. rewrite Hquota, Hfind.
      unfold DT.add. rewrite Hrange. reflexivity. }
    split; [lia |]. split; [| lia].
    intros t Hin. destruct (list_max_ge first others) as [Hfirst Hothers].
    destruct Hin as [<- | Hin]; [lia |]. specialize (Hothers t Hin). lia.
  - destruct (optimal_hours s) as [| h0 hours'] eqn:Hhours; [contradiction |].
    assert (Hh0 : valid_hour h0) by (inversion Hvalid; assumption).
    exists (DT.combine (DT.date now + 1) (DT.hours h0)).
    split; [| reflexivity].
    apply (calculate_next_slot_run w recent _ Hrecent). unfold next_slot.
    fold now s. subst recent. fold today. rewrite Hquota, Hhours.
    unfold DT.replace_hour. rewrite (time_at_valid_hour h0 Hh0).
    unfold DT.add.
    replace (DT.combine (DT.date now) (DT.hours h0) + DT.days 1)
      with (DT.combine (DT.date now + 1) (DT.hours h0)) by dt_lia.
    replace (DT.in_range (DT.combine (DT.date now + 1) (DT.hours h0))) with true;
      [reflexivity |].
    symmetry. pose proof (day_bounds now) as Hday. unfold valid_hour in Hh0.
    assert (Hdate : DT.date now + 1 <= DT.MAX_ORDINAL - 1).
    { assert (DT.date now < DT.MAX_ORDINAL - 1); [| lia].
      unfold DT.date. apply Z.div_lt_upper_bound; [reflexivity | dt_lia]. }
    unfold DT.in_range. apply andb_true_iff.
    split; apply Z.leb_le; dt_unfold; nia.
Qed.

Lemma next_slot_spacing_below_quota_witness :
  exists r,
    fst (_calculate_next_slot
           (world_at (at_time 2024 1 15 9 10 0)
              (JSONFallback (json_with_posted
                 [posted_at_time "kubectl_20240115_090500" (at_time 2024 1 15 9 5 0)]))
              default_scheduler))
    = Ok r /\
    at_time 2024 1 15 9 5 0 + DT.hours 5 <= r.
Proof.
  destruct (next_slot_spacing_below_quota
              (world_at (at_time 2024 1 15 9 10 0)
                 (JSONFallback (json_with_posted
                    [posted_at_time "kubectl_20240115_090500" (at_time 2024 1 15 9 5 0)]))
                 default_scheduler)
              (at_time 2024 1 15 9 5 0) [])
    as (r & Hrun & Hspacing & _).
  - discriminate.
  - repeat constructor; discriminate.
  - discriminate.
  - discriminate.
  - reflexivity.
  - reflexivity.
  - exists r. split; [exact Hrun | exact Hspacing].
Defined.

(** C2 as stated fails once the quota is reached: with one tweet per day
    (minimum spacing 23 hours), a tweet sent today at 22:00 and the slot
    asked at 23:00, the answer is tomorrow 09:00, eleven hours after the
    last tweet. *)
Lemma next_slot_at_quota_ignores_spacing :
  let w := world_at (at_time 2024 1 15 23 0 0)
             (JSONFallback (json_with_posted
                [posted_at_time "kubectl_20240115_220000" (at_time 2024 1 15 22 0 0)]))
             once_a_day_scheduler in
  fst (get_recent_tweet_times 1 (exec utcnow w)) = Ok [at_time 2024 1 15 22 0 0] /\
  fst (_calculate_next_slot w) = Ok (at_time 2024 1 16 9 0 0) /\
  at_time 2024 1 16 9 0 0
  < at_time 2024 1 15 22 0 0 + DT.hours (min_interval_hours once_a_day_scheduler).
Proof. vm_compute. repeat split. Qed.

(** *** Sorting *)

Section sort_by_facts.
Context {A : Type} (leb : A -> A -> bool).
Hypothesis leb_total : forall x y, leb x y = false -> leb y x = true.
Hypothesis leb_trans :
    forall x y z, leb x y = true -> leb y z = true -> leb x z = true.

Lemma insert_by_In (x z : A) (l : list A) :
    In z (insert_by leb x l) -> z = x \/ In z l.
  Proof.
    induction l as [| y l IH]; cbn.
    - intros [<- | []]. left. reflexivity.
    - destruct (leb x y).
      + intros [<- | Hin]; [left; reflexivity | right; exact Hin].
      + intros [<- | Hin]; [right; left; reflexivity |].
        destruct (IH Hin) as [-> | Hz]; [left; reflexivity | right; right; exact Hz].
  Qed.

Lemma insert_by_sorted (x : A) (l : list A) :
    StronglySorted (fun a b => leb a b = true) l ->
    StronglySorted (fun a b => leb a b = true) (insert_by leb x l).
  Proof.
    induction 1 as [| y l Hsorted IH Hall]; cbn.
    - repeat constructor.
    - destruct (leb x y) eqn:Hxy.
      + constructor; [constructor; assumption |].
        constructor; [exact Hxy |].
        rewrite List.Forall_forall in Hall |- *. intros z Hz. eauto.
      + constructor; [exact IH |].
        rewrite List.Forall_forall in Hall |- *. intros z Hz.
        destruct (insert_by_In x z l Hz) as [-> | Hin]; auto.
  Qed.

Lemma sort_by_sorted (l : list A) :
    StronglySorted (fun a b => leb a b = true) (sort_by leb l).
  Proof.
    induction l as [| x l IH]; cbn; [constructor | apply insert_by_sorted; exact IH].
  Qed.

Lemma insert_by_permutation (x : A) (l : list A) :
    Permutation (insert_by leb x l) (x :: l).
  Proof.
    induction l as [| y l IH]; cbn; [reflexivity |].
    destruct (leb x y); [reflexivity |].
    rewrite IH. apply perm_swap.
  Qed.

Lemma sort_by_permutation (l : list A) : Permutation (sort_by leb l) l.
  Proof.
    induction l as [| x l IH]; cbn; [reflexivity |].
    rewrite insert_by_permutation, IH. reflexivity.
  Qed.
End sort_by_facts.

Lemma StronglySorted_filter {A : Type} (R : A -> A -> Prop) (f : A -> bool) (l : list A) :
  StronglySorted R l -> StronglySorted R (List.filter f l).
Proof.
  induction 1 as [| x l Hsorted IH Hall]; cbn; [constructor |].
  destruct (f x); [| exact IH]. constructor; [exact IH |].
  rewrite List.Forall_forall in Hall |- *. intros z Hz.
  apply List.filter_In in Hz as [Hz _]. auto.
Qed.

Lemma StronglySorted_tl {A : Type} (R : A -> A -> Prop) (l : list A) :
  StronglySorted R l -> StronglySorted R (tl l).
Proof. destruct 1; cbn; [constructor | assumption]. Qed.

Lemma StronglySorted_impl {A : Type} (R R' : A -> A -> Prop) (l : list A) :
  (forall x y, R x y -> R' x y) -> StronglySorted R l -> StronglySorted R' l.
Proof.
  intros Himpl. induction 1 as [| x l Hsorted IH Hall]; constructor; [exact IH |].
  rewrite List.Forall_forall in Hall |- *. auto.
Qed.

Lemma tweet_leb_queue_le (a b : QueuedTweet) :
  tweet_leb a b = true <-> queue_le a b.
Proof.
  unfold tweet_leb, key_leb, sort_key, queue_le, slot_time.
  destruct (scheduled_for a) as [sa |], (scheduled_for b) as [sb |];
    rewrite !orb_true_iff, !andb_true_iff, !orb_true_iff, !andb_true_iff,
      !Z.ltb_lt, !Z.eqb_eq, !Z.leb_le; lia.
Qed.

Lemma tweet_leb_total (a b : QueuedTweet) :
  tweet_leb a b = false -> tweet_leb b a = true.
Proof.
  intros Hab. apply tweet_leb_queue_le.
  assert (Hnot : ~ queue_le a b)
    by (intros H; apply tweet_leb_queue_le in H; congruence).
  unfold queue_le in *. lia.
Qed.

Lemma tweet_leb_trans (a b c : QueuedTweet) :
  tweet_leb a b = true -> tweet_leb b c = true -> tweet_leb a c = true.
Proof.
  rewrite !tweet_leb_queue_le. unfold queue_le. lia.
Qed.

Lemma queue_le_trans (a b c : QueuedTweet) :
  queue_le a b -> queue_le b c -> queue_le a c.
Proof. unfold queue_le. lia. Qed.

(** [_sort_queue] leaves the queue sorted, with the same tweets. *)
Lemma sort_queue_sorted (q : list QueuedTweet) :
  StronglySorted queue_le (sort_by tweet_leb q) /\
  Permutation (sort_by tweet_leb q) q.
Proof.
  split; [| apply sort_by_permutation].
  eapply StronglySorted_impl; [| apply sort_by_sorted].
  - intros x y. apply tweet_leb_queue_le.
  - apply tweet_leb_total.
  - apply tweet_leb_trans.
Qed.

(** An unscheduled tweet sorts last among the tweets of its priority: it
    only precedes unscheduled tweets and tweets scheduled at [datetime.max]
    or later. *)
Lemma unscheduled_sorts_last (a b : QueuedTweet) :
  queue_le a b -> scheduled_for a = None -> priority a = priority b ->
  match scheduled_for b with
  | Some s => DT.datetime_max <= s
  | None => True
  end.
Proof.
  unfold queue_le, slot_time. intros Hle Hnone Hprio. rewrite Hnone in Hle.
  destruct (scheduled_for b); [lia | exact I].
Qed.

(** *** What the operations leave alone *)

Section preservation.
Variable P : world -> world -> Prop.
Hypothesis P_refl : forall w, P w w.
Hypothesis P_trans : forall a b c, P a b -> P b c -> P a c.

Lemma preserves_ret {A : Type} (a : A) : preserves P (ret a).
  Proof. intros w. apply P_refl. Qed.

Lemma preserves_raise {A : Type} : preserves P (@raise A).
  Proof. intros w. apply P_refl. Qed.

Lemma preserves_lift {A : Type} (o : option A) : preserves P (lift o).
  Proof. destruct o; [apply preserves_ret | apply preserves_raise]. Qed.

Lemma preserves_get_database : preserves P get_database.
  Proof. intros w. apply P_refl. Qed.

Lemma preserves_get_scheduler : preserves P get_scheduler.
  Proof. intros w. apply P_refl. Qed.

Lemma preserves_bind {A B : Type} (m : M A) (f : A -> M B) :
    preserves P m -> (forall a, preserves P (f a)) -> preserves P (bind m f).
  Proof.
    intros Hm Hf w. unfold bind. specialize (Hm w).
    destruct (m w) as [[a |] w1]; cbn [snd] in *; [| exact Hm].
    eapply P_trans; [exact Hm | apply Hf].
  Qed.

Lemma preserves_try_except {A : Type} (m handler : M A) :
    preserves P m -> preserves P handler -> preserves P (try_except m handler).
  Proof.
    intros Hm Hh w. unfold try_except. specialize (Hm w).
    destruct (m w) as [[a |] w1]; cbn [snd] in *; [exact Hm |].
    eapply P_trans; [exact Hm | apply Hh].
  Qed.
End preservation.

Lemma same_scheduler_refl (w : world) : same_scheduler w w.
Proof. split; reflexivity. Qed.

Lemma same_scheduler_trans (a b c : world) :
  same_scheduler a b -> same_scheduler b c -> same_scheduler a c.
Proof. unfold same_scheduler. intros [-> ->] [-> ->]. split; reflexivity. Qed.

Lemma same_clock_refl (w : world) : same_clock w w.
Proof. reflexivity. Qed.

Lemma same_clock_trans (a b c : world) :
  same_clock a b -> same_clock b c -> same_clock a c.
Proof. unfold same_clock. intros -> ->. reflexivity. Qed.

Lemma same_scheduler_utcnow : preserves same_scheduler utcnow.
Proof. intros w. split; reflexivity. Qed.

Lemma same_scheduler_put_database (d : Database) :
  preserves same_scheduler (put_database d).
Proof. intros w. split; reflexivity. Qed.

Lemma same_clock_utcnow : preserves same_clock utcnow.
Proof. intros w. reflexivity. Qed.

Lemma same_clock_put_database (d : Database) : preserves same_clock (put_database d).
Proof. intros w. reflexivity. Qed.

Lemma same_clock_put_scheduler (s : TweetScheduler) :
  preserves same_clock (put_scheduler s).
Proof. intros w. reflexivity. Qed.

Create HintDb preserves.
#[local] Hint Resolve same_scheduler_utcnow same_scheduler_put_database
  same_clock_utcnow same_clock_put_database same_clock_put_scheduler : preserves.

Ltac preserves_step :=
  lazymatch goal with
  | |- preserves _ (ret _) => apply preserves_ret
  | |- preserves _ raise => apply preserves_raise
  | |- preserves _ (lift _) => apply preserves_lift
  | |- preserves _ get_database => apply preserves_get_database
  | |- preserves _ get_scheduler => apply preserves_get_scheduler
  | |- preserves _ (try_except _ _) => apply preserves_try_except
  | |- preserves _ (bind _ _) => apply preserves_bind
  | |- preserves _ (match ?x with _ => _ end) => destruct x
  | |- preserves _ (let _ := _ in _) => cbv zeta
  | |- preserves _ _ => solve [auto with preserves]
  | |- forall _, _ => intros ?
  end.

Ltac solve_preserves :=
  repeat first
    [ assumption
    | exact same_scheduler_refl
    | exact same_scheduler_trans
    | exact same_clock_refl
    | exact same_clock_trans
    | preserves_step ].

Lemma same_scheduler_get_recent_tweet_times (days : Z) :
  preserves same_scheduler (get_recent_tweet_times days).
Proof. unfold get_recent_tweet_times. solve_preserves. Qed.

Lemma same_scheduler_add_queued_tweet (t : QueuedTweet) :
  preserves same_scheduler (add_queued_tweet t).
Proof. unfold add_queued_tweet. solve_preserves. Qed.

Lemma same_scheduler_mark_tweet_posted (tweet_id : string) (r : gmap string json) :
  preserves same_scheduler (mark_tweet_posted tweet_id r).
Proof. unfold mark_tweet_posted. solve_preserves. Qed.

Lemma same_scheduler_mark_tweet_failed (tweet_id : string) :
  preserves same_scheduler (mark_tweet_failed tweet_id).
Proof. unfold mark_tweet_failed. solve_preserves. Qed.

Lemma same_scheduler_set_state_value (key : string) (value : datetime) :
  preserves same_scheduler (_set_state_value key value).
Proof. unfold _set_state_value. solve_preserves. Qed.

Lemma same_scheduler_update_last_tweet_time :
  preserves same_scheduler update_last_tweet_time.
Proof.
  unfold update_last_tweet_time.
  pose proof same_scheduler_set_state_value. solve_preserves.
Qed.

Lemma same_scheduler_calculate_next_slot : preserves same_scheduler _calculate_next_slot.
Proof.
  unfold _calculate_next_slot.
  pose proof same_scheduler_get_recent_tweet_times. solve_preserves.
Qed.

#[local] Hint Resolve same_scheduler_get_recent_tweet_times
  same_scheduler_add_queued_tweet same_scheduler_mark_tweet_posted
  same_scheduler_mark_tweet_failed same_scheduler_update_last_tweet_time
  same_scheduler_calculate_next_slot : preserves.

Lemma in_range_sane (c : nat -> datetime) (n : nat) (h : Z) :
  clock_sane c -> 0 <= h <= 2 -> DT.in_range (c n + DT.hours h) = true.
Proof.
  intros Hsane Hh. destruct (Hsane n) as [Hlow Hhigh].
  unfold DT.in_range. apply andb_true_iff. split; apply Z.leb_le; dt_unfold; nia.
Qed.

(** With a sane clock [_calculate_next_slot] always answers: when its
    [try] block raises, the fallback two hours from now is in range. *)
Lemma calculate_next_slot_total (w : world) :
  clock_sane (clock w) ->
  exists r w', _calculate_next_slot w = (Ok r, w') /\ same_scheduler w w'.
Proof.
  intros Hsane.
  unfold _calculate_next_slot in *. unfold try_except in *.
  match goal with
  | |- context [match ?body w with _ => _ end] =>
      assert (Hbody : preserves same_scheduler body)
        by (pose proof same_scheduler_get_recent_tweet_times; solve_preserves);
      specialize (Hbody w); destruct (body w) as [[r |] w1]
  end; cbn [snd] in *.
  - exists r, w1. split; [reflexivity | exact Hbody].
  - run_monad. destruct Hbody as [Hsched Hclock].
    unfold DT.add. rewrite Hclock, (in_range_sane (clock w) _ 2 Hsane) by lia.
    run_monad. eexists _, _. split; [reflexivity |].
    split; cbn; [assumption | reflexivity].
Qed.

Lemma same_scheduler_clock {A : Type} (m : M A) :
  preserves same_scheduler m -> preserves same_clock m.
Proof. intros H w. destruct (H w) as [_ Hclock]. exact Hclock. Qed.

(** *** Steps of the queue *)

Lemma from_dict_to_dict (t : QueuedTweet) : from_dict (to_dict t) = t.
Proof. destruct t as [? ? ? ? [?|] ? ? ?]; reflexivity. Qed.

Lemma saved_in_sync (s : TweetScheduler) : saved s -> in_sync s.
Proof.
  unfold saved, in_sync. intros ->. cbn. rewrite map_map.
  rewrite <- (map_id (tweet_queue s)) at 2. apply map_ext. apply from_dict_to_dict.
Qed.

Lemma queue_step_sorted (s s' : TweetScheduler) :
  queue_step s s' ->
  StronglySorted queue_le (tweet_queue s) -> StronglySorted queue_le (tweet_queue s').
Proof.
  intros [Hq _ | Hsorted _ | f Hq _ | Hq _] Hs.
  - rewrite Hq. exact Hs.
  - exact Hsorted.
  - rewrite Hq. apply StronglySorted_filter. exact Hs.
  - rewrite Hq. apply StronglySorted_tl. exact Hs.
Qed.

Lemma queue_step_in_sync (s s' : TweetScheduler) :
  queue_step s s' -> in_sync s -> in_sync s'.
Proof.
  intros [Hq Hf | _ Hsaved | f _ Hsaved | _ Hsaved] Hs;
    try (apply saved_in_sync; exact Hsaved).
  unfold in_sync in *. rewrite Hq, Hf. exact Hs.
Qed.

Ltac frame H c :=
  let Hf := fresh "Hframe" in
  pose proof H as Hf; destruct c as [[? |] ?]; cbn [snd] in Hf;
  destruct Hf as [? ?].

Ltac sorted_step :=
  apply step_sorted;
  [ cbn [tweet_queue set_tweet_queue set_queue_file]; apply sort_queue_sorted
  | reflexivity ].

Lemma add_to_queue_step (tool_data : gmap string json) (tweet_content : string)
    (priority : Z) (w : world) :
  queue_step (scheduler w)
    (scheduler (exec (add_to_queue tool_data tweet_content priority) w)).
Proof.
  unfold add_to_queue. run_monad.
  match goal with
  | |- context [_calculate_next_slot ?v] =>
      frame (same_scheduler_calculate_next_slot v) (_calculate_next_slot v)
  end; run_monad.
  - unfold _sort_queue, _save_queue. run_monad.
    match goal with
    | |- context [add_queued_tweet ?t ?v] =>
        frame (same_scheduler_add_queued_tweet t v) (add_queued_tweet t v)
    end; run_monad;
      match goal with H : scheduler _ = _ |- _ => rewrite H end; sorted_step.
  - apply step_kept; congruence.
Qed.

Lemma try_except_ret_ok {A : Type} (m : M A) (a : A) (w : world) :
  exists b, fst (try_except m (ret a) w) = Ok b.
Proof.
  unfold try_except, ret. destruct (m w) as [[b |] w']; eexists; reflexivity.
Qed.

Lemma mark_tweet_failed_ok (tweet_id : string) (w : world) :
  exists b, fst (mark_tweet_failed tweet_id w) = Ok b.
Proof. apply try_except_ret_ok. Qed.

Lemma post_next_tweet_step (result : option (gmap string json)) (w : world) :
  clock_sane (clock w) ->
  queue_step (scheduler w) (scheduler (exec (post_next_tweet result) w)).
Proof.
  intros Hsane. unfold post_next_tweet. run_monad.
  destruct (tweet_queue (scheduler w)) as [| next_tweet rest] eqn:Hq;
    [apply step_kept; reflexivity |].
  destruct (truthy result); run_monad.
  - unfold _save_queue. run_monad.
    match goal with
    | |- context [mark_tweet_posted ?i ?r ?v] =>
        frame (same_scheduler_mark_tweet_posted i r v) (mark_tweet_posted i r v)
    end; run_monad.
    + match goal with
      | |- context [update_last_tweet_time ?v] =>
          frame (same_scheduler_update_last_tweet_time v) (update_last_tweet_time v)
      end; run_monad;
        repeat match goal with H : scheduler _ = _ |- _ => rewrite H; clear H end;
        apply step_popped; cbn; rewrite ?Hq; reflexivity.
    + match goal with H : scheduler _ = _ |- _ => rewrite H end.
      apply step_popped; cbn; rewrite ?Hq; reflexivity.
  - cbn [max_attempts attempts set_attempts].
    destruct (max_attempts next_tweet <=? attempts next_tweet + 1); run_monad.
    + match goal with
      | |- context [mark_tweet_failed ?i ?v] =>
          destruct (mark_tweet_failed_ok i v) as [b Hok];
          frame (same_scheduler_mark_tweet_failed i v) (mark_tweet_failed i v)
      end; [| discriminate].
      run_monad. unfold _save_queue. run_monad.
      match goal with H : scheduler _ = _ |- _ => rewrite H end.
      apply step_popped; cbn; rewrite ?Hq; reflexivity.
    + unfold DT.add. rewrite (in_range_sane (clock w) _ 1 Hsane) by lia.
      run_monad. unfold _sort_queue, _save_queue. run_monad. sorted_step.
Qed.

Lemma clear_queue_step (keep_high_priority : bool) (w : world) :
  queue_step (scheduler w) (scheduler (exec (clear_queue keep_high_priority) w)).
Proof.
  unfold clear_queue, _save_queue. run_monad. destruct keep_high_priority.
  - eapply step_filtered; cbn; reflexivity.
  - apply step_sorted; cbn; [constructor | reflexivity].
Qed.

Lemma reschedule_tweet_step (tweet_id : string) (new_time : datetime) (w : world) :
  queue_step (scheduler w) (scheduler (exec (reschedule_tweet tweet_id new_time) w)).
Proof.
  unfold reschedule_tweet. run_monad.
  destruct (reschedule_first tweet_id new_time (tweet_queue (scheduler w))); run_monad.
  - unfold _sort_queue, _save_queue. run_monad. sorted_step.
  - apply step_kept; reflexivity.
Qed.

Lemma filter_all {A : Type} (f : A -> bool) (l : list A) :
  (length l <= length (List.filter f l))%nat -> List.filter f l = l.
Proof.
  induction l as [| x l IH]; cbn; [reflexivity |].
  pose proof (List.filter_length_le f l) as Hle.
  destruct (f x); cbn; intros Hlen; [f_equal; apply IH; lia | lia].
Qed.

Lemma remove_tweet_step (tweet_id : string) (w : world) :
  queue_step (scheduler w) (scheduler (exec (remove_tweet tweet_id) w)).
Proof.
  unfold remove_tweet. run_monad.
  match goal with
  | |- context [(length ?q <? length ?q0)%nat] =>
      destruct (length q <? length q0)%nat eqn:Hlen
  end; run_monad.
  - unfold _save_queue. run_monad. eapply step_filtered; cbn; reflexivity.
  - apply Nat.ltb_ge in Hlen. apply step_kept; cbn; [| reflexivity].
    apply filter_all. exact Hlen.
Qed.

Lemma reschedule_all_total (todo done : list QueuedTweet) (w : world) :
  clock_sane (clock w) ->
  exists w', reschedule_all done todo w = (Ok tt, w') /\ clock w' = clock w.
Proof.
  revert done w. induction todo as [| tweet rest IH]; intros done w Hsane; cbn.
  - exists w. split; reflexivity.
  - destruct (scheduled_for tweet); [| apply IH; exact Hsane].
    run_monad.
    destruct (calculate_next_slot_total w Hsane) as (r & w1 & -> & Hsched & Hclock).
    run_monad.
    match goal with
    | |- context [reschedule_all ?d rest ?v] =>
        destruct (IH d v) as (w2 & -> & Hclock2);
        [cbn; rewrite Hclock; exact Hsane |]
    end.
    exists w2. split; [reflexivity |]. rewrite Hclock2. cbn. exact Hclock.
Qed.

Lemma update_posting_schedule_step (n : Z) (hours : list Z) (w : world) :
  clock_sane (clock w) ->
  queue_step (scheduler w) (scheduler (exec (update_posting_schedule n hours) w)).
Proof.
  intros Hsane. unfold update_posting_schedule. run_monad.
  destruct (interval_for n); run_monad; [| apply step_kept; reflexivity].
  match goal with
  | |- context [reschedule_all ?d ?q ?v] =>
      destruct (reschedule_all_total q d v) as (w1 & -> & Hclock); [exact Hsane |]
  end.
  run_monad. unfold _sort_queue, _save_queue. run_monad. sorted_step.
Qed.

Lemma run_op_step (op : queue_op) (w : world) :
  clock_sane (clock w) -> queue_step (scheduler w) (scheduler (run_op op w)).
Proof.
  intros Hsane. destruct op; cbn [run_op].
  - apply add_to_queue_step.
  - apply post_next_tweet_step; exact Hsane.
  - apply reschedule_tweet_step.
  - apply remove_tweet_step.
  - apply clear_queue_step.
  - apply update_posting_schedule_step; exact Hsane.
Qed.

#[local] Hint Resolve same_scheduler_clock : preserves.

Lemma same_clock_sort_queue : preserves same_clock _sort_queue.
Proof. unfold _sort_queue. solve_preserves. Qed.

Lemma same_clock_save_queue : preserves same_clock _save_queue.
Proof. unfold _save_queue. solve_preserves. Qed.

#[local] Hint Resolve same_clock_sort_queue same_clock_save_queue : preserves.

Lemma same_clock_reschedule_all (todo done : list QueuedTweet) :
  preserves same_clock (reschedule_all done todo).
Proof.
  revert done. induction todo as [| tweet rest IH]; intros done; cbn.
  - solve_preserves.
  - destruct (scheduled_for tweet); [| apply IH].
    solve_preserves.
Qed.

Lemma run_op_clock (op : queue_op) (w : world) : clock (run_op op w) = clock w.
Proof.
  enough (H : same_clock w (run_op op w)) by exact H.
  destruct op as [td content prio | result | tweet_id new_time | tweet_id | keep | n hours];
    cbn [run_op]; unfold exec.
  - assert (H : preserves same_clock (add_to_queue td content prio))
      by (unfold add_to_queue; solve_preserves). apply H.
  - assert (H : preserves same_clock (post_next_tweet result))
      by (unfold post_next_tweet; solve_preserves). apply H.
  - assert (H : preserves same_clock (reschedule_tweet tweet_id new_time))
      by (unfold reschedule_tweet; solve_preserves). apply H.
  - assert (H : preserves same_clock (remove_tweet tweet_id))
      by (unfold remove_tweet; solve_preserves). apply H.
  - assert (H : preserves same_clock (clear_queue keep))
      by (unfold clear_queue; solve_preserves). apply H.
  - assert (H : preserves same_clock (update_posting_schedule n hours)).
    { unfold update_posting_schedule.
      pose proof (fun q => same_clock_reschedule_all q []). solve_preserves. }
    apply H.
Qed.

(** Over any run of mutators, a sorted queue stays sorted and a queue
    file that holds the queue keeps holding it. *)
Lemma run_ops_invariant (ops : list queue_op) (w : world) :
  clock_sane (clock w) ->
  clock (run_ops ops w) = clock w /\
  (StronglySorted queue_le (tweet_queue (scheduler w)) ->
   StronglySorted queue_le (tweet_queue (scheduler (run_ops ops w)))) /\
  (in_sync (scheduler w) -> in_sync (scheduler (run_ops ops w))).
Proof.
  revert w. induction ops as [| op ops IH]; intros w Hsane; cbn.
  - auto.
  - pose proof (run_op_step op w Hsane) as Hstep.
    pose proof (run_op_clock op w) as Hclock.
    destruct (IH (run_op op w)) as (Hc & Hsorted & Hsync); [rewrite Hclock; exact Hsane |].
    split; [etransitivity; [exact Hc | exact Hclock] |]. split; intros H.
    + apply Hsorted. eapply queue_step_sorted; eauto.
    + apply Hsync. eapply queue_step_in_sync; eauto.
Qed.

(** After [add_to_queue] has returned an id, and after [reschedule_tweet]
    has answered [True], the queue is sorted, whatever it was before. *)
Lemma add_to_queue_sorted (tool_data : gmap string json) (tweet_content : string)
    (priority : Z) (w : world) (tweet_id : string) :
  fst (add_to_queue tool_data tweet_content priority w) = Ok tweet_id ->
  Sorted queue_le
    (tweet_queue (scheduler (exec (add_to_queue tool_data tweet_content priority) w))).
Proof.
  unfold add_to_queue. run_monad.
  match goal with
  | |- context [_calculate_next_slot ?v] =>
      frame (same_scheduler_calculate_next_slot v) (_calculate_next_slot v)
  end; run_monad; [| discriminate].
  unfold _sort_queue, _save_queue. run_monad.
  match goal with
  | |- context [add_queued_tweet ?t ?v] =>
      frame (same_scheduler_add_queued_tweet t v) (add_queued_tweet t v)
  end; run_monad; [| discriminate].
  intros _. match goal with H : scheduler _ = _ |- _ => rewrite H end.
  cbn [tweet_queue set_tweet_queue set_queue_file].
  apply StronglySorted_Sorted, sort_queue_sorted.
Qed.

Lemma reschedule_tweet_sorted (tweet_id : string) (new_time : datetime) (w : world) :
  fst (reschedule_tweet tweet_id new_time w) = Ok true ->
  Sorted queue_le (tweet_queue (scheduler (exec (reschedule_tweet tweet_id new_time) w))).
Proof.
  unfold reschedule_tweet. run_monad.
  destruct (reschedule_first tweet_id new_time (tweet_queue (scheduler w))); run_monad;
    [| discriminate].
  unfold _sort_queue, _save_queue. run_monad. intros _.
  apply StronglySorted_Sorted, sort_queue_sorted.
Qed.

(** C4: over every run of the mutators of the queue (enqueue, post,
    reschedule, remove, clear, new posting schedule) the queue stays sorted
    by descending priority, then ascending scheduled time with unscheduled
    tweets last, then ascending creation time. *)
Theorem queue_stays_sorted (ops : list queue_op) (w : world) :
  clock_sane (clock w) ->
  Sorted queue_le (tweet_queue (scheduler w)) ->
  Sorted queue_le (tweet_queue (scheduler (run_ops ops w))).
Proof.
  intros Hsane Hsorted.
  apply StronglySorted_Sorted.
  apply (run_ops_invariant ops w Hsane).
  apply Sorted.Sorted_StronglySorted; [| exact Hsorted].
  intros a b c. apply queue_le_trans.
Qed.

(** Every mutator writes the queue through to the queue file, so after any
    run a restart loads the very queue that was in memory (same ids,
    attempts and scheduled times), over the same store; the store itself is
    left as it was by the administrative reschedule, remove and clear. *)
Lemma restart_reloads_queue_file (ops : list queue_op) (w : world) (n : Z) :
  clock_sane (clock w) ->
  in_sync (scheduler w) ->
  n <> 0 ->
  (exists w',
     restart n (run_ops ops w) = Some w' /\
     tweet_queue (scheduler w') = tweet_queue (scheduler (run_ops ops w)) /\
     database w' = database (run_ops ops w)) /\
  (forall (v : world) (tweet_id : string) (new_time : datetime),
     database (run_op (Reschedule tweet_id new_time) v) = database v) /\
  (forall (v : world) (tweet_id : string),
     database (run_op (Remove tweet_id) v) = database v) /\
  (forall (v : world) (keep_high_priority : bool),
     database (run_op (Clear keep_high_priority) v) = database v).
Proof.
  intros Hsane Hsync Hn. split; [| split; [| split]].
  - destruct (run_ops_invariant ops w Hsane) as (_ & _ & Hkeep).
    specialize (Hkeep Hsync). unfold restart, init_scheduler, interval_for.
    replace (n =? 0) with false by (symmetry; apply Z.eqb_neq; exact Hn).
    eexists. split; [reflexivity |]. split; [exact Hkeep | reflexivity].
  - intros v tweet_id new_time. cbn [run_op]. unfold reschedule_tweet. run_monad.
    destruct (reschedule_first tweet_id new_time (tweet_queue (scheduler v)));
      reflexivity.
  - intros v tweet_id. cbn [run_op]. unfold remove_tweet. run_monad.
    match goal with
    | |- context [(length ?q <? length ?q0)%nat] => destruct (length q <? length q0)%nat
    end; reflexivity.
  - intros v keep. cbn [run_op]. unfold clear_queue. run_monad. reflexivity.
Qed.


(** *** Concrete runs *)

Lemma clock_sane_morning : clock_sane (clock morning_world).
Proof.
  intros n. split; intros H; vm_compute in H; discriminate H.
Defined.

(** Three tools queued with priorities 1, 3, 1: the urgent one is first. *)
Example priority_three_first :
  map id (tweet_queue (scheduler (run_ops
    [Enqueue kubectl_data "New tool: kubectl" 1;
     Enqueue helm_data "New tool: helm" 3;
     Enqueue k9s_data "New tool: k9s" 1] morning_world)))
  = ["helm_20240115_080000"; "kubectl_20240115_080000"; "k9s_20240115_080000"].
Proof. vm_compute. reflexivity. Qed.


(** A failed post below the attempt limit: the tweet stays, one attempt
    more, one hour later. *)
Example post_next_tweet_retry :
  let w := world_at morning (SQLite empty_sqlite)
             (scheduler_with_queue
                [sample_tweet "kubectl_20240115_070000" 1 (Some morning)
                   (at_time 2024 1 15 7 0 0) 0]) in
  map (fun t => (id t, attempts t, scheduled_for t))
    (tweet_queue (scheduler (exec (post_next_tweet None) w)))
  = [("kubectl_20240115_070000", 1, Some (at_time 2024 1 15 9 0 0))].
Proof. vm_compute. reflexivity. Qed.

Lemma queue_stays_sorted_witness :
  Sorted queue_le (tweet_queue (scheduler (run_ops sample_run morning_world))).
Proof.
  apply queue_stays_sorted.
  - exact clock_sane_morning.
  - constructor.
Defined.

Lemma restart_reloads_queue_file_witness :
  exists w',
    restart 4 (run_ops sample_run morning_world) = Some w' /\
    tweet_queue (scheduler w')
    = tweet_queue (scheduler (run_ops sample_run morning_world)).
Proof.
  destruct (restart_reloads_queue_file sample_run morning_world 4)
    as [(w' & Hrestart & Hqueue & _) _].
  - exact clock_sane_morning.
  - reflexivity.
  - discriminate.
  - exists w'. split; [exact Hrestart | exact Hqueue].
Defined.

(** After an enqueue and an administrative reschedule the row of
    [queued_tweets] still carries the first scheduled time, and after a
    remove the row is still there. *)
Example store_misses_reschedule_and_remove :
  let w1 := run_ops
              [Enqueue kubectl_data "New tool: kubectl" 1;
               Reschedule "kubectl_20240115_080000" (at_time 2024 1 20 9 0 0)]
              morning_world in
  let w2 := run_op (Remove "kubectl_20240115_080000") w1 in
  map (fun t => (id t, attempts t, scheduled_for t)) (tweet_queue (scheduler w1))
  = [("kubectl_20240115_080000", 0, Some (at_time 2024 1 20 9 0 0))] /\
  map (fun r => (q_tweet_id r, q_attempts r, q_scheduled_for r))
    (stored_queue (database w1))
  = [("kubectl_20240115_080000", 0, Some (at_time 2024 1 15 9 0 0))] /\
  tweet_queue (scheduler w2) = [] /\
  map q_tweet_id (stored_queue (database w2)) = ["kubectl_20240115_080000"].
Proof. vm_compute. repeat split. Qed.

(** *** Further properties of the queue file and the store *)

Lemma tool_exists_run (nm u : string) (w : world) :
  tool_exists nm u w
  = (Ok (existsb (tool_matches nm u) (stored_tools (database w))), w).
Proof.
  unfold tool_exists. run_monad. destruct (database w) as [s | j]; run_monad; cbn.
  - f_equal. f_equal.
    induction (sql_tools s) as [| r l IH]; cbn; [reflexivity |].
    destruct (tool_matches nm u r); cbn; [| exact IH].
    destruct (existsb _ l); cbn; lia || reflexivity.
  - reflexivity.
Qed.

Lemma tool_matches_pair (nm u : string) (tool : ToolRecord) (first_seen : datetime) :
  tool_matches nm u (row_of_tool tool first_seen) = true ->
  nm = name tool /\ u = url tool.
Proof.
  unfold tool_matches, row_of_tool. cbn. intros H.
  apply andb_true_iff in H as [H1 H2].
  apply bool_decide_eq_true in H1, H2. split; congruence.
Qed.

(** [add_tool] in full: the fallback files always take the record; SQLite
    takes it unless the pair is there already, and refuses a tool whose
    [stars] do not fit an INTEGER, after both clock readings. *)
Lemma add_tool_run (tool : ToolRecord) (w : world) :
  add_tool tool w
  = match database w with
    | JSONFallback j =>
        (Ok true,
         {| clock := clock w; ticks := S (ticks w);
            database :=
              JSONFallback
                (json_set_tools j (json_tools j ++ [row_of_tool tool (clock w (ticks w))]));
            scheduler := scheduler w |})
    | SQLite s =>
        if in_int64 (stars tool) then
          (Ok true,
           {| clock := clock w; ticks := S (S (ticks w));
              database :=
                SQLite (if existsb (tool_matches (name tool) (url tool)) (sql_tools s)
                        then s
                        else sql_set_tools s
                               (sql_tools s ++ [row_of_tool tool (clock w (S (ticks w)))]));
              scheduler := scheduler w |})
        else
          (Ok false,
           {| clock := clock w; ticks := S (S (ticks w));
              database := SQLite s; scheduler := scheduler w |})
    end.
Proof.
  unfold add_tool. run_monad. destruct (database w) as [s | j]; run_monad;
    [| reflexivity].
  destruct (in_int64 (stars tool)); reflexivity.
Qed.

(** X2: [add_tool] returns [True] and the store then knows the tool
    ([tool_exists] answers [True] for its name and url) on the fallback
    files, and on SQLite when the tool's [stars] fit a 64-bit INTEGER; for
    other [stars] SQLite refuses the row, [add_tool] returns [False] and the
    store is unchanged. In every case the answer of [tool_exists] for any
    other pair is what it was. *)
Theorem add_tool_then_exists (w : world) (tool : ToolRecord) :
  let accepted := use_json_fallback (database w) || in_int64 (stars tool) in
  fst (add_tool tool w) = Ok accepted /\
  (if accepted
   then fst (tool_exists (name tool) (url tool) (exec (add_tool tool) w)) = Ok true
   else database (exec (add_tool tool) w) = database w) /\
  forall nm u : string,
    (nm <> name tool \/ u <> url tool) ->
    fst (tool_exists nm u (exec (add_tool tool) w)) = fst (tool_exists nm u w).
Proof.
  intros accepted. subst accepted. unfold exec. rewrite add_tool_run.
  assert (Hother : forall nm u first_seen l,
            (nm <> name tool \/ u <> url tool) ->
            existsb (tool_matches nm u) (l ++ [row_of_tool tool first_seen])
            = existsb (tool_matches nm u) l).
  { intros nm u first_seen l Hne. rewrite existsb_app. cbn [existsb].
    destruct (tool_matches nm u (row_of_tool tool first_seen)) eqn:Hm.
    - apply tool_matches_pair in Hm as [-> ->]. destruct Hne; contradiction.
    - rewrite !orb_false_r. reflexivity. }
  assert (Hself : forall first_seen l,
            existsb (tool_matches (name tool) (url tool))
              (l ++ [row_of_tool tool first_seen]) = true).
  { intros first_seen l. rewrite existsb_app. cbn [existsb].
    rewrite tool_matches_row. apply orb_true_iff. right. reflexivity. }
  destruct (database w) as [s | j] eqn:Hdb; cbn [use_json_fallback orb].
  - destruct (in_int64 (stars tool)); cbn [fst snd].
    + split; [reflexivity |]. split.
      * rewrite tool_exists_run. cbn [fst database stored_tools]. f_equal.
        destruct (existsb (tool_matches (name tool) (url tool)) (sql_tools s)) eqn:Hex;
          [exact Hex | apply Hself].
      * intros nm u Hne. rewrite !tool_exists_run. cbn [fst database stored_tools].
        rewrite Hdb. cbn [stored_tools]. f_equal.
        destruct (existsb (tool_matches (name tool) (url tool)) (sql_tools s));
          [reflexivity | apply Hother; exact Hne].
    + split; [reflexivity |]. split; [cbn; congruence |].
      intros nm u Hne. rewrite !tool_exists_run. cbn [fst database]. rewrite Hdb.
      reflexivity.
  - cbn [fst snd]. split; [reflexivity |]. split.
    + rewrite tool_exists_run. cbn [fst database stored_tools]. f_equal. apply Hself.
    + intros nm u Hne. rewrite !tool_exists_run. cbn [fst database stored_tools].
      rewrite Hdb. cbn [stored_tools]. f_equal. apply Hother. exact Hne.
Qed.

Lemma json_state_find_updated (key : string) (value now : datetime)
    (l l' : list state_item) :
  json_state_update key value now l = Some l' ->
  json_state_find key l' = Some value.
Proof.
  revert l'. induction l as [| item l0 IH]; intros l' H; [discriminate |].
  cbn in H. destruct (bool_decide (s_key item = key)) eqn:Hk.
  - injection H as <-. cbn. rewrite Hk. reflexivity.
  - destruct (json_state_update key value now l0) as [l1 |]; [| discriminate].
    injection H as <-. cbn. rewrite Hk. apply IH. reflexivity.
Qed.

Lemma json_state_find_appended (key : string) (value now : datetime)
    (l : list state_item) :
  json_state_update key value now l = None ->
  json_state_find key (l ++ [{| s_key := key; s_value := value; s_updated_at := now |}])
  = Some value.
Proof.
  induction l as [| item l0 IH]; cbn.
  - intros _. rewrite bool_decide_eq_true_2 by reflexivity. reflexivity.
  - destruct (bool_decide (s_key item = key)); [discriminate |].
    destruct (json_state_update key value now l0); [discriminate |]. auto.
Qed.

Lemma get_state_value_run (key : string) (w : world) :
  _get_state_value key w
  = (Ok match database w with
        | JSONFallback j => json_state_find key (json_bot_state j)
        | SQLite s => match sql_bot_state s !! key with
                      | Some (value, _) => Some value
                      | None => None
                      end
        end, w).
Proof. unfold _get_state_value. run_monad. destruct (database w); reflexivity. Qed.

(** X4: a value written with [_set_state_value] is the one
    [_get_state_value] reads back under the same key, in both storages, and
    the values under the other keys stay; so the last check time read after
    [update_last_check_timestamp] is the clock reading of that update. *)
Theorem state_value_round_trip (w : world) (key : string) (value : datetime) :
  fst (_set_state_value key value w) = Ok true /\
  fst (_get_state_value key (exec (_set_state_value key value) w)) = Ok (Some value) /\
  (forall other : string,
     other <> key ->
     fst (_get_state_value other (exec (_set_state_value key value) w))
     = fst (_get_state_value other w)) /\
  fst (get_last_check_timestamp (exec update_last_check_timestamp w))
  = Ok (Some (clock w (ticks w))).
Proof.
  assert (Hset : forall (v : world) (k : string) (x : datetime),
            fst (_set_state_value k x v) = Ok true /\
            fst (_get_state_value k (exec (_set_state_value k x) v)) = Ok (Some x) /\
            forall other, other <> k ->
              fst (_get_state_value other (exec (_set_state_value k x) v))
              = fst (_get_state_value other v)).
  { intros v k x. rewrite get_state_value_run.
    unfold _set_state_value. run_monad.
    destruct (database v) as [s | j] eqn:Hdb; run_monad; cbn [fst].
    - split; [reflexivity |]. split.
      + cbn. rewrite lookup_insert_eq. reflexivity.
      + intros other Hne. rewrite !get_state_value_run. cbn. rewrite Hdb.
        rewrite lookup_insert_ne by congruence. reflexivity.
    - split; [reflexivity |]. split.
      + cbn. f_equal.
        destruct (json_state_update k x _ (json_bot_state j)) as [l |] eqn:Hu.
        * eapply json_state_find_updated; eauto.
        * apply json_state_find_appended; exact Hu.
      + intros other Hne. rewrite !get_state_value_run. cbn. rewrite Hdb. f_equal.
        destruct (json_state_update k x _ (json_bot_state j)) as [l |] eqn:Hu.
        * eapply json_state_find_update; eauto.
        * apply json_state_find_app. cbn. exact Hne. }
  split; [apply Hset |]. split; [apply Hset |]. split; [apply Hset |].
  unfold get_last_check_timestamp, update_last_check_timestamp. run_monad.
  match goal with
  | |- context [_set_state_value ?k ?x ?v] =>
      destruct (Hset v k x) as (Hok & Hget & _)
  end.
  unfold exec in Hget.
  destruct (_set_state_value _ _ _) as [[b |] w1]; cbn [fst snd] in *; try discriminate.
  destruct (_get_state_value "last_check_timestamp" w1) as [[r |] w2];
    cbn [fst] in *; try discriminate.
  exact Hget.
Qed.

(** *** Further properties of the queue mutators *)

Lemma filter_negb_length {A : Type} (p : A -> bool) (l : list A) :
  (length (List.filter (fun x => negb (p x)) l) + length (List.filter p l))%nat
  = length l.
Proof.
  induction l as [| x l IH]; cbn; [reflexivity |].
  destruct (p x); cbn; lia.
Qed.

Lemma filter_negb_shorter {A : Type} (p : A -> bool) (l : list A) :
  (length (List.filter (fun x => negb (p x)) l) <? length l)%nat = existsb p l.
Proof.
  pose proof (filter_negb_length p l) as Hlen.
  destruct (existsb p l) eqn:Hex.
  - apply filter_length_existsb in Hex. apply Nat.ltb_lt. lia.
  - apply existsb_filter_length in Hex. apply Nat.ltb_ge. lia.
Qed.

(** X5: [remove_tweet] takes every tweet with the given id out of the
    queue and keeps the others in their order; it answers [True] exactly
    when the queue held such a tweet, and then saves the queue; the store is
    not touched. *)
Theorem remove_tweet_spec (w : world) (tweet_id : string) :
  let q := tweet_queue (scheduler w) in
  let w' := exec (remove_tweet tweet_id) w in
  fst (remove_tweet tweet_id w)
  = Ok (existsb (fun t => bool_decide (id t = tweet_id)) q) /\
  tweet_queue (scheduler w')
  = List.filter (fun t => negb (bool_decide (id t = tweet_id))) q /\
  (forall t, In t (tweet_queue (scheduler w')) <-> In t q /\ id t <> tweet_id) /\
  (if existsb (fun t => bool_decide (id t = tweet_id)) q
   then saved (scheduler w')
   else queue_file (scheduler w') = queue_file (scheduler w)) /\
  database w' = database w.
Proof.
  intros q w'. subst w'. unfold remove_tweet. run_monad. fold q.
  rewrite (filter_negb_shorter (fun t => bool_decide (id t = tweet_id)) q).
  assert (Hin : forall t,
            In t (List.filter (fun t => negb (bool_decide (id t = tweet_id))) q)
            <-> In t q /\ id t <> tweet_id).
  { intros t. rewrite List.filter_In. split; intros [Ht Hid]; split; try exact Ht.
    - apply negb_true_iff, bool_decide_eq_false in Hid. exact Hid.
    - apply negb_true_iff, bool_decide_eq_false. exact Hid. }
  destruct (existsb (fun t => bool_decide (id t = tweet_id)) q); run_monad.
  - unfold _save_queue. run_monad. cbn.
    split; [reflexivity |]. split; [reflexivity |]. split; [exact Hin |].
    split; reflexivity.
  - cbn.
    split; [reflexivity |]. split; [reflexivity |]. split; [exact Hin |].
    split; reflexivity.
Qed.

Lemma reschedule_first_spec (tweet_id : string) (new_time : datetime)
    (q : list QueuedTweet) :
  match reschedule_first tweet_id new_time q with
  | Some q' =>
      exists pre t post,
        q = pre ++ t :: post /\
        Forall (fun x => id x <> tweet_id) pre /\ id t = tweet_id /\
        q' = pre ++ set_scheduled_for t (Some new_time) :: post
  | None => Forall (fun x => id x <> tweet_id) q
  end.
Proof.
  induction q as [| x q IH]; cbn; [constructor |].
  destruct (bool_decide (id x = tweet_id)) eqn:Hx.
  - apply bool_decide_eq_true in Hx. exists [], x, q. repeat split; auto.
  - apply bool_decide_eq_false in Hx.
    destruct (reschedule_first tweet_id new_time q) as [q' |].
    + destruct IH as (pre & t & post & -> & Hpre & Hid & ->).
      exists (x :: pre), t, post. repeat split; auto.
    + constructor; assumption.
Qed.

(** X6: [reschedule_tweet] answers [True] exactly when a tweet of the queue
    has the id; then the first such tweet, and only it, gets the new time,
    and the queue is sorted again and saved, with the same tweets otherwise;
    when no tweet has the id nothing changes at all. *)
Theorem reschedule_tweet_spec (w : world) (tweet_id : string) (new_time : datetime) :
  let q := tweet_queue (scheduler w) in
  let w' := exec (reschedule_tweet tweet_id new_time) w in
  (exists pre t post,
     q = pre ++ t :: post /\
     Forall (fun x => id x <> tweet_id) pre /\ id t = tweet_id /\
     fst (reschedule_tweet tweet_id new_time w) = Ok true /\
     Permutation (tweet_queue (scheduler w'))
       (pre ++ set_scheduled_for t (Some new_time) :: post) /\
     Sorted queue_le (tweet_queue (scheduler w')) /\
     saved (scheduler w') /\ database w' = database w) \/
  (Forall (fun x => id x <> tweet_id) q /\
   reschedule_tweet tweet_id new_time w = (Ok false, w)).
Proof.
  intros q w'. subst w'. unfold reschedule_tweet. run_monad. fold q.
  pose proof (reschedule_first_spec tweet_id new_time q) as Hfirst.
  destruct (reschedule_first tweet_id new_time q) as [q' |]; run_monad.
  - destruct Hfirst as (pre & t & post & Hq & Hpre & Hid & ->).
    left. exists pre, t, post.
    unfold _sort_queue, _save_queue. run_monad. cbn.
    repeat split; auto.
    + apply sort_queue_sorted.
    + apply StronglySorted_Sorted, sort_queue_sorted.
  - right. split; [exact Hfirst |]. destruct w; reflexivity.
Qed.

(** X7: [clear_queue] with [keep_high_priority] keeps exactly the tweets of
    priority above 1, in order, and answers how many tweets of priority 1
    or less it dropped; without it the queue is emptied and the answer is
    the former length. The queue is saved, the store is not touched. *)
Theorem clear_queue_spec (w : world) (keep_high_priority : bool) :
  let q := tweet_queue (scheduler w) in
  let w' := exec (clear_queue keep_high_priority) w in
  tweet_queue (scheduler w')
  = (if keep_high_priority then List.filter (fun t => 1 <? priority t) q else []) /\
  fst (clear_queue keep_high_priority w)
  = Ok (if keep_high_priority
        then Z.of_nat (length (List.filter (fun t => negb (1 <? priority t)) q))
        else Z.of_nat (length q)) /\
  saved (scheduler w') /\
  database w' = database w.
Proof.
  intros q w'. subst w'. unfold clear_queue, _save_queue. run_monad. fold q.
  destruct keep_high_priority; cbn; repeat split.
  - f_equal. pose proof (filter_negb_length (fun t => 1 <? priority t) q). lia.
  - f_equal. lia.
Qed.

(** *** The store and the pending set *)

Lemma get_queued_tweets_count_run (w : world) :
  get_queued_tweets_count w = (Ok (Z.of_nat (length (stored_queue (database w)))), w).
Proof.
  unfold get_queued_tweets_count. run_monad.
  destruct (database w) as [s | j]; reflexivity.
Qed.

(** C3: the store is not told of every change of the queue. A tweet that
    [remove_tweet] or [clear_queue] takes out of the queue keeps its row in
    [queued_tweets], and [get_queued_tweets_count] counts it as before; a
    tweet that [reschedule_tweet] moves, or that is rescheduled after a
    failed post, keeps its old time and attempts in the store: these four
    paths leave the store exactly as it was. Only the drop of a tweet whose
    attempts are exhausted (and the successful post) deletes the rows of its
    id. And a restart does not look at the store: whatever the store holds,
    the queue it builds is the one read from the queue file. So the rows of
    [queued_tweets] are not the pending set. *)
Theorem store_misses_queue_changes (v : world) :
  (forall tweet_id : string,
     let v' := exec (remove_tweet tweet_id) v in
     tweet_queue (scheduler v')
     = List.filter (fun t => negb (bool_decide (id t = tweet_id))) (tweet_queue (scheduler v)) /\
     database v' = database v /\
     fst (get_queued_tweets_count v')
     = Ok (Z.of_nat (length (stored_queue (database v))))) /\
  (forall keep_high_priority : bool,
     let v' := exec (clear_queue keep_high_priority) v in
     tweet_queue (scheduler v')
     = (if keep_high_priority
        then List.filter (fun t => 1 <? priority t) (tweet_queue (scheduler v))
        else []) /\
     database v' = database v /\
     fst (get_queued_tweets_count v')
     = Ok (Z.of_nat (length (stored_queue (database v))))) /\
  (forall (tweet_id : string) (new_time : datetime),
     let v' := exec (reschedule_tweet tweet_id new_time) v in
     database v' = database v /\
     forall t, In t (tweet_queue (scheduler v)) -> id t = tweet_id ->
               exists t', In t' (tweet_queue (scheduler v')) /\ id t' = tweet_id /\
                          scheduled_for t' = Some new_time) /\
  (forall (result : option (gmap string json)) (next_tweet : QueuedTweet)
          (rest : list QueuedTweet),
     tweet_queue (scheduler v) = next_tweet :: rest ->
     truthy result = false ->
     let v' := exec (post_next_tweet result) v in
     if max_attempts next_tweet <=? attempts next_tweet + 1 then
       tweet_queue (scheduler v') = rest /\
       stored_queue (database v')
       = List.filter (fun row => negb (bool_decide (q_tweet_id row = id next_tweet)))
           (stored_queue (database v))
     else
       DT.in_range (clock v (ticks v) + DT.hours 1) = true ->
       database v' = database v /\
       exists t', In t' (tweet_queue (scheduler v')) /\ id t' = id next_tweet /\
                  attempts t' = attempts next_tweet + 1 /\
                  scheduled_for t' = Some (clock v (ticks v) + 3600 * 1000000)) /\
  (forall (n : Z) (d : Database),
     option_map (fun w' => tweet_queue (scheduler w')) (restart n (with_database v d))
     = option_map (fun w' => tweet_queue (scheduler w')) (restart n v) /\
     forall w', restart n v = Some w' ->
                tweet_queue (scheduler w') = _load_queue (queue_file (scheduler v))).
Proof.
  split; [| split; [| split; [| split]]].
  - intros tweet_id v'. subst v'. unfold remove_tweet. run_monad.
    match goal with
    | |- context [(length ?q <? length ?q0)%nat] => destruct (length q <? length q0)%nat
    end; run_monad; unfold _save_queue; run_monad;
      rewrite get_queued_tweets_count_run; cbn; auto.
  - intros keep v'. subst v'. unfold clear_queue, _save_queue. run_monad.
    rewrite get_queued_tweets_count_run. cbn. destruct keep; auto.
  - intros tweet_id new_time v'. subst v'. unfold reschedule_tweet. run_monad.
    pose proof (reschedule_first_spec tweet_id new_time (tweet_queue (scheduler v)))
      as Hfirst.
    destruct (reschedule_first tweet_id new_time (tweet_queue (scheduler v)))
      as [q' |]; run_monad.
    + destruct Hfirst as (pre & t & post & Hq & Hpre & Hid & ->).
      unfold _sort_queue, _save_queue. run_monad. cbn.
      split; [reflexivity |]. intros _ _ _.
      exists (set_scheduled_for t (Some new_time)).
      split; [| split; [exact Hid | reflexivity]].
      apply (Permutation_in _ (Permutation_sym (proj2 (sort_queue_sorted _)))).
      apply in_or_app. right. left. reflexivity.
    + split; [reflexivity |]. intros t Hin Hid. exfalso.
      rewrite List.Forall_forall in Hfirst. exact (Hfirst t Hin Hid).
  - intros result next_tweet rest Hq Hfail v'. subst v'.
    unfold post_next_tweet. run_monad. rewrite Hq, Hfail. cbv beta iota.
    cbn [max_attempts attempts set_attempts].
    destruct (max_attempts next_tweet <=? attempts next_tweet + 1) eqn:Hmax.
    + unfold mark_tweet_failed, _save_queue. run_monad.
      destruct (database v) as [s | j]; cbn; auto.
    + intros Hrange. run_monad. unfold DT.add. rewrite Hrange.
      unfold _sort_queue, _save_queue. run_monad.
      cbn [tweet_queue set_tweet_queue set_queue_file queue_file database].
      split; [reflexivity |].
      exists (set_scheduled_for (set_attempts next_tweet (attempts next_tweet + 1))
                (Some (clock v (ticks v) + DT.hours 1))).
      split; [| split; [reflexivity | split; reflexivity]].
      apply (Permutation_in _ (Permutation_sym (proj2 (sort_queue_sorted _)))).
      left. reflexivity.
  - intros n d. unfold restart, init_scheduler.
    split; [cbn [with_database scheduler]; destruct (interval_for n); reflexivity |].
    intros w'.
    destruct (interval_for n); [| discriminate].
    intros [= <-]. reflexivity.
Qed.

(** A tweet is queued and removed again: the queue is empty, and the store
    still holds and counts its row. After a restart the queue is empty
    too, over a store with one queued row. *)
Example removed_tweet_still_stored :
  let w := run_ops [Enqueue kubectl_data "New tool: kubectl" 1;
                    Remove "kubectl_20240115_080000"] morning_world in
  tweet_queue (scheduler w) = [] /\
  map q_tweet_id (stored_queue (database w)) = ["kubectl_20240115_080000"] /\
  fst (get_queued_tweets_count w) = Ok 1 /\
  option_map (fun w' => (tweet_queue (scheduler w'),
                         map q_tweet_id (stored_queue (database w'))))
    (restart 4 w)
  = Some ([], ["kubectl_20240115_080000"]).
Proof. vm_compute. repeat split. Qed.

(** *** Slots and the enqueue / post paths in full *)

Lemma first_optimal_after_later (d : Z) (now : datetime) (hours : list Z) (c : datetime) :
  first_optimal_after d now hours = Some (Some c) -> now < c.
Proof.
  induction hours as [| h hours IH]; cbn; [discriminate |].
  destruct (DT.time_at_hour h) as [tm |]; [| discriminate].
  destruct (now <? DT.combine d tm) eqn:Hlt; zbool.
  - intros [= <-]. exact Hlt.
  - exact IH.
Qed.

Lemma time_at_hour_bounds (h tm : Z) :
  DT.time_at_hour h = Some tm -> 0 <= tm < DT.US_PER_DAY.
Proof.
  unfold DT.time_at_hour.
  destruct ((0 <=? h) && (h <=? 23)) eqn:Hh; [| discriminate].
  apply andb_true_iff in Hh as [Hlow Hhigh]. zbool. intros [= <-]. dt_lia.
Qed.

Lemma find_next_optimal_hour_later (hours : list Z) (now r : datetime) :
  _find_next_optimal_hour hours now = Some r -> now < r.
Proof.
  unfold _find_next_optimal_hour.
  destruct (first_optimal_after (DT.date now) now hours) as [[c |] |] eqn:Hfirst;
    [| | discriminate].
  - intros [= <-]. eapply first_optimal_after_later. exact Hfirst.
  - unfold DT.date_add.
    destruct (DT.date_in_range (DT.date now + 1)); [| discriminate].
    destruct hours as [| h0 hours']; [discriminate |].
    destruct (DT.time_at_hour h0) as [tm |] eqn:Htm; [| discriminate].
    intros [= <-]. apply time_at_hour_bounds in Htm.
    pose proof (day_bounds now). dt_lia.
Qed.

(** Whatever the history and the configuration, a slot computed by the
    [try] block of [_calculate_next_slot] is after the clock reading. *)
Lemma next_slot_later (s : TweetScheduler) (now : datetime) (recent : list datetime)
    (r : datetime) :
  next_slot s now recent = Some r -> now < r.
Proof.
  unfold next_slot.
  destruct (Z.of_nat _ <? tweets_per_day s).
  - destruct (_find_next_optimal_hour (optimal_hours s) now) as [slot |] eqn:Hslot;
      [| discriminate].
    apply find_next_optimal_hour_later in Hslot.
    destruct recent as [| first others]; [intros [= <-]; exact Hslot |].
    destruct (DT.add _ _) as [min_next_time |]; [| discriminate].
    intros [= <-]. lia.
  - destruct (optimal_hours s) as [| first_hour ?]; [discriminate |].
    unfold DT.replace_hour.
    destruct (DT.time_at_hour first_hour) as [tm |] eqn:Htm; [| discriminate].
    apply time_at_hour_bounds in Htm.
    unfold DT.add. destruct (DT.in_range _); [| discriminate].
    intros [= <-]. pose proof (day_bounds now). dt_lia.
Qed.

Lemma get_recent_tweet_times_world (days : Z) (w : world) :
  snd (get_recent_tweet_times days w) = exec utcnow w.
Proof.
  destruct (get_recent_tweet_times_run days w) as [l Hrun]. rewrite Hrun. reflexivity.
Qed.

(** The two ways out of [_calculate_next_slot]: the slot of the [try]
    block after two clock readings, or the fallback from a third one. *)
Lemma calculate_next_slot_cases (w : world) :
  exists recent,
    fst (get_recent_tweet_times 1 (exec utcnow w)) = Ok recent /\
    _calculate_next_slot w
    = match next_slot (scheduler w) (clock w (ticks w)) recent with
      | Some r =>
          (Ok r, {| clock := clock w; ticks := S (S (ticks w));
                    database := database w; scheduler := scheduler w |})
      | None =>
          (match DT.add (clock w (S (S (ticks w)))) (DT.hours 2) with
           | Some r => Ok r
           | None => Raised
           end,
           {| clock := clock w; ticks := S (S (S (ticks w)));
              database := database w; scheduler := scheduler w |})
      end.
Proof.
  destruct (get_recent_tweet_times_run 1 (exec utcnow w)) as [recent Hrun].
  exists recent. split; [rewrite Hrun; reflexivity |].
  unfold _calculate_next_slot. run_monad. rewrite Hrun. run_monad.
  destruct (next_slot (scheduler w) (clock w (ticks w)) recent); run_monad;
    [reflexivity |].
  destruct (DT.add _ _); reflexivity.
Qed.

(** With a clock that leaves room for the fallback, [_calculate_next_slot]
    answers; what it leaves alone, and where the slot lies. *)
Lemma calculate_next_slot_sane (w : world) :
  clock_sane (clock w) ->
  exists r w',
    _calculate_next_slot w = (Ok r, w') /\
    scheduler w' = scheduler w /\ database w' = database w /\ clock w' = clock w /\
    (clock w (ticks w) < r \/ r = clock w (S (S (ticks w))) + DT.hours 2).
Proof.
  intros Hsane.
  destruct (calculate_next_slot_cases w) as (recent & _ & Hcases).
  destruct (next_slot (scheduler w) (clock w (ticks w)) recent) as [r |] eqn:Hslot.
  - eexists _, _. split; [exact Hcases |]. cbn.
    split; [reflexivity |]. split; [reflexivity |]. split; [reflexivity |].
    left. eapply next_slot_later. exact Hslot.
  - unfold DT.add in Hcases.
    rewrite (in_range_sane (clock w) _ 2 Hsane) in Hcases by lia.
    eexists _, _. split; [exact Hcases |]. cbn.
    split; [reflexivity |]. split; [reflexivity |]. split; [reflexivity |].
    right. reflexivity.
Qed.

(** X11: with a clock that stays two hours clear of [datetime.max],
    [_calculate_next_slot] always returns a slot, changes neither the
    scheduler nor the store, and the slot is never in the past: it is after
    the clock reading the call started with, or it is the fallback, two
    hours after the last reading. This holds for every history, quota and
    list of preferred hours. *)
Theorem calculate_next_slot_in_future (w : world) :
  clock_sane (clock w) ->
  exists r w',
    _calculate_next_slot w = (Ok r, w') /\
    scheduler w' = scheduler w /\ database w' = database w /\
    (clock w (ticks w) < r \/ r = clock w (S (S (ticks w))) + DT.hours 2).
Proof.
  intros Hsane.
  destruct (calculate_next_slot_sane w Hsane)
    as (r & w' & Hrun & Hsched & Hdb & _ & Hlater).
  exists r, w'. auto.
Qed.

Lemma calculate_next_slot_in_future_witness :
  clock_sane (clock morning_world) /\
  exists r w',
    _calculate_next_slot morning_world = (Ok r, w') /\
    scheduler w' = scheduler morning_world /\ database w' = database morning_world /\
    (clock morning_world (ticks morning_world) < r \/
     r = clock morning_world (S (S (ticks morning_world))) + DT.hours 2).
Proof.
  split; [exact clock_sane_morning |].
  apply (calculate_next_slot_in_future morning_world). exact clock_sane_morning.
Defined.

(** [add_queued_tweet] in full: SQLite refuses a [priority] or [attempts]
    that does not fit an INTEGER, and then nothing is written. *)
Lemma add_queued_tweet_run (t : QueuedTweet) (w : world) :
  add_queued_tweet t w
  = match database w with
    | JSONFallback j =>
        (Ok true,
         with_database w
           (JSONFallback
              (json_set_queued_tweets j (json_queued_tweets j ++ [queued_row_of t]))))
    | SQLite s =>
        if in_int64 (priority t) && in_int64 (attempts t) then
          (Ok true,
           with_database w
             (SQLite (sql_set_queued_tweets s
                        (List.filter (queued_id_differs (id t)) (sql_queued_tweets s)
                           ++ [queued_row_of t]))))
        else (Ok false, w)
    end.
Proof.
  unfold add_queued_tweet, with_database. run_monad.
  destruct (database w); [| reflexivity].
  destruct (in_int64 (priority t) && in_int64 (attempts t)); reflexivity.
Qed.

(** Projections of a tweet written out as a record, and of the world. *)
Ltac tweet_fields := cbn [database scheduler clock ticks priority attempts].

(** X8: with a clock that stays two hours clear of [datetime.max],
    [add_to_queue] never raises. It returns the id it built from the first
    clock reading; the queue afterwards is the old queue with one new tweet
    (no attempts yet, at most three, scheduled at a slot that is not in the
    past), sorted and saved to the queue file. The store then holds the new
    tweet's row last in [queued_tweets], SQLite having replaced any row of
    the same id; but SQLite refuses a [priority] that does not fit a 64-bit
    INTEGER, and then the store is left as it was although the tweet is
    queued and its id returned. *)
Theorem add_to_queue_enqueues (tool_data : gmap string json) (tweet_content : string)
    (priority : Z) (w : world) :
  clock_sane (clock w) ->
  let w' := exec (add_to_queue tool_data tweet_content priority) w in
  exists slot,
    let t := {| id := make_tweet_id tool_data (clock w (ticks w));
                tool_data := tool_data; tweet_content := tweet_content;
                created_at := clock w (S (ticks w));
                scheduled_for := Some slot; priority := priority;
                attempts := 0; max_attempts := 3 |} in
    let row := {| q_tweet_id := make_tweet_id tool_data (clock w (ticks w));
                  q_tool_data := tool_data; q_content := tweet_content;
                  q_created_at := clock w (S (ticks w));
                  q_scheduled_for := Some slot; q_priority := priority;
                  q_attempts := 0 |} in
    fst (add_to_queue tool_data tweet_content priority w) = Ok (id t) /\
    (clock w (S (S (ticks w))) < slot \/
     slot = clock w (S (S (S (S (ticks w))))) + DT.hours 2) /\
    Permutation (tweet_queue (scheduler w')) (t :: tweet_queue (scheduler w)) /\
    StronglySorted queue_le (tweet_queue (scheduler w')) /\
    saved (scheduler w') /\
    stored_queue (database w')
    = match database w with
      | JSONFallback j => json_queued_tweets j ++ [row]
      | SQLite s =>
          if in_int64 priority
          then List.filter (fun r => negb (bool_decide (q_tweet_id r = id t)))
                 (sql_queued_tweets s) ++ [row]
          else sql_queued_tweets s
      end.
Proof.
  intros Hsane w'. subst w'. unfold add_to_queue. run_monad.
  match goal with
  | |- context [_calculate_next_slot ?v] =>
      destruct (calculate_next_slot_sane v Hsane)
        as (slot & w1 & Hslot & Hsched & Hdb & _ & Hlater)
  end.
  rewrite Hslot. run_monad. exists slot. cbn [id].
  unfold _sort_queue, _save_queue. run_monad.
  rewrite add_queued_tweet_run. unfold with_database.
  tweet_fields. rewrite Hdb.
  change (in_int64 0) with true. rewrite andb_true_r.
  assert (Hqueue :
            forall q : list QueuedTweet,
              let t := {| id := make_tweet_id tool_data (clock w (ticks w));
                          tool_data := tool_data; tweet_content := tweet_content;
                          created_at := clock w (S (ticks w));
                          scheduled_for := Some slot; priority := priority;
                          attempts := 0; max_attempts := 3 |} in
              Permutation (sort_by tweet_leb (q ++ [t])) (t :: q) /\
              StronglySorted queue_le (sort_by tweet_leb (q ++ [t]))).
  { intros q t. split; [| apply sort_queue_sorted].
    etransitivity; [apply sort_queue_sorted |].
    apply Permutation_sym, Permutation_cons_append. }
  specialize (Hqueue (tweet_queue (scheduler w))). cbv zeta in Hqueue.
  destruct Hqueue as [Hperm Hsorted].
  destruct (database w) as [s | j]; [destruct (in_int64 priority) |];
    cbn [fst snd scheduler database tweet_queue set_tweet_queue set_queue_file
         stored_queue sql_set_queued_tweets sql_queued_tweets
         json_set_queued_tweets json_queued_tweets];
    rewrite Hsched;
    cbn [tweet_queue set_tweet_queue set_queue_file];
    (split; [reflexivity |]; split; [exact Hlater |]; split; [exact Hperm |];
     split; [exact Hsorted |]; split; [reflexivity |]; reflexivity).
Qed.

Lemma add_to_queue_enqueues_witness :
  exists slot,
    fst (add_to_queue kubectl_data "New tool: kubectl" 1 morning_world)
    = Ok "kubectl_20240115_080000"%string /\
    In {| q_tweet_id := "kubectl_20240115_080000"; q_tool_data := kubectl_data;
          q_content := "New tool: kubectl"; q_created_at := morning;
          q_scheduled_for := Some slot; q_priority := 1; q_attempts := 0 |}
       (stored_queue
          (database (exec (add_to_queue kubectl_data "New tool: kubectl" 1) morning_world))).
Proof.
  destruct (add_to_queue_enqueues kubectl_data "New tool: kubectl" 1 morning_world
              clock_sane_morning) as (slot & Hid & _ & _ & _ & _ & Hstore).
  exists slot. split; [exact Hid |].
  rewrite Hstore. cbn. left. reflexivity.
Defined.

Lemma same_but_last_tweet_time_rows (d d' : Database) :
  same_but_last_tweet_time d d' ->
  stored_tools d' = stored_tools d /\ stored_posted d' = stored_posted d /\
  stored_queue d' = stored_queue d.
Proof.
  destruct d as [s | j], d' as [s' | j']; cbn; try contradiction;
    intros (Htools & Hposted & Hqueued & _); auto.
Qed.

Lemma sqlite_text_null (v : json) :
  bool_decide (sqlite_text v = JNull) = bool_decide (v = JNull).
Proof. destruct v as [| [|] | z | x]; reflexivity. Qed.

(** What [mark_tweet_posted] does to the store: the fallback files always
    take the new row; SQLite stores it with its values as text, or refuses
    it and then changes nothing. *)
Lemma mark_tweet_posted_run (tweet_id : string) (r : gmap string json) (w : world) :
  let w' := exec (mark_tweet_posted tweet_id r) w in
  scheduler w' = scheduler w /\ clock w' = clock w /\
  stored_tools (database w') = stored_tools (database w) /\
  match database w with
  | JSONFallback j =>
      fst (mark_tweet_posted tweet_id r w) = Ok true /\
      ticks w' = S (ticks w) /\
      stored_posted (database w')
      = json_posted_tweets j ++ [posted_row_of tweet_id r (clock w (ticks w))] /\
      stored_queue (database w')
      = List.filter (queued_id_differs tweet_id) (json_queued_tweets j)
  | SQLite s =>
      ticks w' = S (S (ticks w)) /\
      if sqlite_refuses_post s tweet_id r
      then fst (mark_tweet_posted tweet_id r w) = Ok false /\
           database w' = database w
      else fst (mark_tweet_posted tweet_id r w) = Ok true /\
           stored_posted (database w')
           = sql_posted_tweets s
               ++ [sqlite_posted_row_of tweet_id r (clock w (S (ticks w)))] /\
           stored_queue (database w')
           = List.filter (queued_id_differs tweet_id) (sql_queued_tweets s)
  end.
Proof.
  intros w'. subst w'. unfold mark_tweet_posted, sqlite_refuses_post. run_monad.
  destruct (database w) as [s | j] eqn:Hdb; run_monad.
  - cbn [p_content sqlite_posted_row_of]. rewrite sqlite_text_null.
    match goal with
    | |- context [if ?c then _ else _] => destruct c
    end; run_monad; cbn; rewrite ?Hdb; repeat split; reflexivity.
  - cbn. repeat split; reflexivity.
Qed.

Lemma update_last_tweet_time_run (w : world) :
  let w' := exec update_last_tweet_time w in
  scheduler w' = scheduler w /\ clock w' = clock w /\
  stored_tools (database w') = stored_tools (database w) /\
  stored_posted (database w') = stored_posted (database w) /\
  stored_queue (database w') = stored_queue (database w).
Proof.
  intros w'. subst w'.
  destruct (same_scheduler_update_last_tweet_time w) as [Hsched Hclock].
  destruct (same_but_last_tweet_time_rows _ _ (update_last_tweet_time_store w))
    as (Htools & Hposted & Hqueued).
  unfold exec. auto.
Qed.

Lemma update_last_tweet_time_ok (w : world) :
  exists b, fst (update_last_tweet_time w) = Ok b.
Proof. apply try_except_ret_ok. Qed.

Lemma mark_tweet_posted_backend (tweet_id : string) (r : gmap string json) (w : world) :
  use_json_fallback (database (exec (mark_tweet_posted tweet_id r) w))
  = use_json_fallback (database w).
Proof.
  unfold mark_tweet_posted. run_monad.
  destruct (database w) as [s | j] eqn:Hdb; run_monad; [| reflexivity].
  match goal with
  | |- context [if ?c then _ else _] => destruct c
  end; run_monad; cbn; rewrite ?Hdb; reflexivity.
Qed.

Lemma update_last_tweet_time_backend (w : world) :
  use_json_fallback (database (exec update_last_tweet_time w))
  = use_json_fallback (database w).
Proof.
  pose proof (update_last_tweet_time_store w) as H.
  destruct (database w), (database (exec update_last_tweet_time w)); cbn in *;
    tauto || reflexivity.
Qed.

(** The successful path of [post_next_tweet], with what it leaves alone. *)
Lemma post_next_tweet_accepted (r : gmap string json) (w : world)
    (next_tweet : QueuedTweet) (rest : list QueuedTweet) :
  tweet_queue (scheduler w) = next_tweet :: rest ->
  r <> ∅ ->
  let w' := exec (post_next_tweet (Some r)) w in
  (clock w' = clock w /\
   use_json_fallback (database w') = use_json_fallback (database w)) /\
  fst (post_next_tweet (Some r) w) = Ok true /\
  tweet_queue (scheduler w') = rest /\
  saved (scheduler w') /\
  stored_tools (database w') = stored_tools (database w) /\
  match database w with
  | JSONFallback j =>
      stored_posted (database w')
      = json_posted_tweets j ++ [posted_row_of (id next_tweet) r (clock w (ticks w))] /\
      stored_queue (database w')
      = List.filter (queued_id_differs (id next_tweet)) (json_queued_tweets j)
  | SQLite s =>
      if sqlite_refuses_post s (id next_tweet) r
      then stored_posted (database w') = sql_posted_tweets s /\
           stored_queue (database w') = sql_queued_tweets s
      else stored_posted (database w')
           = sql_posted_tweets s
               ++ [sqlite_posted_row_of (id next_tweet) r (clock w (S (ticks w)))] /\
           stored_queue (database w')
           = List.filter (queued_id_differs (id next_tweet)) (sql_queued_tweets s)
  end.
Proof.
  intros Hq Hr w'. subst w'. unfold post_next_tweet. run_monad. rewrite Hq.
  unfold truthy. rewrite bool_decide_eq_false_2 by exact Hr. cbn [negb].
  unfold _save_queue. run_monad.
  match goal with
  | |- context [mark_tweet_posted ?i ?x ?v] =>
      pose proof (mark_tweet_posted_run i x v) as Hmark;
      cbv zeta in Hmark; unfold exec in Hmark;
      cbn [clock ticks database scheduler] in Hmark;
      pose proof (mark_tweet_posted_backend i x v) as Hback1;
      unfold exec in Hback1; cbn [clock ticks database scheduler] in Hback1;
      destruct (mark_tweet_posted i x v) as [[b |] w1] eqn:Hrun
  end; cbn [fst snd] in Hmark, Hback1.
  2:{ exfalso. destruct Hmark as (_ & _ & _ & Hmark).
      destruct (database w) as [s | j].
      - destruct Hmark as [_ Hmark].
        destruct (sqlite_refuses_post _ _ _); destruct Hmark; discriminate.
      - destruct Hmark; discriminate. }
  destruct Hmark as (Hsched1 & Hclock1 & Htools1 & Hmark).
  run_monad.
  pose proof (update_last_tweet_time_run w1) as Hupd. cbv zeta in Hupd.
  pose proof (update_last_tweet_time_backend w1) as Hback2.
  unfold exec in Hupd, Hback2.
  destruct (update_last_tweet_time_ok w1) as [b' Hok].
  destruct (update_last_tweet_time w1) as [[b'' |] w2]; [| discriminate].
  cbn [fst snd] in *. destruct Hupd as (Hsched2 & Hclock2 & Htools2 & Hposted2 & Hqueued2).
  split; [split; [rewrite Hclock2, Hclock1; reflexivity
                 | rewrite Hback2, Hback1; reflexivity] |].
  rewrite Hsched2, Hsched1, Htools2, Htools1, Hposted2, Hqueued2.
  cbn [tweet_queue set_tweet_queue set_queue_file saved queue_file].
  split; [reflexivity |]. split; [reflexivity |]. split; [reflexivity |].
  split; [reflexivity |].
  destruct (database w) as [s | j].
  - destruct Hmark as [_ Hmark].
    destruct (sqlite_refuses_post _ _ _).
    + destruct Hmark as [_ ->]. split; reflexivity.
    + destruct Hmark as (_ & -> & ->). split; reflexivity.
  - destruct Hmark as (_ & _ & -> & ->). split; reflexivity.
Qed.

(** The time [get_last_tweet_time] answers is that of a latest row of the
    posted tweets. *)
Lemma latest_posted_at_rows (d : Database) (last : datetime) :
  latest_posted_at d = Some last <->
  exists row,
    In row (stored_posted d) /\
    (forall other, In other (stored_posted d) -> p_posted_at other <= p_posted_at row) /\
    p_posted_at row = last.
Proof.
  assert (Hlist : forall l : list posted_row,
            option_map p_posted_at (max_by p_posted_at l) = Some last <->
            exists row,
              In row l /\
              (forall other, In other l -> p_posted_at other <= p_posted_at row) /\
              p_posted_at row = last).
  { intros l. split.
    - destruct (max_by p_posted_at l) as [m |] eqn:Hmax; [| discriminate].
      cbn. intros Hlast. injection Hlast as <-.
      destruct (max_by_Some _ _ _ Hmax) as [Hin Hle]. exists m. auto.
    - intros (row & Hin & Hle & <-).
      destruct (max_by p_posted_at l) as [m |] eqn:Hmax.
      + destruct (max_by_Some _ _ _ Hmax) as [Hin' Hle'].
        cbn. f_equal. specialize (Hle m Hin'). specialize (Hle' row Hin). lia.
      + apply max_by_None in Hmax. subst l. destruct Hin. }
  destruct d as [s | j]; apply Hlist.
Qed.

(** C6: [should_post_tweet] never raises. It answers [True] exactly when
    the head of the queue has a [scheduled_for] that is not after now, or
    the queue is not empty and more than [min_interval_hours] passed since
    the latest row of the posted tweets of the store; on an empty queue it
    answers [False]. The latest row need not be the last successful post:
    on SQLite a post of a tweet whose id is already among the posted tweets
    succeeds, [post_next_tweet] answers [True] and takes the tweet from the
    queue, and the posted tweets are as before, so the time is still
    measured from an older post. *)
Theorem should_post_tweet_due (w : world) :
  let now := clock w (ticks w) in
  (exists b : bool,
     fst (should_post_tweet w) = Ok b /\
     (tweet_queue (scheduler w) = [] -> b = false) /\
     (b = true <->
      exists next_tweet rest,
        tweet_queue (scheduler w) = next_tweet :: rest /\
        ((exists t, scheduled_for next_tweet = Some t /\ t <= now) \/
         (exists row,
            In row (stored_posted (database w)) /\
            (forall other, In other (stored_posted (database w)) ->
                           p_posted_at other <= p_posted_at row) /\
            min_interval_hours (scheduler w) * 3600 * 1000000
            < now - p_posted_at row)))) /\
  (forall (r : gmap string json) (next_tweet : QueuedTweet) (rest : list QueuedTweet)
          (s : sqlite_db) (row : posted_row),
     database w = SQLite s ->
     tweet_queue (scheduler w) = next_tweet :: rest ->
     r <> ∅ ->
     In row (sql_posted_tweets s) ->
     p_tweet_id row = id next_tweet ->
     let w' := exec (post_next_tweet (Some r)) w in
     fst (post_next_tweet (Some r) w) = Ok true /\
     tweet_queue (scheduler w') = rest /\
     stored_posted (database w') = sql_posted_tweets s).
Proof.
  intros now. split.
  - destruct (should_post_tweet_answer w) as (b & Hb & Hempty & Hdue).
    fold now in Hdue. exists b. split; [exact Hb |]. split; [exact Hempty |].
    rewrite Hdue. split.
    + intros (next_tweet & rest & Hq & [Hsched | (last & Hlast & Hgap)]);
        exists next_tweet, rest; (split; [exact Hq |]); [left; exact Hsched |].
      right. apply latest_posted_at_rows in Hlast.
      destruct Hlast as (row & Hin & Hle & <-). exists row. auto.
    + intros (next_tweet & rest & Hq & [Hsched | (row & Hin & Hle & Hgap)]);
        exists next_tweet, rest; (split; [exact Hq |]); [left; exact Hsched |].
      right. exists (p_posted_at row). split; [| exact Hgap].
      apply latest_posted_at_rows. exists row. auto.
  - intros r next_tweet rest s row Hdb Hq Hr Hin Hid w'.
    destruct (post_next_tweet_accepted r w next_tweet rest Hq Hr)
      as (_ & Hok & Hrest & _ & _ & Hstore).
    fold w' in Hrest, Hstore. rewrite Hdb in Hstore.
    assert (Hrefused : sqlite_refuses_post s (id next_tweet) r = true).
    { unfold sqlite_refuses_post.
      assert (Hex : existsb (fun x => bool_decide (p_tweet_id x = id next_tweet))
                      (sql_posted_tweets s) = true).
      { apply existsb_exists. exists row. split; [exact Hin |].
        apply bool_decide_eq_true_2, Hid. }
      rewrite Hex. rewrite orb_true_r. reflexivity. }
    rewrite Hrefused in Hstore. destruct Hstore as [Hposted _].
    split; [exact Hok |]. split; [exact Hrest | exact Hposted].
Qed.

(** A tweet whose id is already among the posted tweets is posted at 08:00
    and the store records nothing of it. The tweet now at the head is due
    the next day, and still [should_post_tweet] answers [True] at 08:00: it
    measures from the row of 02:00. *)
Lemma should_post_tweet_due_witness :
  let posted := posted_at_time "kubectl_20240115_020000" (at_time 2024 1 15 2 0 0) in
  let s := {| sql_tools := []; sql_posted_tweets := [posted];
              sql_queued_tweets := []; sql_bot_state := ∅ |} in
  let again := sample_tweet "kubectl_20240115_020000" 1 (Some morning)
                 (at_time 2024 1 15 2 0 0) 0 in
  let later := sample_tweet "helm_20240115_070000" 1 (Some (at_time 2024 1 16 9 0 0))
                 (at_time 2024 1 15 7 0 0) 0 in
  let w := world_at morning (SQLite s) (scheduler_with_queue [again; later]) in
  let r := <["id" := JStr "1746800000000000001"]>
             (<["text" := JStr "New tool: kubectl"]> ∅) : gmap string json in
  let w' := exec (post_next_tweet (Some r)) w in
  fst (post_next_tweet (Some r) w) = Ok true /\
  tweet_queue (scheduler w') = [later] /\
  stored_posted (database w') = [posted] /\
  clock w' (ticks w') = morning /\
  fst (should_post_tweet w') = Ok true.
Proof.
  intros posted s again later w r w'.
  assert (Hr : r <> ∅) by (apply insert_non_empty).
  destruct (proj2 (should_post_tweet_due w) r again [later] s posted
              eq_refl eq_refl Hr (or_introl eq_refl) eq_refl)
    as (Hok & Hrest & Hposted).
  split; [exact Hok |]. split; [exact Hrest |]. split; [exact Hposted |].
  split; vm_compute; reflexivity.
Defined.

(** X9: when Twitter accepted the head of the queue, [post_next_tweet]
    returns [True], the head leaves the queue and the queue file, and the
    tools of the store are untouched. The fallback files then record the
    post, with the values of Twitter's answer as they are and stamped with
    the clock reading, and drop the queued rows of that id. SQLite does the
    same, storing the id, tool name and text of the answer as text, unless
    it refuses the insert: when one of these three values is an integer
    outside 64 bits, when the tweet's id is already among the posted tweets
    or when the text of the answer is null. Then the store keeps its posted
    and queued rows as they were, although the call still returns
    [True]. *)
Theorem post_next_tweet_success (r : gmap string json) (w : world)
    (next_tweet : QueuedTweet) (rest : list QueuedTweet) :
  tweet_queue (scheduler w) = next_tweet :: rest ->
  r <> ∅ ->
  let w' := exec (post_next_tweet (Some r)) w in
  let twitter_id := dict_get r "id" JNull in
  let tool_name := dict_get r "tool_name" (JStr "Unknown") in
  let content := dict_get r "text" (JStr "") in
  fst (post_next_tweet (Some r) w) = Ok true /\
  tweet_queue (scheduler w') = rest /\
  saved (scheduler w') /\
  stored_tools (database w') = stored_tools (database w) /\
  match database w with
  | JSONFallback j =>
      stored_posted (database w')
      = json_posted_tweets j
          ++ [{| p_tweet_id := id next_tweet; p_twitter_id := twitter_id;
                 p_tool_name := tool_name; p_content := content;
                 p_posted_at := clock w (ticks w); p_engagement_data := "{}" |}] /\
      stored_queue (database w')
      = List.filter (fun row => negb (bool_decide (q_tweet_id row = id next_tweet)))
          (json_queued_tweets j)
  | SQLite s =>
      if negb (sqlite_binds twitter_id && sqlite_binds tool_name && sqlite_binds content)
         || existsb (fun row => bool_decide (p_tweet_id row = id next_tweet))
              (sql_posted_tweets s)
         || bool_decide (content = JNull)
      then stored_posted (database w') = sql_posted_tweets s /\
           stored_queue (database w') = sql_queued_tweets s
      else stored_posted (database w')
           = sql_posted_tweets s
               ++ [{| p_tweet_id := id next_tweet;
                      p_twitter_id := sqlite_text twitter_id;
                      p_tool_name := sqlite_text tool_name;
                      p_content := sqlite_text content;
                      p_posted_at := clock w (S (ticks w));
                      p_engagement_data := "{}" |}] /\
           stored_queue (database w')
           = List.filter (fun row => negb (bool_decide (q_tweet_id row = id next_tweet)))
               (sql_queued_tweets s)
  end.
Proof.
  intros Hq Hr w' twitter_id tool_name content.
  pose proof (post_next_tweet_accepted r w next_tweet rest Hq Hr) as Hpost.
  cbv zeta in Hpost. fold w' in Hpost.
  destruct Hpost as (_ & Hret & Hqueue & Hsaved & Htools & Hstore).
  split; [exact Hret |]. split; [exact Hqueue |]. split; [exact Hsaved |].
  split; [exact Htools |].
  destruct (database w) as [s | j]; exact Hstore.
Qed.

Lemma post_next_tweet_success_witness :
  let r : gmap string json :=
    <["id" := JInt 1746800000000000000]> (<["text" := JStr "New tool: kubectl"]> ∅) in
  let t := sample_tweet "kubectl_20240115_080000" 1 (Some morning) morning 0 in
  let w := world_at morning (SQLite empty_sqlite) (scheduler_with_queue [t]) in
  fst (post_next_tweet (Some r) w) = Ok true /\
  tweet_queue (scheduler (exec (post_next_tweet (Some r)) w)) = [] /\
  stored_posted (database (exec (post_next_tweet (Some r)) w))
  = [{| p_tweet_id := "kubectl_20240115_080000";
        p_twitter_id := JStr "1746800000000000000";
        p_tool_name := JStr "Unknown"; p_content := JStr "New tool: kubectl";
        p_posted_at := morning; p_engagement_data := "{}" |}].
Proof.
  intros r t w.
  destruct (post_next_tweet_success r w t [] eq_refl (insert_non_empty _ _ _))
    as (Hret & Hqueue & _ & _ & Hposted & _).
  split; [exact Hret |]. split; [exact Hqueue | exact Hposted].
Defined.

(** X10: [get_recent_tweet_times] reads the clock once, never raises and
    changes nothing else. It answers the posting times of the store that
    are not before the cutoff [now - days]: in file order from the fallback
    files, in ascending order from SQLite, so the two backends give the same
    times up to order. When the cutoff is not a representable datetime the
    answer is the empty list. *)
Theorem get_recent_tweet_times_spec (days : Z) (w : world) :
  exists l,
    get_recent_tweet_times days w = (Ok l, exec utcnow w) /\
    match DT.add (clock w (ticks w)) (- DT.days days) with
    | Some cutoff =>
        Permutation l
          (List.filter (fun posted_at => cutoff <=? posted_at)
             (map p_posted_at (stored_posted (database w)))) /\
        (forall t, In t l <->
                   In t (map p_posted_at (stored_posted (database w))) /\ cutoff <= t) /\
        if use_json_fallback (database w)
        then l = List.filter (fun posted_at => cutoff <=? posted_at)
                   (map p_posted_at (stored_posted (database w)))
        else StronglySorted Z.le l
    | None => l = []
    end.
Proof.
  unfold get_recent_tweet_times. run_monad.
  destruct (DT.add (clock w (ticks w)) (- DT.days days)) as [cutoff |]; run_monad;
    [| exists []; split; reflexivity].
  assert (Hin : forall (l : list datetime) t,
            In t (List.filter (fun posted_at => cutoff <=? posted_at) l)
            <-> In t l /\ cutoff <= t).
  { intros l t. rewrite List.filter_In, Z.leb_le. reflexivity. }
  destruct (database w) as [s | j]; cbn [stored_posted use_json_fallback].
  - eexists. split; [reflexivity |].
    split; [apply sort_by_permutation |]. split.
    + intros t. rewrite <- Hin. split; apply Permutation_in;
        [| apply Permutation_sym]; apply sort_by_permutation.
    + eapply StronglySorted_impl; [| apply sort_by_sorted].
      * intros x y. apply Z.leb_le.
      * intros x y H. zbool. apply Z.leb_le. lia.
      * intros x y z H1 H2. zbool. apply Z.leb_le. lia.
  - eexists. split; [reflexivity |].
    split; [reflexivity |]. split; [apply Hin | reflexivity].
Qed.

(** *** The slot and the queue *)

Lemma get_recent_tweet_times_same_store (days : Z) (w v : world) :
  database v = database w -> clock v (ticks v) = clock w (ticks w) ->
  fst (get_recent_tweet_times days v) = fst (get_recent_tweet_times days w).
Proof.
  intros Hdb Hnow. unfold get_recent_tweet_times. run_monad.
  rewrite Hdb, Hnow.
  destruct (DT.add (clock w (ticks w)) (- DT.days days)); run_monad; [| reflexivity].
  destruct (database w); reflexivity.
Qed.

(** X12: the slot that [_calculate_next_slot] returns does not depend on
    the queue: it is computed from the clock, the posted tweets of the store
    and the configuration only. Tweets that are enqueued or rescheduled
    while clock and posting history stay the same therefore all get the same
    slot. *)
Theorem calculate_next_slot_ignores_queue (w : world) (q : list QueuedTweet)
    (file : option (list queue_item)) :
  fst (_calculate_next_slot
         {| clock := clock w; ticks := ticks w; database := database w;
            scheduler := set_queue_file (set_tweet_queue (scheduler w) q) file |})
  = fst (_calculate_next_slot w).
Proof.
  set (v := {| clock := clock w; ticks := ticks w; database := database w;
               scheduler := set_queue_file (set_tweet_queue (scheduler w) q) file |}).
  destruct (calculate_next_slot_cases w) as (recent & Hrecent & ->).
  destruct (calculate_next_slot_cases v) as (recent' & Hrecent' & ->).
  assert (Hsame : recent' = recent).
  { rewrite (get_recent_tweet_times_same_store 1 (exec utcnow w) (exec utcnow v))
      in Hrecent' by reflexivity.
    congruence. }
  subst recent'. subst v. cbn [clock ticks database scheduler].
  change (next_slot (set_queue_file (set_tweet_queue (scheduler w) q) file))
    with (next_slot (scheduler w)).
  destruct (next_slot (scheduler w) (clock w (ticks w)) recent); reflexivity.
Qed.

(** The slot depends on the clock, the readings made so far, the store and
    the configuration, and on nothing else of the scheduler. *)
Lemma calculate_next_slot_same (w v : world) :
  clock v = clock w -> ticks v = ticks w -> database v = database w ->
  tweets_per_day (scheduler v) = tweets_per_day (scheduler w) ->
  optimal_hours (scheduler v) = optimal_hours (scheduler w) ->
  min_interval_hours (scheduler v) = min_interval_hours (scheduler w) ->
  fst (_calculate_next_slot v) = fst (_calculate_next_slot w).
Proof.
  destruct w as [c k d [n hs m q f]], v as [c' k' d' [n' hs' m' q' f']]. cbn.
  intros -> -> -> -> -> ->.
  match goal with
  | |- fst (_calculate_next_slot ?v) = fst (_calculate_next_slot ?w) =>
      destruct (calculate_next_slot_cases w) as (recent & Hrecent & ->);
      destruct (calculate_next_slot_cases v) as (recent' & Hrecent' & ->);
      assert (Hsame : recent' = recent)
        by (rewrite (get_recent_tweet_times_same_store 1 (exec utcnow w) (exec utcnow v))
              in Hrecent' by reflexivity; congruence)
  end.
  subst recent'. cbn [clock ticks database scheduler].
  change (next_slot {| tweets_per_day := n; optimal_hours := hs; min_interval_hours := m;
                       tweet_queue := q'; queue_file := f' |})
    with (next_slot {| tweets_per_day := n; optimal_hours := hs; min_interval_hours := m;
                       tweet_queue := q; queue_file := f |}).
  match goal with
  | |- context [match ?x with Some _ => _ | None => _ end] => destruct x
  end; reflexivity.
Qed.

Lemma calculate_next_slot_ticks (w : world) :
  (ticks w <= ticks (snd (_calculate_next_slot w)))%nat.
Proof.
  destruct (calculate_next_slot_cases w) as (recent & _ & ->).
  destruct (next_slot (scheduler w) (clock w (ticks w)) recent); cbn; lia.
Qed.

(** The loop of [update_posting_schedule] gives every scheduled tweet the
    slot that [_calculate_next_slot] answers at that point of the loop, and
    leaves everything else of the tweets as it was. *)
Lemma reschedule_all_spec (todo done : list QueuedTweet) (w : world) :
  clock_sane (clock w) ->
  tweet_queue (scheduler w) = done ++ todo ->
  exists w' todo',
    reschedule_all done todo w = (Ok tt, w') /\
    clock w' = clock w /\ database w' = database w /\
    scheduler w' = set_tweet_queue (scheduler w) (done ++ todo') /\
    Forall2 (fun t t' =>
               match scheduled_for t with
               | None => t' = t
               | Some _ =>
                   exists (k : nat) (slot : datetime),
                     (ticks w <= k)%nat /\
                     fst (_calculate_next_slot
                            {| clock := clock w; ticks := k; database := database w;
                               scheduler := scheduler w |}) = Ok slot /\
                     t' = set_scheduled_for t (Some slot)
               end)
      todo todo'.
Proof.
  revert done w. induction todo as [| tweet rest IH]; intros done w Hsane Hq; cbn.
  - exists w, []. split; [reflexivity |]. split; [reflexivity |].
    split; [reflexivity |]. split; [| constructor].
    rewrite <- Hq. destruct (scheduler w); reflexivity.
  - destruct (scheduled_for tweet) as [old |] eqn:Hold.
    + run_monad.
      pose proof (calculate_next_slot_ticks w) as Hticks.
      destruct (calculate_next_slot_sane w Hsane)
        as (r & w1 & Hrun & Hsched & Hdb & Hclock & _).
      rewrite Hrun in Hticks |- *. cbn [snd] in Hticks.
      run_monad.
      match goal with
      | |- context [reschedule_all ?d rest ?v] =>
          destruct (IH d v) as (w2 & todo' & -> & Hclock2 & Hdb2 & Hsched2 & Hall)
      end.
      { cbn. rewrite Hclock. exact Hsane. }
      { cbn. rewrite <- app_assoc. reflexivity. }
      cbn in Hclock2, Hdb2, Hsched2.
      exists w2, (set_scheduled_for tweet (Some r) :: todo').
      split; [reflexivity |]. split; [congruence |]. split; [congruence |].
      split.
      * rewrite Hsched2, Hsched, <- app_assoc. reflexivity.
      * constructor.
        -- rewrite Hold. exists (ticks w), r. split; [lia |]. split; [| reflexivity].
           rewrite (calculate_next_slot_same w) by reflexivity.
           rewrite Hrun. reflexivity.
        -- eapply Forall2_impl; [exact Hall |]. cbn.
           intros t t' Ht. destruct (scheduled_for t); [| exact Ht].
           destruct Ht as (k & slot & Hk & Hslot & Ht').
           exists k, slot. split; [lia |]. split; [| exact Ht'].
           rewrite <- Hslot. apply calculate_next_slot_same; cbn; congruence.
    + destruct (IH (done ++ [tweet]) w Hsane)
        as (w2 & todo' & -> & Hclock2 & Hdb2 & Hsched2 & Hall).
      { rewrite <- app_assoc. exact Hq. }
      exists w2, (tweet :: todo').
      split; [reflexivity |]. split; [exact Hclock2 |]. split; [exact Hdb2 |].
      split; [rewrite Hsched2, <- app_assoc; reflexivity |].
      constructor; [| exact Hall]. rewrite Hold. reflexivity.
Qed.

(** X13: [update_posting_schedule] never raises and leaves the store
    alone. For a quota other than 0 (and a clock that stays two hours clear
    of [datetime.max]) the scheduler takes the new quota, hours and the
    spacing [max(24 // n - 1, 2)]; every tweet that had a slot gets the
    slot that [_calculate_next_slot] answers under the new quota, hours and
    spacing at a clock reading of the loop, a tweet without slot is left as
    it is, nothing else of a tweet changes, and the queue is sorted and
    saved. For the quota 0 the division fails after quota and hours are
    already set: the scheduler keeps the new quota 0 and the new hours with
    the old spacing, and queue and queue file stay as they were. *)
Theorem update_posting_schedule_spec (n : Z) (hours : list Z) (w : world) :
  clock_sane (clock w) ->
  let s := scheduler w in
  let w' := exec (update_posting_schedule n hours) w in
  let s' := scheduler w' in
  fst (update_posting_schedule n hours w) = Ok tt /\
  tweets_per_day s' = n /\ optimal_hours s' = hours /\
  database w' = database w /\
  if n =? 0
  then min_interval_hours s' = min_interval_hours s /\
       tweet_queue s' = tweet_queue s /\ queue_file s' = queue_file s /\
       ticks w' = ticks w
  else min_interval_hours s' = Z.max (24 / n - 1) 2 /\
       saved s' /\ StronglySorted queue_le (tweet_queue s') /\
       exists moved,
         Permutation (tweet_queue s') moved /\
         Forall2 (fun t t' =>
                    match scheduled_for t with
                    | None => t' = t
                    | Some _ =>
                        exists (k : nat) (slot : datetime),
                          (ticks w <= k)%nat /\
                          fst (_calculate_next_slot
                                 {| clock := clock w; ticks := k; database := database w;
                                    scheduler :=
                                      {| tweets_per_day := n; optimal_hours := hours;
                                         min_interval_hours := Z.max (24 / n - 1) 2;
                                         tweet_queue := tweet_queue s;
                                         queue_file := queue_file s |} |})
                          = Ok slot /\
                          t' = {| id := id t; tool_data := tool_data t;
                                  tweet_content := tweet_content t;
                                  created_at := created_at t;
                                  scheduled_for := Some slot;
                                  priority := priority t; attempts := attempts t;
                                  max_attempts := max_attempts t |}
                    end)
           (tweet_queue s) moved.
Proof.
  intros Hsane s w' s'. subst s w' s'.
  unfold update_posting_schedule, interval_for. run_monad.
  destruct (n =? 0); run_monad; [cbn; repeat split; reflexivity |].
  match goal with
  | |- context [reschedule_all [] ?q ?v] =>
      destruct (reschedule_all_spec q [] v)
        as (w1 & moved & -> & Hclock & Hdb & Hsched & Hmoved);
      [exact Hsane | reflexivity |]
  end.
  run_monad. unfold _sort_queue, _save_queue. run_monad.
  rewrite Hsched. cbn in Hdb |- *.
  split; [reflexivity |]. split; [reflexivity |]. split; [reflexivity |].
  split; [exact Hdb |]. split; [reflexivity |]. split; [reflexivity |].
  split; [apply sort_queue_sorted |].
  exists moved. split; [apply sort_queue_sorted | exact Hmoved].
Qed.

(** At 08:00 the quota becomes 2 and the hours 10 and 22: the spacing is 11
    hours, the tweet that was due at 08:00 moves to 10:00 and the tweet
    without slot stays without. *)
Lemma update_posting_schedule_spec_witness :
  let w := world_at morning (SQLite empty_sqlite)
             (scheduler_with_queue
                [sample_tweet "kubectl_20240115_080000" 1 (Some morning) morning 0;
                 sample_tweet "helm_20240115_080000" 1 None morning 0]) in
  let s' := scheduler (exec (update_posting_schedule 2 [10; 22]) w) in
  tweets_per_day s' = 2 /\ optimal_hours s' = [10; 22] /\ min_interval_hours s' = 11 /\
  StronglySorted queue_le (tweet_queue s') /\
  map (fun t => (id t, scheduled_for t)) (tweet_queue s')
  = [("kubectl_20240115_080000", Some (at_time 2024 1 15 10 0 0));
     ("helm_20240115_080000", None)].
Proof.
  intros w s'.
  assert (Hsane : clock_sane (clock w)) by exact clock_sane_morning.
  destruct (update_posting_schedule_spec 2 [10; 22] w Hsane)
    as (_ & Hquota & Hhours & _ & Hinterval & _ & Hsorted & _).
  split; [exact Hquota |]. split; [exact Hhours |].
  split; [exact Hinterval |]. split; [exact Hsorted |].
  vm_compute. reflexivity.
Defined.

(** *** Attempts *)

Lemma Forall_sort_queue (P : QueuedTweet -> Prop) (q : list QueuedTweet) :
  Forall P q -> Forall P (sort_by tweet_leb q).
Proof.
  intros H. eapply Permutation_Forall; [| exact H].
  apply Permutation_sym, sort_queue_sorted.
Qed.

Lemma reschedule_first_Forall (P : QueuedTweet -> Prop) (tweet_id : string)
    (new_time : datetime) (q q' : list QueuedTweet) :
  (forall t x, P t -> P (set_scheduled_for t x)) ->
  reschedule_first tweet_id new_time q = Some q' -> Forall P q -> Forall P q'.
Proof.
  intros HP Hfirst Hq.
  pose proof (reschedule_first_spec tweet_id new_time q) as Hspec.
  rewrite Hfirst in Hspec. destruct Hspec as (pre & t & post & -> & _ & _ & ->).
  apply Forall_app in Hq as [Hpre Hrest]. inversion Hrest; subst.
  apply Forall_app. split; [exact Hpre |]. constructor; auto.
Qed.

Lemma reschedule_all_Forall (P : QueuedTweet -> Prop) (todo done : list QueuedTweet)
    (w : world) :
  (forall t x, P t -> P (set_scheduled_for t x)) ->
  Forall P (done ++ todo) -> Forall P (tweet_queue (scheduler w)) ->
  Forall P (tweet_queue (scheduler (snd (reschedule_all done todo w)))).
Proof.
  intros HP. revert done w. induction todo as [| tweet rest IH]; intros done w Hall Hq; cbn.
  - exact Hq.
  - destruct (scheduled_for tweet).
    + run_monad.
      frame (same_scheduler_calculate_next_slot w) (_calculate_next_slot w);
        run_monad; [| congruence].
      assert (Hmoved : Forall P (done ++ set_scheduled_for tweet (Some a) :: rest)).
      { apply Forall_app in Hall as [Hdone Hrest]. inversion Hrest; subst.
        apply Forall_app. split; [exact Hdone |]. constructor; auto. }
      apply IH; [rewrite <- app_assoc; exact Hmoved | exact Hmoved].
    + apply IH; [rewrite <- app_assoc; exact Hall | exact Hq].
Qed.

Lemma run_op_attempts (op : queue_op) (w : world) :
  Forall (fun t => attempts t < max_attempts t) (tweet_queue (scheduler w)) ->
  Forall (fun t => attempts t < max_attempts t) (tweet_queue (scheduler (run_op op w))).
Proof.
  intros Hq.
  destruct op as [td content prio | result | tweet_id new_time | tweet_id | keep | n hours];
    cbn [run_op].
  - unfold add_to_queue. run_monad.
    match goal with
    | |- context [_calculate_next_slot ?v] =>
        frame (same_scheduler_calculate_next_slot v) (_calculate_next_slot v)
    end; run_monad; [| congruence].
    unfold _sort_queue, _save_queue. run_monad.
    match goal with H : scheduler _ = _ |- _ => rename H into Hslot end.
    match goal with
    | |- context [add_queued_tweet ?t ?v] =>
        frame (same_scheduler_add_queued_tweet t v) (add_queued_tweet t v)
    end; run_monad;
      match goal with H : scheduler _ = _ |- _ => rewrite H end;
      cbn [tweet_queue set_tweet_queue set_queue_file scheduler];
      rewrite Hslot;
      cbn [tweet_queue set_tweet_queue set_queue_file scheduler];
      (apply Forall_sort_queue, Forall_app; split; [exact Hq |]);
      (constructor; [cbn; lia | constructor]).
  - unfold post_next_tweet. run_monad.
    destruct (tweet_queue (scheduler w)) as [| next_tweet rest] eqn:Hqueue;
      [cbn; rewrite ?Hqueue; exact Hq |].
    inversion Hq as [| ? ? Hhead Hrest]; subst.
    destruct (truthy result); run_monad.
    + unfold _save_queue. run_monad.
      match goal with
      | |- context [mark_tweet_posted ?i ?r ?v] =>
          frame (same_scheduler_mark_tweet_posted i r v) (mark_tweet_posted i r v)
      end; run_monad.
      * match goal with
        | |- context [update_last_tweet_time ?v] =>
            frame (same_scheduler_update_last_tweet_time v) (update_last_tweet_time v)
        end; run_monad;
          repeat match goal with H : scheduler _ = _ |- _ => rewrite H; clear H end;
          exact Hrest.
      * match goal with H : scheduler _ = _ |- _ => rewrite H end. exact Hrest.
    + cbn [max_attempts attempts set_attempts].
      destruct (max_attempts next_tweet <=? attempts next_tweet + 1) eqn:Hmax;
        zbool; run_monad.
      * match goal with
        | |- context [mark_tweet_failed ?i ?v] =>
            frame (same_scheduler_mark_tweet_failed i v) (mark_tweet_failed i v)
        end; run_monad; unfold _save_queue; run_monad;
          match goal with H : scheduler _ = _ |- _ => rewrite H end; exact Hrest.
      * destruct (DT.add _ _); run_monad.
        -- unfold _sort_queue, _save_queue. run_monad. cbn [tweet_queue set_tweet_queue set_queue_file scheduler].
           apply Forall_sort_queue. constructor; [cbn; lia | exact Hrest].
        -- cbn [tweet_queue set_tweet_queue set_queue_file scheduler]. constructor; [cbn; lia | exact Hrest].
  - unfold reschedule_tweet. run_monad.
    destruct (reschedule_first tweet_id new_time (tweet_queue (scheduler w)))
      as [q' |] eqn:Hfirst; run_monad; [| exact Hq].
    unfold _sort_queue, _save_queue. run_monad. cbn [tweet_queue set_tweet_queue set_queue_file scheduler].
    apply Forall_sort_queue.
    eapply reschedule_first_Forall; [| exact Hfirst | exact Hq]. auto.
  - unfold remove_tweet. run_monad.
    assert (Hkept : Forall (fun t => attempts t < max_attempts t)
                      (List.filter (fun t => negb (bool_decide (id t = tweet_id)))
                         (tweet_queue (scheduler w)))).
    { rewrite List.Forall_forall in Hq |- *. intros t Ht.
      apply List.filter_In in Ht as [Ht _]. auto. }
    destruct (_ <? _)%nat; run_monad; [unfold _save_queue; run_monad |]; exact Hkept.
  - unfold clear_queue, _save_queue. run_monad. cbn [tweet_queue set_tweet_queue set_queue_file scheduler].
    destruct keep; [| constructor].
    rewrite List.Forall_forall in Hq |- *. intros t Ht.
    apply List.filter_In in Ht as [Ht _]. auto.
  - unfold update_posting_schedule. run_monad.
    destruct (interval_for n); run_monad; [| exact Hq].
    match goal with
    | |- context [reschedule_all [] ?q ?v] =>
        pose proof (reschedule_all_Forall (fun t => attempts t < max_attempts t) q [] v
                      (fun t x H => H) Hq Hq) as Hloop;
        destruct (reschedule_all [] q v) as [[? |] w1]
    end; cbn [snd] in Hloop; run_monad; [| exact Hloop].
    unfold _sort_queue, _save_queue. run_monad. cbn [tweet_queue set_tweet_queue set_queue_file scheduler].
    apply Forall_sort_queue. exact Hloop.
Qed.

(** X14: over every run of the queue's mutators, whatever the clock does, a
    queue in which every tweet has been tried fewer than [max_attempts]
    times stays such a queue: a tweet whose failed attempt reaches
    [max_attempts] leaves the queue in the same call. *)
Theorem attempts_stay_below_max (ops : list queue_op) (w : world) :
  Forall (fun t => attempts t < max_attempts t) (tweet_queue (scheduler w)) ->
  Forall (fun t => attempts t < max_attempts t)
    (tweet_queue (scheduler (run_ops ops w))).
Proof.
  revert w. induction ops as [| op ops IH]; intros w Hq; cbn; [exact Hq |].
  apply IH. apply run_op_attempts. exact Hq.
Qed.

Lemma attempts_stay_below_max_witness :
  Forall (fun t => attempts t < max_attempts t)
    (tweet_queue
       (scheduler
          (run_ops (sample_run ++ [PostNext None; PostNext None; PostNext None])
             morning_world))).
Proof.
  apply (attempts_stay_below_max
           (sample_run ++ [PostNext None; PostNext None; PostNext None]) morning_world).
  constructor.
Defined.

(** *** Housekeeping and status *)

Lemma filter_older_newer (cutoff : datetime) (l : list posted_row) :
  List.filter (fun t => negb (p_posted_at t <? cutoff)) l
  = List.filter (fun t => cutoff <=? p_posted_at t) l /\
  Z.of_nat (length l)
  - Z.of_nat (length (List.filter (fun t => cutoff <=? p_posted_at t) l))
  = Z.of_nat (length (List.filter (fun t => p_posted_at t <? cutoff) l)).
Proof.
  split.
  - apply List.filter_ext. intros t. symmetry. apply Z.leb_antisym.
  - pose proof (filter_negb_length (fun t => cutoff <=? p_posted_at t) l) as Hlen.
    rewrite (List.filter_ext (fun t => negb (cutoff <=? p_posted_at t))
               (fun t => p_posted_at t <? cutoff)) in Hlen
      by (intros t; symmetry; apply Z.ltb_antisym).
    lia.
Qed.

Lemma filter_map_commute {A B : Type} (f : A -> B) (p : B -> bool) (l : list A) :
  List.filter p (map f l) = map f (List.filter (fun x => p (f x)) l).
Proof.
  induction l as [| x l IH]; cbn; [reflexivity |].
  destruct (p (f x)); cbn; rewrite IH; reflexivity.
Qed.

Lemma get_recent_tweet_times_spec_aux (days : Z) (w : world) :
  exists l,
    fst (get_recent_tweet_times days w) = Ok l /\
    match DT.add (clock w (ticks w)) (- DT.days days) with
    | Some cutoff =>
        Permutation l
          (List.filter (fun posted_at => cutoff <=? posted_at)
             (map p_posted_at (stored_posted (database w))))
    | None => l = []
    end.
Proof.
  unfold get_recent_tweet_times. run_monad.
  destruct (DT.add (clock w (ticks w)) (- DT.days days)) as [cutoff |]; run_monad;
    [| exists []; split; reflexivity].
  destruct (database w) as [s | j]; cbn [stored_posted]; eexists;
    (split; [reflexivity |]); [apply sort_by_permutation | reflexivity].
Qed.

(** X15: [cleanup_old_data] never raises. With the cutoff [now - days] it
    leaves, in both storages, exactly the posted tweets that are not older
    than the cutoff, in their order, and returns how many older ones it
    deleted; what is left is what [get_recent_tweet_times] reports for the
    same number of days at the same clock reading. Tools, queued tweets,
    the state values and the scheduler are untouched. When the cutoff is not
    a representable datetime it returns 0 and deletes nothing. *)
Theorem cleanup_old_data_spec (days : Z) (w : world) :
  let w' := exec (cleanup_old_data days) w in
  scheduler w' = scheduler w /\
  stored_tools (database w') = stored_tools (database w) /\
  stored_queue (database w') = stored_queue (database w) /\
  (forall key, fst (_get_state_value key w') = fst (_get_state_value key w)) /\
  match DT.add (clock w (ticks w)) (- DT.days days) with
  | Some cutoff =>
      stored_posted (database w')
      = List.filter (fun t => cutoff <=? p_posted_at t) (stored_posted (database w)) /\
      fst (cleanup_old_data days w)
      = Ok (Z.of_nat (length (List.filter (fun t => p_posted_at t <? cutoff)
                                (stored_posted (database w))))) /\
      exists recent,
        fst (get_recent_tweet_times days w) = Ok recent /\
        Permutation recent (map p_posted_at (stored_posted (database w')))
  | None => fst (cleanup_old_data days w) = Ok 0 /\ database w' = database w
  end.
Proof.
  intros w'. subst w'.
  destruct (get_recent_tweet_times_spec_aux days w) as (recent & Hrecent & Hperm).
  unfold cleanup_old_data. run_monad.
  destruct (DT.add (clock w (ticks w)) (- DT.days days)) as [cutoff |]; run_monad;
    [| split; [reflexivity |]; split; [reflexivity |]; split; [reflexivity |];
       split; [intros key; rewrite !get_state_value_run; reflexivity
              | split; reflexivity]].
  destruct (database w) as [s | j] eqn:Hdb; run_monad; cbn.
  - destruct (filter_older_newer cutoff (sql_posted_tweets s)) as [Hkept Hcount].
    rewrite Hkept.
    split; [reflexivity |]. split; [reflexivity |]. split; [reflexivity |].
    split; [intros key; rewrite !get_state_value_run; cbn; rewrite ?Hdb; reflexivity |].
    split; [reflexivity |]. split; [reflexivity |].
    exists recent. split; [exact Hrecent |].
    rewrite <- filter_map_commute. exact Hperm.
  - destruct (filter_older_newer cutoff (json_posted_tweets j)) as [Hkept Hcount].
    rewrite Hcount.
    split; [reflexivity |]. split; [reflexivity |]. split; [reflexivity |].
    split; [intros key; rewrite !get_state_value_run; cbn; rewrite ?Hdb; reflexivity |].
    split; [reflexivity |]. split; [reflexivity |].
    exists recent. split; [exact Hrecent |].
    rewrite <- filter_map_commute. exact Hperm.
Qed.

Lemma min_by_None {A : Type} (key : A -> Z) (l : list A) :
  min_by key l = None -> l = [].
Proof.
  destruct l as [| x l]; [reflexivity |]. cbn.
  destruct (min_by key l) as [y |]; [destruct (key y <? key x) |]; discriminate.
Qed.

Lemma min_by_Some {A : Type} (key : A -> Z) (l : list A) (m : A) :
  min_by key l = Some m -> In m l /\ forall z, In z l -> key m <= key z.
Proof.
  revert m. induction l as [| x l IH]; intros m; cbn; [discriminate |].
  destruct (min_by key l) as [y |] eqn:Hy.
  - destruct (IH y eq_refl) as [Hin Hle].
    destruct (key y <? key x) eqn:Hlt; zbool; intros [= <-].
    + split; [right; exact Hin |]. intros z [<- | Hz]; [lia | auto].
    + split; [left; reflexivity |].
      intros z [<- | Hz]; [lia |]. specialize (Hle z Hz). lia.
  - intros [= <-]. apply min_by_None in Hy. subst l.
    split; [left; reflexivity |]. intros z [<- | []]. lia.
Qed.

(** X16: [get_queue_status] never fails and changes neither the scheduler
    nor the store. Its counts are consistent: no more tweets are ready than
    are queued, no more were posted today than in the week, and some tweet
    is ready exactly when a tweet of the queue is scheduled at or before the
    clock reading. A reported [next_tweet_time] is the earliest scheduled
    time of the queue; when none is reported, every tweet of the queue is
    unscheduled or scheduled at [datetime.max] or later. *)
Theorem get_queue_status_spec (w : world) :
  let now := clock w (ticks w) in
  let q := tweet_queue (scheduler w) in
  exists st,
    fst (get_queue_status w) = Ok (Some st) /\
    scheduler (exec get_queue_status w) = scheduler w /\
    database (exec get_queue_status w) = database w /\
    total_queued st = Z.of_nat (length q) /\
    0 <= ready_to_post st <= total_queued st /\
    0 <= tweets_today st <= tweets_this_week st /\
    (0 < ready_to_post st <->
     exists t s, In t q /\ scheduled_for t = Some s /\ s <= now) /\
    match next_tweet_time st with
    | Some s =>
        (exists t, In t q /\ scheduled_for t = Some s) /\
        forall t x, In t q -> scheduled_for t = Some x -> s <= x
    | None =>
        forall t x, In t q -> scheduled_for t = Some x -> DT.datetime_max <= x
    end.
Proof.
  intros now q. subst now q. unfold get_queue_status. run_monad.
  match goal with
  | |- context [get_recent_tweet_times 7 ?v] =>
      destruct (get_recent_tweet_times_run 7 v) as [recent Hrun]
  end.
  rewrite Hrun. run_monad. eexists. split; [reflexivity |].
  cbn [total_queued ready_to_post next_tweet_time tweets_today tweets_this_week].
  split; [reflexivity |]. split; [reflexivity |]. split; [reflexivity |].
  set (q := tweet_queue (scheduler w)). set (now := clock w (ticks w)).
  split.
  { pose proof (List.filter_length_le (is_ready now) q). lia. }
  split.
  { pose proof (List.filter_length_le (fun t => DT.date t =? DT.date now) recent). lia. }
  split.
  { split.
    - intros Hpos. destruct (List.filter (is_ready now) q) as [| t l] eqn:Hf;
        [cbn in Hpos; lia |].
      assert (Ht : In t (List.filter (is_ready now) q)) by (rewrite Hf; left; reflexivity).
      apply List.filter_In in Ht as [Hin Hready]. unfold is_ready in Hready.
      destruct (scheduled_for t) as [s |] eqn:Hs; [| discriminate]. zbool.
      exists t, s. auto.
    - intros (t & s & Hin & Hs & Hle).
      assert (Ht : In t (List.filter (is_ready now) q)).
      { apply List.filter_In. split; [exact Hin |]. unfold is_ready. rewrite Hs.
        apply Z.leb_le. exact Hle. }
      destruct (List.filter (is_ready now) q); [destruct Ht | cbn; lia]. }
  destruct (min_by slot_time q) as [next_tweet |] eqn:Hmin.
  - apply min_by_Some in Hmin as [Hin Hle].
    destruct (scheduled_for next_tweet) as [s |] eqn:Hs.
    + split; [exists next_tweet; auto |]. intros t x Ht Hx.
      specialize (Hle t Ht). unfold slot_time in Hle. rewrite Hs, Hx in Hle. exact Hle.
    + intros t x Ht Hx.
      specialize (Hle t Ht). unfold slot_time in Hle. rewrite Hs, Hx in Hle. exact Hle.
  - apply min_by_None in Hmin. rewrite Hmin. intros t x [].
Qed.

(** *** One round of the queue processor *)

Lemma should_post_tweet_run (w : world) :
  exists b w1,
    should_post_tweet w = (Ok b, w1) /\
    scheduler w1 = scheduler w /\ database w1 = database w /\ clock w1 = clock w.
Proof.
  unfold should_post_tweet. run_monad.
  destruct (tweet_queue (scheduler w)) as [| next_tweet rest]; run_monad;
    [eexists _, _; split; [reflexivity | auto] |].
  destruct (match scheduled_for next_tweet with
            | Some t => t <=? clock w (ticks w)
            | None => false
            end); run_monad; [eexists _, _; split; [reflexivity | auto] |].
  rewrite get_last_tweet_time_run. run_monad.
  destruct (latest_posted_at (database w)) as [last |]; run_monad;
    [| eexists _, _; split; [reflexivity | auto]].
  destruct (_ <? _); eexists _, _; (split; [reflexivity | auto]).
Qed.

(** What one call of [post_next_tweet] can do, whatever Twitter answered
    and whatever the clock: at most the head leaves the queue, and the
    posted tweets of the store grow by at most one row, which then carries
    the id of the former head. *)
Lemma post_next_tweet_effect (result : option (gmap string json)) (w : world) :
  let q := tweet_queue (scheduler w) in
  let w' := exec (post_next_tweet result) w in
  let q' := tweet_queue (scheduler w') in
  (exists b, fst (post_next_tweet result w) = Ok b) /\
  (length q' = length q \/ q' = tl q) /\
  (stored_posted (database w') = stored_posted (database w) \/
   exists row t,
     stored_posted (database w') = stored_posted (database w) ++ [row] /\
     head q = Some t /\ p_tweet_id row = id t /\ q' = tl q /\ truthy result = true).
Proof.
  intros q w' q'. subst q w' q'. split; [apply try_except_ret_ok |].
  unfold post_next_tweet. run_monad.
  destruct (tweet_queue (scheduler w)) as [| next_tweet rest] eqn:Hq; run_monad;
    [rewrite Hq; split; left; reflexivity |].
  destruct (truthy result) eqn:Htruthy; run_monad.
  - unfold _save_queue. run_monad.
    match goal with
    | |- context [mark_tweet_posted ?i ?x ?v] =>
        pose proof (mark_tweet_posted_run i x v) as Hmark;
        cbv zeta in Hmark; unfold exec in Hmark;
        cbn [clock ticks database scheduler] in Hmark;
        destruct (mark_tweet_posted i x v) as [[b |] w1] eqn:Hrun
    end; cbn [fst snd] in Hmark.
    2:{ exfalso. destruct Hmark as (_ & _ & _ & Hmark).
        destruct (database w) as [s | j].
        - destruct Hmark as [_ Hmark].
          destruct (sqlite_refuses_post _ _ _); destruct Hmark; discriminate.
        - destruct Hmark; discriminate. }
    destruct Hmark as (Hsched1 & Hclock1 & Htools1 & Hmark).
    run_monad.
    pose proof (update_last_tweet_time_run w1) as Hupd. cbv zeta in Hupd.
    unfold exec in Hupd.
    destruct (update_last_tweet_time_ok w1) as [b' Hok].
    destruct (update_last_tweet_time w1) as [[b'' |] w2]; [| discriminate].
    cbn [fst snd] in *. destruct Hupd as (Hsched2 & _ & _ & Hposted2 & _).
    rewrite Hsched2, Hsched1, Hposted2.
    cbn [tweet_queue set_tweet_queue set_queue_file tl].
    split; [right; reflexivity |].
    destruct (database w) as [s | j]; cbn [stored_posted].
    + destruct Hmark as [_ Hmark].
      destruct (sqlite_refuses_post _ _ _).
      * destruct Hmark as [_ ->]. left. reflexivity.
      * destruct Hmark as (_ & -> & _). right.
        eexists _, next_tweet. repeat split; reflexivity.
    + destruct Hmark as (_ & _ & -> & _). right.
      eexists _, next_tweet. repeat split; reflexivity.
  - cbn [max_attempts attempts set_attempts].
    destruct (max_attempts next_tweet <=? attempts next_tweet + 1); run_monad.
    + match goal with
      | |- context [mark_tweet_failed ?i ?v] =>
          assert (Hposted : stored_posted (database (snd (mark_tweet_failed i v)))
                            = stored_posted (database w))
            by (unfold mark_tweet_failed; run_monad; destruct (database w); reflexivity);
          frame (same_scheduler_mark_tweet_failed i v) (mark_tweet_failed i v)
      end; cbn [snd] in Hposted; run_monad; unfold _save_queue; run_monad;
        match goal with H : scheduler _ = _ |- _ => rewrite H end;
        cbn [tweet_queue set_tweet_queue set_queue_file tl];
        (split; [right; reflexivity | left; exact Hposted]).
    + destruct (DT.add _ _); run_monad.
      * unfold _sort_queue, _save_queue. run_monad.
        cbn [tweet_queue set_tweet_queue set_queue_file].
        split; [| left; reflexivity]. left.
        rewrite (Permutation_length (proj2 (sort_queue_sorted _))). reflexivity.
      * cbn [tweet_queue set_tweet_queue set_queue_file].
        split; left; reflexivity.
Qed.

(** X17: one call of [process_tweet_queue] never raises. When
    [should_post_tweet] says no, scheduler and store stay as they were.
    Otherwise at most the head of the queue leaves it, and the store gains
    at most one posted tweet: only when Twitter accepted the head, and then
    under the head's id. *)
Theorem process_tweet_queue_spec (result : option (gmap string json)) (w : world) :
  let q := tweet_queue (scheduler w) in
  let w' := exec (process_tweet_queue result) w in
  let q' := tweet_queue (scheduler w') in
  fst (process_tweet_queue result w) = Ok tt /\
  (fst (should_post_tweet w) = Ok false ->
   scheduler w' = scheduler w /\ database w' = database w) /\
  (length q' = length q \/ q' = tl q) /\
  (stored_posted (database w') = stored_posted (database w) \/
   exists row t,
     stored_posted (database w') = stored_posted (database w) ++ [row] /\
     head q = Some t /\ p_tweet_id row = id t /\ q' = tl q /\
     truthy result = true /\ fst (should_post_tweet w) = Ok true).
Proof.
  intros q w' q'. subst q w' q'. unfold process_tweet_queue. run_monad.
  destruct (should_post_tweet_run w) as (due & w1 & Hdue & Hsched & Hdb & _).
  rewrite Hdue. cbn [fst snd].
  destruct due.
  - pose proof (post_next_tweet_effect result w1) as Heffect. cbv zeta in Heffect.
    unfold exec in Heffect. rewrite Hsched, Hdb in Heffect.
    destruct Heffect as ([b Hok] & Hlen & Hposted).
    destruct (post_next_tweet result w1) as [[b' |] w2]; [| discriminate].
    cbn [fst snd] in *.
    split; [reflexivity |]. split; [discriminate |]. split; [exact Hlen |].
    destruct Hposted as [Hsame | (row & t & Hrow & Hhead & Hid & Htl & Htruthy)];
      [left; exact Hsame |].
    right. exists row, t. repeat split; assumption.
  - cbn [fst snd]. rewrite Hsched, Hdb.
    split; [reflexivity |]. split; [split; reflexivity |].
    split; left; reflexivity.
Qed.

(** *** The monitor's scan *)

Lemma same_but_tools_refl (w : world) : same_but_tools w w.
Proof. unfold same_but_tools. repeat split; reflexivity || lia. Qed.

Lemma same_but_tools_trans (a b c : world) :
  same_but_tools a b -> same_but_tools b c -> same_but_tools a c.
Proof.
  unfold same_but_tools.
  intros (Hs1 & Hc1 & Ht1 & Hb1 & Hp1 & Hq1) (Hs2 & Hc2 & Ht2 & Hb2 & Hp2 & Hq2).
  repeat split; try congruence. lia.
Qed.

Lemma existsb_tool_matches (nm u : string) (rows : list tool_row) :
  existsb (tool_matches nm u) rows = bool_decide ((nm, u) ∈ map row_pair rows).
Proof.
  induction rows as [| r rows IH]; cbn [existsb map].
  - symmetry. apply bool_decide_eq_false_2. apply not_elem_of_nil.
  - rewrite IH. clear IH. symmetry.
    destruct (tool_matches nm u r) eqn:Hm; cbn [orb].
    + apply bool_decide_eq_true_2. unfold tool_matches in Hm.
      apply andb_true_iff in Hm as [H1 H2]. apply bool_decide_eq_true in H1, H2.
      unfold row_pair. rewrite H1, H2. apply list_elem_of_here.
    + apply bool_decide_ext. rewrite elem_of_cons. split; [| auto].
      intros [Heq | H]; [| exact H]. exfalso.
      unfold row_pair in Heq. injection Heq as Hn Hu.
      unfold tool_matches in Hm.
      rewrite !bool_decide_eq_true_2 in Hm by congruence. discriminate.
Qed.

Lemma elem_of_List_filter {A : Type} (f : A -> bool) (l : list A) (x : A) :
  x ∈ List.filter f l <-> x ∈ l /\ f x = true.
Proof. rewrite !list_elem_of_In. apply List.filter_In. Qed.

Lemma List_filter_all {A : Type} (f : A -> bool) (l : list A) :
  (forall x, x ∈ l -> f x = true) -> List.filter f l = l.
Proof.
  induction l as [| x l IH]; intros Hall; cbn; [reflexivity |].
  rewrite (Hall x) by apply list_elem_of_here. f_equal. apply IH.
  intros y Hy. apply Hall. apply elem_of_cons. auto.
Qed.

(** [add_tool] for a tool whose pair the store does not hold: the record is
    appended, unless SQLite refuses the tool's [stars]. *)
Lemma add_tool_new (tool : ToolRecord) (w : world) :
  tool_pair tool ∉ map row_pair (stored_tools (database w)) ->
  exists first_seen w1,
    add_tool tool w
    = (Ok (use_json_fallback (database w) || in_int64 (stars tool)), w1) /\
    stored_tools (database w1)
    = (if use_json_fallback (database w) || in_int64 (stars tool)
       then stored_tools (database w) ++ [row_of_tool tool first_seen]
       else stored_tools (database w)) /\
    same_but_tools w w1.
Proof.
  intros Hnew.
  assert (Hex : existsb (tool_matches (name tool) (url tool)) (stored_tools (database w))
                = false).
  { rewrite existsb_tool_matches. apply bool_decide_eq_false_2. exact Hnew. }
  rewrite add_tool_run. unfold same_but_tools.
  destruct (database w) as [s | j]; cbn [use_json_fallback orb stored_tools] in Hex |- *.
  - destruct (in_int64 (stars tool)).
    + rewrite Hex. eexists _, _. split; [reflexivity |]. cbn.
      repeat split; auto; lia.
    + exists (clock w (ticks w)). eexists. split; [reflexivity |]. cbn.
      repeat split; auto; lia.
  - eexists _, _. split; [reflexivity |]. cbn. repeat split; auto; lia.
Qed.

Lemma new_among_ext (storable : ToolRecord -> bool) (tools : list ToolRecord)
    (known known' : list (string * string)) :
  (forall p, p ∈ known' <-> p ∈ known) ->
  new_among storable known' tools = new_among storable known tools.
Proof.
  revert known known'. induction tools as [| tool rest IH]; intros known known' Hsame;
    cbn; [reflexivity |].
  rewrite (bool_decide_ext _ _ (Hsame (tool_pair tool))).
  destruct (bool_decide (tool_pair tool ∈ known)); [apply IH; exact Hsame |].
  f_equal. apply IH. intros p.
  destruct (storable tool); [rewrite !elem_of_cons, Hsame; reflexivity | apply Hsame].
Qed.

Lemma new_among_app (storable : ToolRecord -> bool) (a b : list ToolRecord)
    (known known' : list (string * string)) :
  (forall p, p ∈ known' <->
             p ∈ known \/
             p ∈ map tool_pair (List.filter storable (new_among storable known a))) ->
  new_among storable known (a ++ b)
  = new_among storable known a ++ new_among storable known' b.
Proof.
  revert known known'. induction a as [| tool rest IH]; intros known known' Hsame; cbn.
  - apply new_among_ext. intros p. rewrite Hsame. cbn.
    rewrite elem_of_nil. tauto.
  - cbn in Hsame.
    destruct (bool_decide (tool_pair tool ∈ known)) eqn:Hknown.
    + apply IH. exact Hsame.
    + cbn. f_equal. cbn in Hsame.
      destruct (storable tool) eqn:Hst.
      * apply IH. intros p. rewrite Hsame. cbn. rewrite !elem_of_cons. tauto.
      * apply IH. exact Hsame.
Qed.

(** The tools picked by [new_among]: none was known before; those the
    store accepts are picked once per pair; and a tool of the list that was
    not picked, or was accepted, has its pair known in the end. *)
Lemma new_among_spec (storable : ToolRecord -> bool) (tools : list ToolRecord)
    (known : list (string * string)) :
  NoDup (map tool_pair (List.filter storable (new_among storable known tools))) /\
  (forall t, t ∈ new_among storable known tools -> t ∈ tools /\ tool_pair t ∉ known) /\
  (forall t, t ∈ tools ->
             tool_pair t ∈ known \/
             tool_pair t
               ∈ map tool_pair (List.filter storable (new_among storable known tools)) \/
             (t ∈ new_among storable known tools /\ storable t = false)).
Proof.
  revert known. induction tools as [| tool rest IH]; intros known; cbn.
  - split; [constructor |]. split; intros t Ht; apply elem_of_nil in Ht; destruct Ht.
  - destruct (bool_decide (tool_pair tool ∈ known)) eqn:Hknown.
    + apply bool_decide_eq_true in Hknown.
      destruct (IH known) as (Hnodup & Hnew & Hcover).
      split; [exact Hnodup |]. split.
      * intros t Ht. destruct (Hnew t Ht). split; [apply elem_of_cons; auto | assumption].
      * intros t Ht. apply elem_of_cons in Ht as [-> | Ht]; [left; exact Hknown | auto].
    + apply bool_decide_eq_false in Hknown.
      destruct (storable tool) eqn:Hst.
      * destruct (IH (tool_pair tool :: known)) as (Hnodup & Hnew & Hcover).
        cbn. rewrite Hst. cbn. split; [| split].
        -- constructor; [| exact Hnodup].
           intros Hin. apply list_elem_of_fmap in Hin as (t & Heq & Ht).
           apply elem_of_List_filter in Ht as [Ht _].
           destruct (Hnew t Ht) as [_ Hnot]. apply Hnot. rewrite <- Heq.
           apply list_elem_of_here.
        -- intros t Ht. apply elem_of_cons in Ht as [-> | Ht].
           ++ split; [apply list_elem_of_here | exact Hknown].
           ++ destruct (Hnew t Ht) as [Hin Hnot].
              split; [apply elem_of_cons; auto |].
              intros Hk. apply Hnot. apply elem_of_cons. auto.
        -- intros t Ht. apply elem_of_cons in Ht as [-> | Ht].
           ++ right. left. apply list_elem_of_here.
           ++ destruct (Hcover t Ht) as [Hk | [Hn | [Hn Hs]]].
              ** apply elem_of_cons in Hk as [-> | Hk];
                   [right; left; apply list_elem_of_here | auto].
              ** right. left. apply elem_of_cons. auto.
              ** right. right. split; [apply elem_of_cons; auto | exact Hs].
      * destruct (IH known) as (Hnodup & Hnew & Hcover).
        cbn. rewrite Hst. split; [exact Hnodup |]. split.
        -- intros t Ht. apply elem_of_cons in Ht as [-> | Ht].
           ++ split; [apply list_elem_of_here | exact Hknown].
           ++ destruct (Hnew t Ht) as [Hin Hnot].
              split; [apply elem_of_cons; auto | exact Hnot].
        -- intros t Ht. apply elem_of_cons in Ht as [-> | Ht].
           ++ right. right. split; [apply list_elem_of_here | exact Hst].
           ++ destruct (Hcover t Ht) as [Hk | [Hn | [Hn Hs]]]; auto.
              right. right. split; [apply elem_of_cons; auto | exact Hs].
Qed.

Lemma scan_tools_run (storable : ToolRecord -> bool) (tools : list ToolRecord)
    (acc : list tool_dict) (w : world) (known : list (string * string)) :
  (forall t, storable t = use_json_fallback (database w) || in_int64 (stars t)) ->
  (forall p, p ∈ known <-> p ∈ map row_pair (stored_tools (database w))) ->
  exists w1,
    scan_tools tools acc w
    = (Ok (acc ++ map _tool_to_dict (new_among storable known tools)), w1) /\
    map row_pair (stored_tools (database w1))
    = map row_pair (stored_tools (database w))
        ++ map tool_pair (List.filter storable (new_among storable known tools)) /\
    same_but_tools w w1.
Proof.
  revert acc w known. induction tools as [| tool rest IH];
    intros acc w known Hst Hknown; cbn [scan_tools new_among].
  - exists w. cbn. rewrite !app_nil_r. split; [reflexivity |].
    split; [reflexivity | apply same_but_tools_refl].
  - run_monad. rewrite tool_exists_run. cbn [fst snd].
    rewrite existsb_tool_matches.
    change (name tool, url tool) with (tool_pair tool).
    rewrite <- (bool_decide_ext _ _ (Hknown (tool_pair tool))).
    destruct (bool_decide (tool_pair tool ∈ known)) eqn:Hin.
    + apply IH; assumption.
    + apply bool_decide_eq_false in Hin.
      destruct (add_tool_new tool w) as (first_seen & w1 & -> & Htools & Hframe).
      { rewrite <- Hknown. exact Hin. }
      rewrite <- (Hst tool) in Htools.
      assert (Hst1 : forall t,
                storable t = use_json_fallback (database w1) || in_int64 (stars t)).
      { intros t. destruct Hframe as (_ & _ & _ & -> & _). apply Hst. }
      destruct (storable tool) eqn:Hs.
      * destruct (IH (acc ++ [_tool_to_dict tool]) w1 (tool_pair tool :: known) Hst1)
          as (w2 & -> & Hrows & Hframe2).
        { intros p. rewrite Htools, map_app, elem_of_app, elem_of_cons, Hknown. cbn.
          rewrite list_elem_of_singleton. unfold row_pair at 2. cbn.
          unfold tool_pair. tauto. }
        exists w2. split; [rewrite <- app_assoc; reflexivity |].
        split; [| eapply same_but_tools_trans; eauto].
        cbn [List.filter]. rewrite Hs.
        rewrite Hrows, Htools, map_app, <- app_assoc. reflexivity.
      * destruct (IH (acc ++ [_tool_to_dict tool]) w1 known Hst1)
          as (w2 & -> & Hrows & Hframe2).
        { intros p. rewrite Htools. apply Hknown. }
        exists w2. split; [rewrite <- app_assoc; reflexivity |].
        split; [| eapply same_but_tools_trans; eauto].
        cbn [List.filter]. rewrite Hs. rewrite Hrows, Htools. reflexivity.
Qed.

Lemma scan_commits_run (storable : ToolRecord -> bool) (commits : list (list ToolRecord))
    (acc : list tool_dict) (w : world) (known : list (string * string)) :
  (forall t, storable t = use_json_fallback (database w) || in_int64 (stars t)) ->
  (forall p, p ∈ known <-> p ∈ map row_pair (stored_tools (database w))) ->
  exists w1,
    scan_commits commits acc w
    = (Ok (acc ++ map _tool_to_dict (new_among storable known (concat commits))), w1) /\
    map row_pair (stored_tools (database w1))
    = map row_pair (stored_tools (database w))
        ++ map tool_pair
             (List.filter storable (new_among storable known (concat commits))) /\
    same_but_tools w w1.
Proof.
  revert acc w known. induction commits as [| tools rest IH];
    intros acc w known Hst Hknown; cbn [scan_commits concat].
  - exists w. cbn. rewrite !app_nil_r. split; [reflexivity |].
    split; [reflexivity | apply same_but_tools_refl].
  - run_monad.
    destruct (scan_tools_run storable tools acc w known Hst Hknown)
      as (w1 & -> & Hrows & Hframe).
    assert (Hst1 : forall t,
              storable t = use_json_fallback (database w1) || in_int64 (stars t)).
    { intros t. destruct Hframe as (_ & _ & _ & -> & _). apply Hst. }
    destruct (IH (acc ++ map _tool_to_dict (new_among storable known tools)) w1
                (map row_pair (stored_tools (database w1))) Hst1)
      as (w2 & -> & Hrows2 & Hframe2); [tauto |].
    assert (Happ : new_among storable known (tools ++ concat rest)
                   = new_among storable known tools
                       ++ new_among storable (map row_pair (stored_tools (database w1)))
                            (concat rest)).
    { apply new_among_app. intros p. rewrite Hrows, elem_of_app, Hknown. tauto. }
    exists w2. rewrite Happ, map_app, app_assoc.
    split; [reflexivity |]. split; [| eapply same_but_tools_trans; eauto].
    rewrite Hrows2, Hrows, List.filter_app, map_app, app_assoc. reflexivity.
Qed.

Lemma update_last_check_timestamp_run (w : world) :
  exists w1,
    update_last_check_timestamp w = (Ok true, w1) /\
    fst (get_last_check_timestamp w1) = Ok (Some (clock w (ticks w))) /\
    stored_tools (database w1) = stored_tools (database w) /\
    same_but_tools w w1.
Proof.
  unfold update_last_check_timestamp, get_last_check_timestamp, _set_state_value,
    same_but_tools.
  run_monad.
  destruct (database w) as [s | j]; run_monad; eexists; (split; [reflexivity |]).
  - rewrite get_state_value_run. cbn. rewrite lookup_insert_eq.
    repeat split; auto; lia.
  - rewrite get_state_value_run. cbn.
    split; [| repeat split; auto; lia]. f_equal.
    destruct (json_state_update "last_check_timestamp" _ _ (json_bot_state j))
      as [l |] eqn:Hu.
    + eapply json_state_find_updated; eauto.
    + apply json_state_find_appended; exact Hu.
Qed.

Lemma get_last_check_timestamp_run (w : world) :
  exists last, get_last_check_timestamp w = (Ok last, w).
Proof.
  unfold get_last_check_timestamp. run_monad. rewrite get_state_value_run.
  eexists. reflexivity.
Qed.

(** X3: [check_for_new_tools] asks the store before it records a tool, so
    it never tracks a pair [(name, url)] twice, in either storage: a store
    without duplicate pairs stays without. The tools it returns are those
    of the commits whose pair the store did not hold when their turn came;
    none of them was tracked before the call. The store accepts a tool on
    the fallback files, and on SQLite when its [stars] fit a 64-bit INTEGER:
    the accepted tools are returned once per pair and are tracked
    afterwards. A tool that SQLite refuses is returned at each of its
    occurrences and stays untracked; when the store accepts every tool of
    the commits, no pair is returned twice. The last check time becomes a
    clock reading of the call; scheduler, posted and queued tweets are
    untouched. When the store has no last check time and the clock is less
    than seven days after [datetime.min], the call returns no tools and
    records nothing. *)
Theorem check_for_new_tools_spec (github : datetime -> list (list ToolRecord))
    (w : world) :
  let known := map row_pair (stored_tools (database w)) in
  let w' := exec (check_for_new_tools github) w in
  let accepted :=
    fun t : ToolRecord => use_json_fallback (database w) || in_int64 (stars t) in
  let last_check :=
    match fst (get_last_check_timestamp w) with Ok t => t | Raised => None end in
  match match last_check with
        | Some t => Some t
        | None => DT.add (clock w (ticks w)) (- DT.days 7)
        end with
  | Some since =>
      exists news,
        fst (check_for_new_tools github w) = Ok (map _tool_to_dict news) /\
        map row_pair (stored_tools (database w'))
        = known ++ map tool_pair (List.filter accepted news) /\
        NoDup (map tool_pair (List.filter accepted news)) /\
        (forall t, t ∈ news -> t ∈ concat (github since) /\ tool_pair t ∉ known) /\
        (forall t, t ∈ concat (github since) ->
                   tool_pair t ∈ map row_pair (stored_tools (database w')) \/
                   (t ∈ news /\ accepted t = false)) /\
        ((forall t, t ∈ concat (github since) -> accepted t = true) ->
         NoDup (map tool_pair news)) /\
        (NoDup known -> NoDup (map row_pair (stored_tools (database w')))) /\
        (exists n, (ticks w <= n)%nat /\
                   fst (get_last_check_timestamp w') = Ok (Some (clock w n))) /\
        same_but_tools w w'
  | None =>
      fst (check_for_new_tools github w) = Ok [] /\ database w' = database w
  end.
Proof.
  intros known w' accepted last_check. subst known w' last_check.
  destruct (get_last_check_timestamp_run w) as [last Hread].
  unfold check_for_new_tools, _get_recent_commits.
  assert (Hscan : forall (since : datetime) (v : world),
            database v = database w -> clock v = clock w -> scheduler v = scheduler w ->
            (ticks w <= ticks v)%nat ->
            exists news w2,
              (let! new_tools := scan_commits (github since) [] in
               run! update_last_check_timestamp in ret new_tools) v
              = (Ok (map _tool_to_dict news), w2) /\
              map row_pair (stored_tools (database w2))
              = map row_pair (stored_tools (database w))
                  ++ map tool_pair (List.filter accepted news) /\
              NoDup (map tool_pair (List.filter accepted news)) /\
              (forall t, t ∈ news -> t ∈ concat (github since) /\
                                     tool_pair t ∉ map row_pair (stored_tools (database w))) /\
              (forall t, t ∈ concat (github since) ->
                         tool_pair t ∈ map row_pair (stored_tools (database w2)) \/
                         (t ∈ news /\ accepted t = false)) /\
              ((forall t, t ∈ concat (github since) -> accepted t = true) ->
               NoDup (map tool_pair news)) /\
              (NoDup (map row_pair (stored_tools (database w))) ->
               NoDup (map row_pair (stored_tools (database w2)))) /\
              (exists n, (ticks w <= n)%nat /\
                         fst (get_last_check_timestamp w2) = Ok (Some (clock w n))) /\
              same_but_tools w w2).
  { intros since v Hdb Hclock Hsched Hticks. run_monad.
    destruct (scan_commits_run accepted (github since) [] v
                (map row_pair (stored_tools (database v))))
      as (w1 & -> & Hrows & Hframe);
      [intros t; rewrite Hdb; reflexivity | tauto |].
    destruct (update_last_check_timestamp_run w1) as (w2 & -> & Hlast & Htools & Hframe2).
    cbn [fst snd app].
    pose proof (new_among_spec accepted (concat (github since))
                  (map row_pair (stored_tools (database v)))) as (Hnodup & Hnew & Hcover).
    rewrite Hdb in *.
    exists (new_among accepted (map row_pair (stored_tools (database w)))
              (concat (github since))), w2.
    split; [reflexivity |]. split; [rewrite Htools; exact Hrows |].
    split; [exact Hnodup |]. split; [exact Hnew |].
    split.
    { intros t Ht. rewrite Htools, Hrows, elem_of_app.
      destruct (Hcover t Ht) as [Hk | [Hn | Hr]]; auto. }
    split.
    { intros Hall. rewrite List_filter_all in Hnodup; [exact Hnodup |].
      intros t Ht. apply Hall. apply (Hnew t Ht). }
    split.
    { intros Hknown. rewrite Htools, Hrows. apply NoDup_app.
      split; [exact Hknown |]. split; [| exact Hnodup].
      intros p Hp Hin. apply list_elem_of_fmap in Hin as (t & -> & Ht).
      apply elem_of_List_filter in Ht as [Ht _].
      destruct (Hnew t Ht) as [_ Hnot]. contradiction. }
    destruct Hframe as (Hs1 & Hc1 & Ht1 & Hb1 & Hp1 & Hq1).
    destruct Hframe2 as (Hs2 & Hc2 & Ht2 & Hb2 & Hp2 & Hq2).
    split.
    { exists (ticks w1). split; [lia |]. rewrite Hlast, Hc1, Hclock. reflexivity. }
    unfold same_but_tools. rewrite Hdb in *.
    repeat split; try congruence. lia. }
  run_monad. rewrite Hread. cbn [fst snd].
  destruct last as [t |]; run_monad.
  - destruct (Hscan t w) as (news & w2 & -> & Hrest); auto.
    exists news. cbn [fst snd]. split; [reflexivity | exact Hrest].
  - destruct (DT.add (clock w (ticks w)) (- DT.days 7)) as [since |]; run_monad.
    + match goal with
      | |- context [scan_commits (github since) [] ?v] =>
          destruct (Hscan since v) as (news & w2 & -> & Hrest); cbn; auto
      end.
      exists news. cbn [fst snd]. split; [reflexivity | exact Hrest].
    + split; reflexivity.
Qed.

(** *** Tweet texts *)

Lemma split_on_cons (sep : N) (s : text) :
  exists line lines, split_on sep s = line :: lines.
Proof.
  destruct s as [| c s]; cbn; [eexists _, _; reflexivity |].
  destruct (c =? sep)%N; [eexists _, _; reflexivity |].
  destruct (split_on sep s); eexists _, _; reflexivity.
Qed.

(** Joining the pieces of a split gives the text back. *)
Lemma join_split (sep : N) (s : text) : join_with sep (split_on sep s) = s.
Proof.
  induction s as [| c s IH]; [reflexivity |]. cbn [split_on].
  destruct (split_on_cons sep s) as (line & lines & Hsplit).
  rewrite Hsplit in IH |- *.
  destruct (c =? sep)%N eqn:Hc.
  - apply N.eqb_eq in Hc. subst c.
    change (join_with sep ([] :: line :: lines))
      with ([] ++ sep :: join_with sep (line :: lines)).
    rewrite IH. reflexivity.
  - destruct lines as [| l2 lines]; cbn in IH |- *; rewrite IH; reflexivity.
Qed.

Lemma join_with_length (sep : N) (lines : list text) :
  lines <> [] ->
  Z.of_nat (length (join_with sep lines))
  = lines_length lines + Z.of_nat (length lines) - 1.
Proof.
  induction lines as [| line rest IH]; [congruence |]. intros _.
  destruct rest as [| l2 rest].
  - cbn. lia.
  - change (join_with sep (line :: l2 :: rest))
      with (line ++ sep :: join_with sep (l2 :: rest)).
    rewrite length_app. cbn [length].
    change (lines_length (line :: l2 :: rest))
      with (Z.of_nat (length line) + lines_length (l2 :: rest)).
    specialize (IH ltac:(discriminate)). cbn [length] in IH |- *. lia.
Qed.

Lemma other_lines_length_after (i : nat) (lines : list text) :
  (2 < i)%nat -> other_lines_length i lines = lines_length lines.
Proof.
  revert i. induction lines as [| line rest IH]; intros i Hi; cbn; [reflexivity |].
  rewrite IH by lia.
  destruct (Nat.eqb_spec i 2); [lia | reflexivity].
Qed.

Lemma lines_length_insert (lines : list text) (old new : text) :
  lines !! 2%nat = Some old ->
  lines_length (<[2%nat := new]> lines)
  = other_lines_length 0 lines + Z.of_nat (length new) /\
  length (<[2%nat := new]> lines) = length lines /\
  <[2%nat := new]> lines <> [].
Proof.
  destruct lines as [| a [| b [| c rest]]]; cbn; try discriminate.
  intros _. rewrite (other_lines_length_after 3 rest) by lia.
  split; [fold (lines_length rest); lia |]. split; [reflexivity | discriminate].
Qed.

Lemma slice_to_length (s : text) (stop : Z) :
  0 <= stop <= Z.of_nat (length s) ->
  Z.of_nat (length (slice_to s stop)) = stop.
Proof.
  intros Hstop. unfold slice_to.
  replace (0 <=? stop) with true by (symmetry; apply Z.leb_le; lia).
  rewrite length_firstn. lia.
Qed.

(** X18: for a limit of at least 3 characters, the text returned by
    [_ensure_tweet_length] never exceeds the limit: a tweet within the limit
    is returned as it is, and a longer one is cut to exactly [max_length]
    characters, whether its third line is trimmed or the whole text is. *)
Theorem ensure_tweet_length_bound (tweet : text) (max_length : Z) :
  3 <= max_length ->
  let result := _ensure_tweet_length tweet max_length in
  Z.of_nat (length result) <= max_length /\
  (Z.of_nat (length tweet) <= max_length -> result = tweet) /\
  (max_length < Z.of_nat (length tweet) -> Z.of_nat (length result) = max_length).
Proof.
  intros Hmax result. subst result. unfold _ensure_tweet_length.
  destruct (Z.of_nat (length tweet) <=? max_length) eqn:Hfits; zbool;
    [split; [exact Hfits |]; split; [reflexivity | lia] |].
  assert (Hfallback :
            Z.of_nat (length (slice_to tweet (max_length - 3) ++ ellipsis)) = max_length).
  { rewrite length_app, Nat2Z.inj_add, slice_to_length by lia. cbn. lia. }
  cbv zeta.
  match goal with
  | |- Z.of_nat (length ?r) <= _ /\ _ =>
      enough (Hlen : Z.of_nat (length r) = max_length)
        by (split; [lia |]; split; [lia | intros _; exact Hlen])
  end.
  pose proof (join_split newline tweet) as Hjoin.
  destruct (split_on_cons newline tweet) as (line & rest & Hsplit).
  set (lines := split_on newline tweet) in *.
  destruct (lines !! 2%nat) as [description_line |] eqn:Hline; [| exact Hfallback].
  set (available_space := max_length - other_lines_length 0 lines
                          - (Z.of_nat (length lines) - 1)).
  destruct (20 <? available_space) eqn:Hspace; zbool; [| exact Hfallback].
  assert (Hne : lines <> []) by (rewrite Hsplit; discriminate).
  pose proof (join_with_length newline lines Hne) as Htotal. rewrite Hjoin in Htotal.
  destruct (lines_length_insert lines description_line description_line Hline)
    as (Hsame & _ & _).
  rewrite list_insert_id in Hsame by exact Hline.
  assert (Hlong : available_space < Z.of_nat (length description_line))
    by (subst available_space; lia).
  destruct (lines_length_insert lines description_line
              (slice_to description_line (available_space - 3) ++ ellipsis) Hline)
    as (Hnew & Hcount & Hne').
  etransitivity; [exact (join_with_length newline _ Hne') |]. rewrite Hnew, Hcount.
  rewrite length_app, Nat2Z.inj_add, slice_to_length by lia.
  cbn [length ellipsis]. subst available_space. lia.
Qed.

Lemma ensure_tweet_length_bound_witness :
  Z.of_nat (length (_ensure_tweet_length (repeat 65%N 300) 280)) <= 280.
Proof.
  apply (ensure_tweet_length_bound (repeat 65%N 300) 280). lia.
Defined.

(** *** Due tweets and the spacing *)

Lemma should_post_tweet_head_due (w : world) (t : QueuedTweet) (rest : list QueuedTweet)
    (s : datetime) :
  tweet_queue (scheduler w) = t :: rest -> scheduled_for t = Some s ->
  s <= clock w (ticks w) ->
  should_post_tweet w = (Ok true, exec utcnow w).
Proof.
  intros Hq Hs Hdue. unfold should_post_tweet. run_monad. rewrite Hq, Hs.
  run_monad. replace (s <=? clock w (ticks w)) with true; [reflexivity |].
  symmetry. apply Z.leb_le. exact Hdue.
Qed.

Lemma process_tweet_queue_head_due (r : gmap string json) (w : world)
    (t : QueuedTweet) (rest : list QueuedTweet) (s : datetime) :
  tweet_queue (scheduler w) = t :: rest -> scheduled_for t = Some s ->
  s <= clock w (ticks w) -> r <> ∅ ->
  let w' := exec (process_tweet_queue (Some r)) w in
  clock w' = clock w /\ tweet_queue (scheduler w') = rest /\
  match database w with
  | JSONFallback j =>
      exists j',
        database w' = JSONFallback j' /\
        json_posted_tweets j'
        = json_posted_tweets j ++ [posted_row_of (id t) r (clock w (S (ticks w)))]
  | SQLite _ => True
  end.
Proof.
  intros Hq Hs Hdue Hr w'. subst w'. unfold process_tweet_queue. run_monad.
  rewrite (should_post_tweet_head_due w t rest s Hq Hs Hdue). run_monad.
  match goal with
  | |- context [post_next_tweet (Some r) ?v] =>
      pose proof (post_next_tweet_accepted r v t rest Hq Hr) as Hpost;
      cbv zeta in Hpost; unfold exec in Hpost;
      cbn [clock ticks database scheduler] in Hpost;
      destruct (post_next_tweet (Some r) v) as [[b |] w1]
  end; cbn [fst snd] in *;
    destruct Hpost as ((Hclock & Hback) & Hret & Hqueue & _ & _ & Hstore);
    try discriminate.
  split; [exact Hclock |]. split; [exact Hqueue |].
  destruct (database w) as [s0 | j]; [exact I |].
  destruct (database w1) as [s1 | j1]; [discriminate |].
  exists j1. split; [reflexivity |]. apply Hstore.
Qed.

(** X19: the spacing [min_interval_hours] is not applied to tweets that
    are due. When the first two tweets of the queue are both scheduled at
    or before the clock readings, two calls of [process_tweet_queue] in a
    row post both (Twitter accepting them), whatever the spacing and
    however recent the last post is; in the fallback files the two posts
    are recorded one after the other. *)
Theorem due_tweets_post_back_to_back (r1 r2 : gmap string json) (w : world)
    (t1 t2 : QueuedTweet) (rest : list QueuedTweet) (s1 s2 : datetime) :
  tweet_queue (scheduler w) = t1 :: t2 :: rest ->
  scheduled_for t1 = Some s1 -> scheduled_for t2 = Some s2 ->
  s1 <= clock w (ticks w) -> (forall n, s2 <= clock w n) ->
  r1 <> ∅ -> r2 <> ∅ ->
  let w1 := exec (process_tweet_queue (Some r1)) w in
  let w2 := exec (process_tweet_queue (Some r2)) w1 in
  tweet_queue (scheduler w1) = t2 :: rest /\
  tweet_queue (scheduler w2) = rest /\
  (use_json_fallback (database w) = true ->
   exists n,
     stored_posted (database w2)
     = stored_posted (database w)
         ++ [posted_row_of (id t1) r1 (clock w (S (ticks w)));
             posted_row_of (id t2) r2 (clock w n)]).
Proof.
  intros Hq Hs1 Hs2 Hdue1 Hdue2 Hr1 Hr2 w1 w2.
  destruct (process_tweet_queue_head_due r1 w t1 (t2 :: rest) s1 Hq Hs1 Hdue1 Hr1)
    as (Hclock1 & Hq1 & Hstore1).
  fold w1 in Hclock1, Hq1, Hstore1.
  assert (Hdue2' : s2 <= clock w1 (ticks w1)) by (rewrite Hclock1; apply Hdue2).
  destruct (process_tweet_queue_head_due r2 w1 t2 rest s2 Hq1 Hs2 Hdue2' Hr2)
    as (Hclock2 & Hq2 & Hstore2).
  fold w2 in Hclock2, Hq2, Hstore2.
  split; [exact Hq1 |]. split; [exact Hq2 |].
  intros Hjson. destruct (database w) as [s | j]; [discriminate |].
  destruct Hstore1 as (j1 & Hdb1 & Hposted1). rewrite Hdb1 in Hstore2.
  destruct Hstore2 as (j2 & Hdb2 & Hposted2).
  exists (S (ticks w1)). rewrite Hdb2. cbn [stored_posted].
  rewrite Hposted2, Hposted1, Hclock1, <- app_assoc. reflexivity.
Qed.

Lemma due_tweets_post_back_to_back_witness :
  let r : gmap string json := <["id" := JStr "1746800000000000000"]> ∅ in
  let t1 := sample_tweet "kubectl_20240115_070000" 1 (Some morning) morning 0 in
  let t2 := sample_tweet "helm_20240115_070000" 1 (Some morning) morning 0 in
  let w := world_at morning (JSONFallback empty_json) (scheduler_with_queue [t1; t2]) in
  tweet_queue
    (scheduler (exec (process_tweet_queue (Some r)) (exec (process_tweet_queue (Some r)) w)))
  = [].
Proof.
  intros r t1 t2 w.
  apply (due_tweets_post_back_to_back r r w t1 t2 [] morning morning).
  - reflexivity.
  - reflexivity.
  - reflexivity.
  - cbn. lia.
  - intros n. cbn. lia.
  - apply insert_non_empty.
  - apply insert_non_empty.
Defined.
